(** * gh-gist-new: a verification development for [main.go]

    The program turns a local directory into a gist and binds the directory
    to the gist's history.  This file embeds the parts of [main.go] that the
    specification talks about (name validation, file collection, request
    construction and its wire format, metadata reconciliation and the
    cross-device mover) and proves or refutes the specification's statements
    about them.  It then embeds the rest of the program (the command line,
    the resolution of the target directory, [main]) and proves what the code
    shows there and along the whole run.

    Conventions.
    - A Go [string] and a Go [[]byte] are sequences of bytes: both are
      modelled by [string] (a list of 8-bit characters).
    - A Go [error] result is an [option error]: [None] is [nil].
    - A path is the list of its components below the root; [filepath.Join p
      name] is [p ++ [name]].
    - Functions of the Go standard library and of the operating system are
      modelled from their documentation; each such definition says so. *)

From Stdlib Require Import String Ascii ZArith List Lia Bool Permutation Sorted OrderedTypeEx.
From stdpp Require Import gmap strings.

Import ListNotations.
Local Open Scope Z_scope.

(** ** Errors *)

Definition path := list string.

Inductive Errno :=
| ENOENT | EEXIST | ENOTDIR | EISDIR | EXDEV | EINVAL | ELOOP | EBUSY | ENXIO.

(** An operand of a formatting verb in [fmt.Errorf]. *)
Inductive fmtArg :=
| AStr (s : string)
| APath (p : path)
| ANum (n : Z)
| AElapsed. (* a duration read from the clock *)

(** Go error values.  [fmt_Errorf] keeps the format string of the source and
    its operands instead of the rendered text; the operand of a [%w] verb is
    kept apart ([fmt_Errorf_w]) because [errors.Is] and [errors.As] look
    through it, the operand of a [%v] verb that is an error is kept apart too
    ([fmt_Errorf_v]) but is not looked through. *)
Inductive error :=
| errors_New (text : string)
| fmt_Errorf (format : string) (args : list fmtArg)
| fmt_Errorf_w (format : string) (args : list fmtArg) (err : error)
| fmt_Errorf_v (format : string) (args : list fmtArg) (err : error)
| PathError (op : string) (p : path) (e : Errno)
| LinkError (op : string) (old new : path) (e : Errno).

(** [errors.Unwrap]. *)
Definition errors_Unwrap (err : error) : option error :=
  match err with
  | fmt_Errorf_w _ _ e => Some e
  | _ => None
  end.

(** [errors.As(err, &linkErr)] with [linkErr : *os.LinkError]: the first
    error of the chain that is a [*os.LinkError], whatever its errno. *)
Fixpoint errors_As_LinkError (err : error) : option (string * path * path * Errno) :=
  match err with
  | LinkError op old new e => Some (op, old, new, e)
  | fmt_Errorf_w _ _ e => errors_As_LinkError e
  | _ => None
  end.

(** The errno an error carries, looking through wrappers ([errors.Is(err,
    syscall.EXDEV)] is [errno_of err = Some EXDEV]). *)
Fixpoint errno_of (err : error) : option Errno :=
  match err with
  | PathError _ _ e => Some e
  | LinkError _ _ _ e => Some e
  | fmt_Errorf_w _ _ e => errno_of e
  | _ => None
  end.

(** ** Strings *)

(** [strings.HasPrefix]. *)
Fixpoint strings_HasPrefix (s prefix : string) : bool :=
  match prefix, s with
  | EmptyString, _ => true
  | String a prefix', String b s' => Ascii.eqb a b && strings_HasPrefix s' prefix'
  | String _ _, EmptyString => false
  end.

(** Whether the byte [c] occurs in [chars]. *)
Fixpoint byte_in (c : ascii) (chars : string) : bool :=
  match chars with
  | EmptyString => false
  | String d chars' => if Ascii.eqb c d then true else byte_in c chars'
  end.

(** [strings.ContainsAny] for a set [chars] of ASCII characters, where it
    compares bytes. *)
Fixpoint strings_ContainsAny (s chars : string) : bool :=
  match s with
  | EmptyString => false
  | String c s' => if byte_in c chars then true else strings_ContainsAny s' chars
  end.

(** ** PathValidator *)

Definition validateName (name : string) : option error :=
  if String.eqb name "" then Some (errors_New "name cannot be empty")
  else if String.eqb name "." then None
  else if String.eqb name ".." then Some (errors_New "'..' is not a supported directory name")
  else if strings_ContainsAny name "/\" then
    Some (fmt_Errorf "name %q may not contain path separators" [AStr name])
  else if strings_HasPrefix name "-" then
    Some (fmt_Errorf "name %q may not start with '-'" [AStr name])
  else None.

(** The name contains a path separator, ['/'] or ['\']. *)
Definition has_separator (name : string) : Prop :=
  exists a b c, name = a +:+ String c b /\ (c = "/"%char \/ c = "\"%char).

(** The name starts with ['-']. *)
Definition starts_with_dash (name : string) : Prop :=
  exists rest, name = String "-"%char rest.

(** ** File modes ([os.FileMode]) *)

Definition ModeDir : Z := 2 ^ 31.
Definition ModeSymlink : Z := 2 ^ 27.
Definition ModeDevice : Z := 2 ^ 26.
Definition ModeNamedPipe : Z := 2 ^ 25.
Definition ModeSocket : Z := 2 ^ 24.
Definition ModeCharDevice : Z := 2 ^ 21.
Definition ModeIrregular : Z := 2 ^ 19.
Definition ModePerm : Z := 511. (* 0o777 *)

Definition ModeType : Z :=
  Z.lor ModeDir (Z.lor ModeSymlink (Z.lor ModeNamedPipe (Z.lor ModeSocket
    (Z.lor ModeDevice (Z.lor ModeCharDevice ModeIrregular))))).

Definition FileMode_IsDir (m : Z) : bool := negb (Z.land m ModeDir =? 0).
Definition FileMode_IsRegular (m : Z) : bool := Z.land m ModeType =? 0.
Definition FileMode_Perm (m : Z) : Z := Z.land m ModePerm.
Definition FileMode_Type (m : Z) : Z := Z.land m ModeType.

(** ** The file system

    A tree of regular files, directories, symbolic links (with an absolute
    target) and special files.  A directory keeps its entries in the order
    the file system enumerates them, which is not the order of the names.
    Permission bits are stored and reported, but access is not checked: the
    process is taken to have the rights for what it does, so that errors come
    from the shape of the tree only. *)

Inductive special := NamedPipe | Socket | Device | CharDevice.

Definition special_bits (k : special) : Z :=
  match k with
  | NamedPipe => ModeNamedPipe
  | Socket => ModeSocket
  | Device => ModeDevice
  | CharDevice => Z.lor ModeDevice ModeCharDevice
  end.

#[warnings="-register-all"]
Inductive node :=
| File (perm : Z) (data : string)
| Dir (perm : Z) (entries : list (string * node))
| Symlink (target : path)
| Special (kind : special) (perm : Z).

(** The mode [lstat] reports for a node. *)
Definition node_mode (n : node) : Z :=
  match n with
  | File perm _ => FileMode_Perm perm
  | Dir perm _ => Z.lor ModeDir (FileMode_Perm perm)
  | Symlink _ => Z.lor ModeSymlink ModePerm
  | Special k perm => Z.lor (special_bits k) (FileMode_Perm perm)
  end.

Fixpoint assoc (name : string) (es : list (string * node)) : option node :=
  match es with
  | [] => None
  | (k, v) :: es' => if String.eqb k name then Some v else assoc name es'
  end.

Fixpoint remove_assoc (name : string) (es : list (string * node)) : list (string * node) :=
  match es with
  | [] => []
  | (k, v) :: es' =>
      if String.eqb k name then remove_assoc name es' else (k, v) :: remove_assoc name es'
  end.

(** Replaces the entry [name] in place, or adds it after the others. *)
Fixpoint set_assoc (name : string) (v : node) (es : list (string * node)) : list (string * node) :=
  match es with
  | [] => [(name, v)]
  | (k, v') :: es' =>
      if String.eqb k name then (k, v) :: es' else (k, v') :: set_assoc name v es'
  end.

(** The node at a path, walking through directories only. *)
Fixpoint get (p : path) (n : node) : option node :=
  match p with
  | [] => Some n
  | name :: rest =>
      match n with
      | Dir _ es => match assoc name es with Some c => get rest c | None => None end
      | _ => None
      end
  end.

(** Sets ([Some]) or removes ([None]) the entry at a path whose parent is a
    directory of the tree; the root itself is never replaced. *)
Fixpoint put (p : path) (v : option node) (n : node) : node :=
  match p with
  | [] => n
  | name :: rest =>
      match n with
      | Dir perm es =>
          match rest with
          | [] => Dir perm (match v with
                            | Some c => set_assoc name c es
                            | None => remove_assoc name es
                            end)
          | _ => match assoc name es with
                 | Some c => Dir perm (set_assoc name (put rest v c) es)
                 | None => n
                 end
          end
      | _ => n
      end
  end.

(** Path resolution.  [Found canon n]: the path names node [n], at the
    link-free path [canon]; [Missing parent name]: every component but the
    last resolves, to the directory [parent], which has no entry [name]. *)
Inductive resolved :=
| Found (canon : path) (n : node)
| Missing (parent : path) (name : string)
| Failed (e : Errno).

Inductive walk_result :=
| Done (r : resolved)
| Follow (p : path).

(** One walk down the tree, up to the first symbolic link that has to be
    followed: a link in the middle of the path always, a link at its end when
    [follow] is set. *)
Fixpoint walk (follow : bool) (cur : path) (n : node) (rest : path) : walk_result :=
  match rest with
  | [] => Done (Found cur n)
  | name :: rest' =>
      match n with
      | Dir _ es =>
          match assoc name es with
          | None =>
              match rest' with
              | [] => Done (Missing cur name)
              | _ => Done (Failed ENOENT)
              end
          | Some (Symlink tgt) =>
              match rest' with
              | [] => if follow then Follow tgt
                      else Done (Found (cur ++ [name]) (Symlink tgt))
              | _ => Follow (tgt ++ rest')
              end
          | Some c => walk follow (cur ++ [name]) c rest'
          end
      | _ => Done (Failed ENOTDIR)
      end
  end.

Fixpoint namei_fuel (fuel : nat) (follow : bool) (root : node) (p : path) : resolved :=
  match walk follow [] root p with
  | Done r => r
  | Follow p' =>
      match fuel with
      | O => Failed ELOOP
      | S fuel' => namei_fuel fuel' follow root p'
      end
  end.

(** At most 40 symbolic links are followed in one resolution. *)
Definition namei (follow : bool) (root : node) (p : path) : resolved :=
  namei_fuel 40 follow root p.

(** ** The world

    The state the program acts on: the file system, the process's umask, the
    mount points (a rename across two of them is a cross-device rename), the
    lines written to standard output and the requests sent to the remote. *)

Record world := mkWorld {
  root : node;
  umask : Z;
  mounts : list path;
  stdout : list (string * list fmtArg);
  posted : list (string * string)
}.

Definition with_root (w : world) (r : node) : world :=
  mkWorld r (umask w) (mounts w) (stdout w) (posted w).

Definition emit (w : world) (format : string) (args : list fmtArg) : world :=
  mkWorld (root w) (umask w) (mounts w) (stdout w ++ [(format, args)]) (posted w).

Definition post (w : world) (endpoint body : string) : world :=
  mkWorld (root w) (umask w) (mounts w) (stdout w) (posted w ++ [(endpoint, body)]).

(** The result of a call that returns a value and an error. *)
Inductive res (A : Type) :=
| Ok (a : A)
| Fail (err : error).
Arguments Ok {A} a.
Arguments Fail {A} err.

(** The permission bits a new file or directory gets. *)
Definition create_perm (w : world) (mode : Z) : Z :=
  Z.ldiff (FileMode_Perm mode) (umask w).

(** [p1] is a prefix of [p2]. *)
Fixpoint is_prefix (p1 p2 : path) : bool :=
  match p1, p2 with
  | [], _ => true
  | a :: p1', b :: p2' => String.eqb a b && is_prefix p1' p2'
  | _ :: _, [] => false
  end.

Fixpoint path_eqb (p1 p2 : path) : bool :=
  match p1, p2 with
  | [], [] => true
  | a :: p1', b :: p2' => String.eqb a b && path_eqb p1' p2'
  | _, _ => false
  end.

(** The mount point a link-free path lies under: the longest one that is a
    prefix of it, the root when there is none. *)
Fixpoint device_of (ms : list path) (p : path) : path :=
  match ms with
  | [] => []
  | m :: ms' =>
      let best := device_of ms' p in
      if is_prefix m p && (length best <? length m)%nat then m else best
  end.

Definition is_mount_point (ms : list path) (p : path) : bool :=
  existsb (path_eqb p) ms.

(** *** Sorting *)

Section Sort.
Context {A : Type} (less : A -> A -> bool).

Fixpoint sort_insert (x : A) (l : list A) : list A :=
  match l with
  | [] => [x]
  | y :: l' => if less x y then x :: y :: l' else y :: sort_insert x l'
  end.

(** Insertion sort.  It stands for [sort.Slice] and [slices.SortFunc]: they
    are called on directory entries ordered by name, names are pairwise
    distinct within a directory, and then every sorting algorithm returns
    the same list (see [sorted_perm_unique]). *)
Fixpoint sort_Slice (l : list A) : list A :=
  match l with
  | [] => []
  | x :: l' => sort_insert x (sort_Slice l')
  end.
End Sort.

(** *** [os] calls, modelled from the documentation of package [os] and of
    the system calls underneath. *)

Record FileInfo := mkFileInfo { fi_name : string; fi_mode : Z }.
Record DirEntry := mkDirEntry { de_name : string; de_type : Z }.

Definition FileInfo_IsDir (fi : FileInfo) : bool := FileMode_IsDir (fi_mode fi).
Definition DirEntry_IsDir (e : DirEntry) : bool := FileMode_IsDir (de_type e).

Definition base (p : path) : string := List.last p "/".

(** [os.Lstat]: the last component is not followed when it is a link. *)
Definition os_Lstat (p : path) (w : world) : res FileInfo :=
  match namei false (root w) p with
  | Found _ n => Ok (mkFileInfo (base p) (node_mode n))
  | Missing _ _ => Fail (PathError "lstat" p ENOENT)
  | Failed e => Fail (PathError "lstat" p e)
  end.

(** [os.Stat]: links are followed. *)
Definition os_Stat (p : path) (w : world) : res FileInfo :=
  match namei true (root w) p with
  | Found _ n => Ok (mkFileInfo (base p) (node_mode n))
  | Missing _ _ => Fail (PathError "stat" p ENOENT)
  | Failed e => Fail (PathError "stat" p e)
  end.

Definition entry_of (e : string * node) : DirEntry :=
  mkDirEntry (fst e) (FileMode_Type (node_mode (snd e))).

Definition name_less (a b : DirEntry) : bool := String.ltb (de_name a) (de_name b).

(** [os.ReadDir]: the entries of the directory, sorted by file name. *)
Definition os_ReadDir (p : path) (w : world) : res (list DirEntry) :=
  match namei true (root w) p with
  | Found _ (Dir _ es) => Ok (sort_Slice name_less (map entry_of es))
  | Found _ _ => Fail (PathError "readdirent" p ENOTDIR)
  | Missing _ _ => Fail (PathError "open" p ENOENT)
  | Failed e => Fail (PathError "open" p e)
  end.

(** [DirEntry.Info] of an entry read from directory [dir]: an [lstat] of the
    entry, so for a symbolic link the information is about the link itself,
    not about its target. *)
Definition DirEntry_Info (dir : path) (e : DirEntry) (w : world) : res FileInfo :=
  os_Lstat (dir ++ [de_name e]) w.

(** [os.ReadFile].  Special files are not readable in the model: opening a
    socket or a device without a driver fails, and a read from a named pipe
    without a writer does not return. *)
Definition os_ReadFile (p : path) (w : world) : res string :=
  match namei true (root w) p with
  | Found _ (File _ data) => Ok data
  | Found _ (Dir _ _) => Fail (PathError "read" p EISDIR)
  | Found _ (Symlink _) => Fail (PathError "open" p ELOOP)
  | Found _ (Special _ _) => Fail (PathError "open" p ENXIO)
  | Missing _ _ => Fail (PathError "open" p ENOENT)
  | Failed e => Fail (PathError "open" p e)
  end.

(** [os.OpenFile(p, O_WRONLY|O_CREATE|O_TRUNC, mode)]: the link-free path of
    the file that is now open and empty.  An existing file keeps its mode. *)
Definition open_trunc (p : path) (mode : Z) (w : world) : world * res path :=
  match namei true (root w) p with
  | Found c (File perm _) => (with_root w (put c (Some (File perm "")) (root w)), Ok c)
  | Found _ (Dir _ _) => (w, Fail (PathError "open" p EISDIR))
  | Found _ (Symlink _) => (w, Fail (PathError "open" p ELOOP))
  | Found _ (Special _ _) => (w, Fail (PathError "open" p ENXIO))
  | Missing parent name =>
      let c := parent ++ [name] in
      (with_root w (put c (Some (File (create_perm w mode) "")) (root w)), Ok c)
  | Failed e => (w, Fail (PathError "open" p e))
  end.

(** Writing [data] to the open, empty file at the link-free path [c]. *)
Definition write_all (c : path) (data : string) (w : world) : world :=
  match get c (root w) with
  | Some (File perm _) => with_root w (put c (Some (File perm data)) (root w))
  | _ => w
  end.

(** [os.WriteFile]. *)
Definition os_WriteFile (p : path) (data : string) (mode : Z) (w : world) : world * option error :=
  match open_trunc p mode w with
  | (w1, Ok c) => (write_all c data w1, None)
  | (w1, Fail err) => (w1, Some err)
  end.

(** [os.Mkdir]. *)
Definition os_Mkdir (p : path) (mode : Z) (w : world) : world * option error :=
  match namei false (root w) p with
  | Found _ _ => (w, Some (PathError "mkdir" p EEXIST))
  | Missing parent name =>
      (with_root w (put (parent ++ [name]) (Some (Dir (create_perm w mode) [])) (root w)), None)
  | Failed e => (w, Some (PathError "mkdir" p e))
  end.

(** [os.MkdirAll], on the reversed path: when the path does not name a
    directory yet, its parent is made first. *)
Fixpoint os_MkdirAll_rev (rp : path) (mode : Z) (w : world) : world * option error :=
  match os_Stat (rev rp) w with
  | Ok dir =>
      if FileInfo_IsDir dir then (w, None)
      else (w, Some (PathError "mkdir" (rev rp) ENOTDIR))
  | Fail _ =>
      let made :=
        match rp with
        | [] => (w, None)
        | _ :: rp' => os_MkdirAll_rev rp' mode w
        end in
      match made with
      | (w1, Some err) => (w1, Some err)
      | (w1, None) =>
          match os_Mkdir (rev rp) mode w1 with
          | (w2, Some err) =>
              match os_Lstat (rev rp) w2 with
              | Ok dir1 => if FileInfo_IsDir dir1 then (w2, None) else (w2, Some err)
              | Fail _ => (w2, Some err)
              end
          | (w2, None) => (w2, None)
          end
      end
  end.

Definition os_MkdirAll (p : path) (mode : Z) (w : world) : world * option error :=
  os_MkdirAll_rev (rev p) mode w.

Definition parent_of (p : path) : path := removelast p.

(** [os.Rename].  Package [os] refuses a directory at the new name before
    the system call; every failure, of the check and of the system call, is
    returned as a [*os.LinkError].  The system call resolves the two parent
    directories, compares their devices, and only then looks at the entries
    themselves. *)
Definition os_Rename (old new : path) (w : world) : world * option error :=
  let fail e := (w, Some (LinkError "rename" old new e)) in
  let syscall :=
    match namei false (root w) old, namei false (root w) new with
    | Failed e, _ => fail e
    | _, Failed e => fail e
    | Missing po _, Found cn _ =>
        if path_eqb (device_of (mounts w) po) (device_of (mounts w) (parent_of cn))
        then fail ENOENT else fail EXDEV
    | Missing po _, Missing pn _ =>
        if path_eqb (device_of (mounts w) po) (device_of (mounts w) pn)
        then fail ENOENT else fail EXDEV
    | Found co n, target =>
        let cn := match target with
                  | Found cn _ => cn
                  | Missing pn name => pn ++ [name]
                  | Failed _ => []
                  end in
        if negb (path_eqb (device_of (mounts w) (parent_of co))
                          (device_of (mounts w) (parent_of cn))) then fail EXDEV
        else if path_eqb co [] || path_eqb cn [] then fail EBUSY
        else if path_eqb co cn then (w, None)
        else if (match n with Dir _ _ => is_prefix co cn | _ => false end) then fail EINVAL
        else if (match n, target with
                 | Dir _ _, Found _ (Dir _ _) => false
                 | Dir _ _, Found _ _ => true
                 | _, _ => false
                 end) then fail ENOTDIR
        else if (match n, target with
                 | Dir _ _, _ => false
                 | _, Found _ (Dir _ _) => true
                 | _, _ => false
                 end) then fail EISDIR
        else if is_mount_point (mounts w) co || is_mount_point (mounts w) cn then fail EBUSY
        else (with_root w (put cn (Some n) (put co None (root w))), None)
    end in
  match namei false (root w) new with
  | Found cn (Dir _ _) =>
      match namei false (root w) old with
      | Found co _ =>
          if path_eqb new old || negb (path_eqb cn co) then fail EEXIST else syscall
      | Missing _ _ => fail ENOENT
      | Failed e => fail e
      end
  | _ => syscall
  end.

(** [os.RemoveAll]: removes the path and everything below it; a path that
    does not exist is not an error.  A mount point is emptied but cannot be
    removed; mount points further below are not looked for. *)
Definition os_RemoveAll (p : path) (w : world) : world * option error :=
  match namei false (root w) p with
  | Found c n =>
      if path_eqb c [] || is_mount_point (mounts w) c then
        match n with
        | Dir perm _ =>
            (with_root w (match c with
                          | [] => Dir perm []
                          | _ => put c (Some (Dir perm [])) (root w)
                          end),
             Some (PathError "unlinkat" p EBUSY))
        | _ => (w, Some (PathError "unlinkat" p EBUSY))
        end
      else (with_root w (put c None (root w)), None)
  | Missing _ _ => (w, None)
  | Failed ENOENT => (w, None)
  | Failed e => (w, Some (PathError "unlinkat" p e))
  end.

(** [errors.Is(err, os.ErrNotExist)]. *)
Definition errors_Is_ErrNotExist (err : error) : bool :=
  match errno_of err with
  | Some ENOENT => true
  | _ => false
  end.

(** ** CrossDeviceMover *)

(** [copyFile]: [os.Open] and [Stat] of the source, [os.OpenFile] of the
    destination with the source's mode, [io.Copy], [Close].  Opening a
    directory succeeds; reading from it does not. *)
Definition copyFile (src dst : path) (w : world) : world * option error :=
  match namei true (root w) src with
  | Found c (Symlink _) => (w, Some (PathError "open" src ELOOP))
  | Found c (Special _ _) => (w, Some (PathError "open" src ENXIO))
  | Found c n =>
      match open_trunc dst (node_mode n) w with
      | (w1, Fail err) => (w1, Some err)
      | (w1, Ok d) =>
          match get c (root w1) with
          | Some (File _ data) => (write_all d data w1, None)
          | _ => (w1, Some (PathError "read" src EISDIR))
          end
      end
  | Missing _ _ => (w, Some (PathError "open" src ENOENT))
  | Failed e => (w, Some (PathError "open" src e))
  end.

(** The loop of [copyDir] over the entries of the source directory; [rec] is
    [copyDir] itself, for the subdirectories. *)
Fixpoint copyDir_loop (rec : path -> path -> world -> option (world * option error))
    (src dst : path) (entries : list DirEntry) (w : world) : option (world * option error) :=
  match entries with
  | [] => Some (w, None)
  | entry :: rest =>
      let srcPath := src ++ [de_name entry] in
      let dstPath := dst ++ [de_name entry] in
      match (if DirEntry_IsDir entry
             then rec srcPath dstPath w
             else Some (copyFile srcPath dstPath w)) with
      | None => None
      | Some (w', Some err) => Some (w', Some err)
      | Some (w', None) => copyDir_loop rec src dst rest w'
      end
  end.

(** [copyDir].  The recursion follows the tree it reads from the changing
    world, so it is bounded by [fuel]; [None] is "out of fuel". *)
Fixpoint copyDir (fuel : nat) (src dst : path) (w : world) : option (world * option error) :=
  match fuel with
  | O => None
  | S fuel' =>
      match os_Stat src w with
      | Fail err => Some (w, Some err)
      | Ok srcInfo =>
          match os_MkdirAll dst (fi_mode srcInfo) w with
          | (w1, Some err) => Some (w1, Some err)
          | (w1, None) =>
              match os_ReadDir src w1 with
              | Fail err => Some (w1, Some err)
              | Ok entries => copyDir_loop (copyDir fuel') src dst entries w1
              end
          end
      end
  end.

(** [moveFileOrDir]. *)
Definition moveFileOrDir (fuel : nat) (src dst : path) (w : world) : option (world * option error) :=
  match os_Rename src dst w with
  | (w1, None) => Some (w1, None)
  | (w1, Some err) =>
      match errors_As_LinkError err with
      | None => Some (w1, Some err)
      | Some _ =>
          match copyDir fuel src dst w1 with
          | None => None
          | Some (w2, Some err2) => Some (w2, Some (fmt_Errorf_w "copy: %w" [] err2))
          | Some (w2, None) =>
              match os_RemoveAll src w2 with
              | (w3, Some err3) =>
                  Some (w3, Some (fmt_Errorf_w "remove source after copy: %w" [] err3))
              | (w3, None) => Some (w3, None)
              end
          end
      end
  end.

(** ** MetadataReconciler *)

(** The entry is version-control metadata to move: its name starts with
    [.git] and is not [.gitignore]. *)
Definition is_metadata (name : string) : bool :=
  strings_HasPrefix name ".git" && negb (String.eqb name ".gitignore").

(** The loop of [moveGitMetadata] over the entries of the clone, from the
    state [(w, movedGitDir)]. *)
Fixpoint moveGitMetadata_loop (fuel : nat) (from to : path) (entries : list DirEntry)
    (movedGitDir : bool) (w : world) : option (world * bool * option error) :=
  match entries with
  | [] => Some (w, movedGitDir, None)
  | entry :: rest =>
      let name := de_name entry in
      if negb (strings_HasPrefix name ".git") then
        moveGitMetadata_loop fuel from to rest movedGitDir w
      else if String.eqb name ".gitignore" then
        moveGitMetadata_loop fuel from to rest movedGitDir w
      else
        let src := from ++ [name] in
        let dst := to ++ [name] in
        let (w1, removed) := os_RemoveAll dst w in
        match (match removed with
               | Some err => if negb (errors_Is_ErrNotExist err) then Some err else None
               | None => None
               end) with
        | Some err =>
            Some (w1, movedGitDir,
                  Some (fmt_Errorf_w "prepare destination %s: %w" [APath dst] err))
        | None =>
            match moveFileOrDir fuel src dst w1 with
            | None => None
            | Some (w2, Some err2) =>
                Some (w2, movedGitDir,
                      Some (fmt_Errorf_w "move %s into target directory: %w" [AStr name] err2))
            | Some (w2, None) =>
                moveGitMetadata_loop fuel from to rest
                  (if String.eqb name ".git" then true else movedGitDir) w2
            end
        end
  end.

Definition errNoGitDir : error := errors_New "cloned gist did not include a .git directory".

Definition moveGitMetadata (fuel : nat) (from to : path) (w : world) : option (world * option error) :=
  match os_ReadDir from w with
  | Fail err => Some (w, Some (fmt_Errorf_w "inspect cloned gist: %w" [] err))
  | Ok entries =>
      match moveGitMetadata_loop fuel from to entries false w with
      | None => None
      | Some (w1, _, Some err) => Some (w1, Some err)
      | Some (w1, movedGitDir, None) =>
          if negb movedGitDir then Some (w1, Some errNoGitDir) else Some (w1, None)
      end
  end.

(** ** FileCollector *)

Record filePayload := mkPayload {
  Name : string;
  Path : path;
  Content : string
}.

Record logger := mkLogger { lg_verbose : bool }.

(** [logger.Info] and [logger.Verbose] write one line to standard output (the
    world keeps the format and its operands). *)
Definition logger_Info (l : logger) (format : string) (args : list fmtArg) (w : world) : world :=
  emit w format args.

Definition logger_Verbose (l : logger) (format : string) (args : list fmtArg) (w : world) : world :=
  if lg_verbose l then emit w format args else w.

Definition newline : string := String (ascii_of_nat 10) EmptyString.

Definition defaultFileName (name : string) : string := name +:+ ".md".

Definition len (s : string) : Z := Z.of_nat (String.length s).

(** The loop of [gatherFiles] over the sorted entries, from the state
    [(files, w)]. *)
Fixpoint gatherFiles_loop (dir : path) (log : logger) (entries : list DirEntry)
    (files : list filePayload) (w : world) : world * res (list filePayload) :=
  match entries with
  | [] => (w, Ok files)
  | entry :: rest =>
      let name := de_name entry in
      match DirEntry_Info dir entry w with
      | Fail err => (w, Fail (fmt_Errorf_w "inspect %s: %w" [AStr name] err))
      | Ok info =>
          if negb (Z.land (de_type entry) ModeSymlink =? 0) && FileInfo_IsDir info then
            (w, Fail (fmt_Errorf
                        "symlink %s targets a directory; gists cannot include directories"
                        [AStr name]))
          else if FileInfo_IsDir info then
            (w, Fail (fmt_Errorf
                        "subdirectory %s detected; gists only support flat file sets"
                        [AStr name]))
          else if strings_HasPrefix name "." then
            gatherFiles_loop dir log rest files
              (logger_Verbose log "Skipping dotfile %s" [AStr name] w)
          else if negb (FileMode_IsRegular (fi_mode info)) then
            gatherFiles_loop dir log rest files
              (logger_Verbose log "Skipping non-regular file %s" [AStr name] w)
          else
            let path := dir ++ [name] in
            match os_ReadFile path w with
            | Fail err => (w, Fail (fmt_Errorf_w "read %s: %w" [AStr name] err))
            | Ok content =>
                gatherFiles_loop dir log rest
                  (files ++ [mkPayload name path content])
                  (logger_Verbose log "Queued %s (%d bytes)" [AStr name; ANum (len content)] w)
            end
      end
  end.

(** [gatherFiles].  [displayName] is one path component: [run] gets it from
    a validated name or from [filepath.Base]. *)
Definition gatherFiles (dir : path) (displayName : string) (log : logger) (w : world)
    : world * res (list filePayload) :=
  match os_ReadDir dir w with
  | Fail err => (w, Fail (fmt_Errorf_w "read directory %s: %w" [APath dir] err))
  | Ok entries =>
      let entries := sort_Slice name_less entries in
      match gatherFiles_loop dir log entries [] w with
      | (w1, Fail err) => (w1, Fail err)
      | (w1, Ok files) =>
          if (length files =? 0)%nat then
            let name := defaultFileName displayName in
            let content := "# " +:+ displayName +:+ newline in
            let path := dir ++ [name] in
            match os_WriteFile path content 420 (* 0o644 *) w1 with
            | (w2, Some err) =>
                (w2, Fail (fmt_Errorf_w "bootstrap default file %s: %w" [AStr name] err))
            | (w2, None) =>
                (logger_Info log "Directory was empty; created %s" [AStr name] w2,
                 Ok (files ++ [mkPayload name path content]))
            end
          else (w1, Ok files)
      end
  end.

(** ** The wire format: [encoding/json] and [unicode/utf8], modelled from their
    documentation *)

Definition byte_val (c : ascii) : Z := Z.of_N (N_of_ascii c).
Definition byte_of (n : Z) : ascii := ascii_of_N (Z.to_N n).

Definition dquote : ascii := ascii_of_nat 34.
Definition backslash : ascii := ascii_of_nat 92.

Fixpoint str_take (n : nat) (s : string) : string :=
  match n, s with
  | S n', String c s' => String c (str_take n' s')
  | _, _ => EmptyString
  end.

Fixpoint str_drop (n : nat) (s : string) : string :=
  match n, s with
  | S n', String _ s' => str_drop n' s'
  | _, _ => s
  end.

Definition RuneError : Z := 65533. (* U+FFFD *)

(** The table [first] of package [utf8] for the bytes that start a sequence
    of several bytes: the length of the sequence and the range the second
    byte has to lie in. *)
Definition utf8_first (b0 : Z) : option (nat * Z * Z) :=
  if (194 <=? b0) && (b0 <=? 223) then Some (2%nat, 128, 191)
  else if b0 =? 224 then Some (3%nat, 160, 191)
  else if (225 <=? b0) && (b0 <=? 236) then Some (3%nat, 128, 191)
  else if b0 =? 237 then Some (3%nat, 128, 159)
  else if (238 <=? b0) && (b0 <=? 239) then Some (3%nat, 128, 191)
  else if b0 =? 240 then Some (4%nat, 144, 191)
  else if (241 <=? b0) && (b0 <=? 243) then Some (4%nat, 128, 191)
  else if b0 =? 244 then Some (4%nat, 128, 143)
  else None.

Definition continuation (b : Z) : bool := (128 <=? b) && (b <=? 191).

(** [utf8.DecodeRuneInString]: the first rune of the string and its width in
    bytes; [(RuneError, 0)] for the empty string and [(RuneError, 1)] for an
    encoding that is invalid or cut short. *)
Definition utf8_DecodeRune (s : string) : Z * nat :=
  match s with
  | EmptyString => (RuneError, 0%nat)
  | String c0 s1 =>
      let b0 := byte_val c0 in
      if b0 <? 128 then (b0, 1%nat)
      else
        match utf8_first b0, s1 with
        | Some (sz, lo, hi), String c1 s2 =>
            let b1 := byte_val c1 in
            if (b1 <? lo) || (hi <? b1) then (RuneError, 1%nat)
            else if (sz <=? 2)%nat then
              (Z.lor (Z.shiftl (Z.land b0 31) 6) (Z.land b1 63), 2%nat)
            else
              match s2 with
              | String c2 s3 =>
                  let b2 := byte_val c2 in
                  if negb (continuation b2) then (RuneError, 1%nat)
                  else if (sz <=? 3)%nat then
                    (Z.lor (Z.shiftl (Z.land b0 15) 12)
                       (Z.lor (Z.shiftl (Z.land b1 63) 6) (Z.land b2 63)), 3%nat)
                  else
                    match s3 with
                    | String c3 _ =>
                        let b3 := byte_val c3 in
                        if negb (continuation b3) then (RuneError, 1%nat)
                        else
                          (Z.lor (Z.shiftl (Z.land b0 7) 18)
                             (Z.lor (Z.shiftl (Z.land b1 63) 12)
                                (Z.lor (Z.shiftl (Z.land b2 63) 6) (Z.land b3 63))), 4%nat)
                    | EmptyString => (RuneError, 1%nat)
                    end
              | EmptyString => (RuneError, 1%nat)
              end
        | _, _ => (RuneError, 1%nat)
        end
  end.

(** [utf8.EncodeRune] (as [utf8.AppendRune]): surrogates and values beyond
    U+10FFFF are encoded as U+FFFD. *)
Definition utf8_EncodeRune (r : Z) : string :=
  let b (n : Z) := byte_of n in
  let three (r : Z) :=
    String (b (Z.lor 224 (Z.shiftr r 12)))
      (String (b (Z.lor 128 (Z.land (Z.shiftr r 6) 63)))
         (String (b (Z.lor 128 (Z.land r 63))) EmptyString)) in
  if r <? 0 then three RuneError
  else if r <? 128 then String (b r) EmptyString
  else if r <? 2048 then
    String (b (Z.lor 192 (Z.shiftr r 6)))
      (String (b (Z.lor 128 (Z.land r 63))) EmptyString)
  else if (1114111 <? r) || ((55296 <=? r) && (r <=? 57343)) then three RuneError
  else if r <? 65536 then three r
  else
    String (b (Z.lor 240 (Z.shiftr r 18)))
      (String (b (Z.lor 128 (Z.land (Z.shiftr r 12) 63)))
         (String (b (Z.lor 128 (Z.land (Z.shiftr r 6) 63)))
            (String (b (Z.lor 128 (Z.land r 63))) EmptyString))).

Definition invalid_rune (rs : Z * nat) : bool :=
  (fst rs =? RuneError) && (snd rs =? 1)%nat.

(** [utf8.ValidString]. *)
Fixpoint utf8_Valid_fuel (fuel : nat) (s : string) : bool :=
  match s, fuel with
  | EmptyString, _ => true
  | _, O => false
  | _, S fuel' =>
      let rs := utf8_DecodeRune s in
      if invalid_rune rs then false else utf8_Valid_fuel fuel' (str_drop (snd rs) s)
  end.

Definition utf8_Valid (s : string) : bool := utf8_Valid_fuel (String.length s) s.

(** What a string becomes when each byte that does not start a valid
    encoding is replaced by the encoding of U+FFFD. *)
Fixpoint utf8_coerce_fuel (fuel : nat) (s : string) : string :=
  match s, fuel with
  | EmptyString, _ => EmptyString
  | _, O => EmptyString
  | _, S fuel' =>
      let rs := utf8_DecodeRune s in
      if invalid_rune rs then utf8_EncodeRune RuneError +:+ utf8_coerce_fuel fuel' (str_drop 1 s)
      else str_take (snd rs) s +:+ utf8_coerce_fuel fuel' (str_drop (snd rs) s)
  end.

Definition utf8_coerce (s : string) : string := utf8_coerce_fuel (String.length s) s.

Definition hex_digit (n : Z) : ascii :=
  match String.get (Z.to_nat n) "0123456789abcdef" with
  | Some c => c
  | None => "0"%char
  end.

(** [htmlSafeSet] of [encoding/json]: the ASCII bytes that are written as
    they are. *)
Definition htmlSafe (b : Z) : bool :=
  (32 <=? b) && (b <? 128) &&
  negb ((b =? 34) || (b =? 38) || (b =? 60) || (b =? 62) || (b =? 92)).

(** What [appendString] writes for an ASCII byte that is not in
    [htmlSafeSet]. *)
Definition escape_ascii (c : ascii) : string :=
  let b := byte_val c in
  if (b =? 92) || (b =? 34) then String backslash (String c EmptyString)
  else if b =? 8 then String backslash "b"
  else if b =? 12 then String backslash "f"
  else if b =? 10 then String backslash "n"
  else if b =? 13 then String backslash "r"
  else if b =? 9 then String backslash "t"
  else String backslash
         (String "u" (String "0" (String "0"
            (String (hex_digit (Z.shiftr b 4))
               (String (hex_digit (Z.land b 15)) EmptyString))))).

(** The body of a JSON string as [appendString] of [encoding/json] writes it
    with [escapeHTML] set, as [json.Marshal] does: invalid UTF-8 becomes the
    escape of U+FFFD, U+2028 and U+2029 are escaped. *)
Fixpoint appendString_body (fuel : nat) (s : string) : string :=
  match s, fuel with
  | EmptyString, _ => EmptyString
  | _, O => EmptyString
  | String c rest, S fuel' =>
      let b := byte_val c in
      if b <? 128 then
        (if htmlSafe b then String c EmptyString else escape_ascii c)
          +:+ appendString_body fuel' rest
      else
        let rs := utf8_DecodeRune s in
        if invalid_rune rs then
          String backslash "ufffd" +:+ appendString_body fuel' (str_drop 1 s)
        else if (fst rs =? 8232) || (fst rs =? 8233) then
          String backslash "u202" +:+ String (hex_digit (Z.land (fst rs) 15)) EmptyString
            +:+ appendString_body fuel' (str_drop (snd rs) s)
        else str_take (snd rs) s +:+ appendString_body fuel' (str_drop (snd rs) s)
  end.

Definition appendString (s : string) : string :=
  String dquote (appendString_body (String.length s) s) +:+ String dquote EmptyString.

(** JSON values, as far as a gist request has them: no numbers, no arrays. *)
#[warnings="-register-all"]
Inductive json :=
| JNull
| JBool (b : bool)
| JString (s : string)
| JObject (members : list (string * json)).

(** The members of an object, each already printed, and the closing brace. *)
Fixpoint print_members (ms : list (string * string)) : string :=
  match ms with
  | [] => "}"
  | (k, v) :: ms' =>
      k +:+ ":" +:+ v +:+
      match ms' with
      | [] => "}"
      | _ => "," +:+ print_members ms'
      end
  end.

(** The compact text [json.Marshal] writes. *)
Fixpoint json_print (j : json) : string :=
  match j with
  | JNull => "null"
  | JBool true => "true"
  | JBool false => "false"
  | JString s => appendString s
  | JObject ms =>
      "{" +:+ print_members (map (fun '(k, v) => (appendString k, json_print v)) ms)
  end.

Definition hex_val (c : ascii) : option Z :=
  let b := byte_val c in
  if (48 <=? b) && (b <=? 57) then Some (b - 48)
  else if (97 <=? b) && (b <=? 102) then Some (b - 87)
  else if (65 <=? b) && (b <=? 70) then Some (b - 55)
  else None.

Definition hex4 (h1 h2 h3 h4 : ascii) : option Z :=
  match hex_val h1, hex_val h2, hex_val h3, hex_val h4 with
  | Some a, Some b, Some c, Some d => Some (a * 4096 + b * 256 + c * 16 + d)
  | _, _, _, _ => None
  end.

Definition prepend (s : string) (r : option (string * string)) : option (string * string) :=
  match r with
  | Some (body, rest) => Some (s +:+ body, rest)
  | None => None
  end.

(** The reader's side of a JSON string, from after the opening quote: the
    decoded string and the text after the closing quote.  A [\u] escape is
    decoded to UTF-8, two of them that form a surrogate pair to one rune, a
    lone surrogate to U+FFFD; a control character has to be escaped. *)
Fixpoint parse_string_body (s : string) : option (string * string) :=
  match s with
  | EmptyString => None
  | String c rest =>
      if Ascii.eqb c dquote then Some (EmptyString, rest)
      else if Ascii.eqb c backslash then
        match rest with
        | String e rest1 =>
            let simple (b : nat) := prepend (String (ascii_of_nat b) EmptyString)
                                      (parse_string_body rest1) in
            if Ascii.eqb e dquote then simple 34%nat
            else if Ascii.eqb e backslash then simple 92%nat
            else if Ascii.eqb e "/" then simple 47%nat
            else if Ascii.eqb e "b" then simple 8%nat
            else if Ascii.eqb e "f" then simple 12%nat
            else if Ascii.eqb e "n" then simple 10%nat
            else if Ascii.eqb e "r" then simple 13%nat
            else if Ascii.eqb e "t" then simple 9%nat
            else if Ascii.eqb e "u" then
              match rest1 with
              | String h1 (String h2 (String h3 (String h4 rest2))) =>
                  match hex4 h1 h2 h3 h4 with
                  | None => None
                  | Some r =>
                      if (55296 <=? r) && (r <=? 57343) then
                        match rest2 with
                        | String b1 (String u1 (String g1 (String g2 (String g3 (String g4 rest3))))) =>
                            match (if Ascii.eqb b1 backslash && Ascii.eqb u1 "u"
                                   then hex4 g1 g2 g3 g4 else None) with
                            | Some r2 =>
                                if (r <=? 56319) && (56320 <=? r2) && (r2 <=? 57343) then
                                  prepend (utf8_EncodeRune
                                             (65536 + (r - 55296) * 1024 + (r2 - 56320)))
                                    (parse_string_body rest3)
                                else prepend (utf8_EncodeRune RuneError) (parse_string_body rest2)
                            | None => prepend (utf8_EncodeRune RuneError) (parse_string_body rest2)
                            end
                        | _ => prepend (utf8_EncodeRune RuneError) (parse_string_body rest2)
                        end
                      else prepend (utf8_EncodeRune r) (parse_string_body rest2)
                  end
              | _ => None
              end
            else None
        | EmptyString => None
        end
      else if byte_val c <? 32 then None
      else prepend (String c EmptyString) (parse_string_body rest)
  end.

Fixpoint strip_prefix (p s : string) : option string :=
  match p, s with
  | EmptyString, _ => Some s
  | String a p', String b s' => if Ascii.eqb a b then strip_prefix p' s' else None
  | String _ _, EmptyString => None
  end.

(** The reader's side of a compact JSON text: the value at the head of the
    text and the text after it.  [fuel] bounds the number of values and
    members read. *)
Fixpoint parse_value (fuel : nat) (s : string) : option (json * string) :=
  match fuel with
  | O => None
  | S fuel' =>
      match s with
      | EmptyString => None
      | String c rest =>
          if Ascii.eqb c dquote then
            match parse_string_body rest with
            | Some (str, rest1) => Some (JString str, rest1)
            | None => None
            end
          else if Ascii.eqb c "{" then
            match rest with
            | String d rest1 =>
                if Ascii.eqb d "}" then Some (JObject [], rest1)
                else
                  match parse_members fuel' rest with
                  | Some (ms, rest2) => Some (JObject ms, rest2)
                  | None => None
                  end
            | EmptyString => None
            end
          else
            match strip_prefix "null" s, strip_prefix "true" s, strip_prefix "false" s with
            | Some rest1, _, _ => Some (JNull, rest1)
            | _, Some rest1, _ => Some (JBool true, rest1)
            | _, _, Some rest1 => Some (JBool false, rest1)
            | _, _, _ => None
            end
      end
  end
with parse_members (fuel : nat) (s : string) : option (list (string * json) * string) :=
  match fuel with
  | O => None
  | S fuel' =>
      match s with
      | String c rest =>
          if Ascii.eqb c dquote then
            match parse_string_body rest with
            | Some (k, String colon rest1) =>
                if Ascii.eqb colon ":" then
                  match parse_value fuel' rest1 with
                  | Some (v, String sep rest2) =>
                      if Ascii.eqb sep "," then
                        match parse_members fuel' rest2 with
                        | Some (ms, rest3) => Some ((k, v) :: ms, rest3)
                        | None => None
                        end
                      else if Ascii.eqb sep "}" then Some ([(k, v)], rest2)
                      else None
                  | _ => None
                  end
                else None
            | _ => None
            end
          else None
      | EmptyString => None
      end
  end.

(** ** GistUploader *)

Record options := mkOptions {
  opt_name : string;
  opt_public : bool;
  opt_description : string;
  opt_verbose : bool
}.

Record gistFile := mkGistFile { gf_Content : string }.

Record gistCreateRequest := mkRequest {
  Description : string;
  Public : bool;
  Files : gmap string gistFile
}.

Record gistCreateResponse := mkResponse { ID : string; HTMLURL : string }.

(** The request [createGist] builds from the payloads and the options. *)
Definition createGist_request (files : list filePayload) (opts : options) : gistCreateRequest :=
  mkRequest
    (if String.eqb (opt_description opts) "" then "" else opt_description opts)
    (opt_public opts)
    (fold_left (fun m f => <[Name f := mkGistFile (Content f)]> m) files ∅).

Definition key_less (a b : string * gistFile) : bool := String.ltb (fst a) (fst b).

(** What [json.Marshal] makes of a [gistCreateRequest]: the fields in the
    order of the struct, [description] left out when empty, the keys of the
    map sorted. *)
Definition request_json (req : gistCreateRequest) : json :=
  JObject
    ((if String.eqb (Description req) "" then []
      else [("description", JString (Description req))]) ++
     [("public", JBool (Public req));
      ("files",
       JObject (map (fun kv => (fst kv, JObject [("content", JString (gf_Content (snd kv)))]))
                  (sort_Slice key_less (map_to_list (Files req)))))]).

Definition json_Marshal (req : gistCreateRequest) : string := json_print (request_json req).

(** The remote's reading of a request: the members of the object in their
    order, a later member replacing an earlier one of the same name, unknown
    members ignored. *)
Definition file_of_json (j : json) : option gistFile :=
  match j with
  | JObject ms =>
      fold_left (fun acc kv =>
                   match acc with
                   | None => None
                   | Some f =>
                       if String.eqb (fst kv) "content" then
                         match snd kv with
                         | JString s => Some (mkGistFile s)
                         | _ => None
                         end
                       else Some f
                   end) ms (Some (mkGistFile ""))
  | _ => None
  end.

Definition files_of_json (ms : list (string * json)) : option (gmap string gistFile) :=
  fold_left (fun acc kv =>
               match acc, file_of_json (snd kv) with
               | Some m, Some f => Some (<[fst kv := f]> m)
               | _, _ => None
               end) ms (Some ∅).

Definition request_of_json (j : json) : option gistCreateRequest :=
  match j with
  | JObject ms =>
      fold_left (fun acc kv =>
                   match acc with
                   | None => None
                   | Some req =>
                       if String.eqb (fst kv) "description" then
                         match snd kv with
                         | JString s => Some (mkRequest s (Public req) (Files req))
                         | _ => None
                         end
                       else if String.eqb (fst kv) "public" then
                         match snd kv with
                         | JBool b => Some (mkRequest (Description req) b (Files req))
                         | _ => None
                         end
                       else if String.eqb (fst kv) "files" then
                         match snd kv with
                         | JObject fs =>
                             match files_of_json fs with
                             | Some m => Some (mkRequest (Description req) (Public req) m)
                             | None => None
                             end
                         | _ => None
                         end
                       else Some req
                   end) ms (Some (mkRequest "" false ∅))
  | _ => None
  end.

Definition json_Unmarshal (text : string) : option gistCreateRequest :=
  match parse_value (S (String.length text)) text with
  | Some (j, EmptyString) => request_of_json j
  | _ => None
  end.

Definition is_space (c : ascii) : bool :=
  let b := byte_val c in ((9 <=? b) && (b <=? 13)) || (b =? 32).

Fixpoint trim_left (s : string) : string :=
  match s with
  | String c s' => if is_space c then trim_left s' else s
  | EmptyString => EmptyString
  end.

Fixpoint trim_right (s : string) : string :=
  match s with
  | String c s' =>
      match trim_right s' with
      | EmptyString => if is_space c then EmptyString else String c EmptyString
      | t => String c t
      end
  | EmptyString => EmptyString
  end.

(** [strings.TrimSpace], for ASCII white space. *)
Definition strings_TrimSpace (s : string) : string := trim_right (trim_left s).

Section Collaborators.

(** What lies outside the program: the GitHub client and the remote's
    answer to a request (given the requests sent before), the creation of
    a fresh temporary directory, the [gh gist clone] subprocess (its exit
    error and its combined output), and the two first stages of [run],
    which no statement below depends on. *)
Variable DefaultRESTClient : world -> option error.
Variable remote : list (string * string) -> string -> string -> res gistCreateResponse.
Variable os_MkdirTemp : string -> string -> world -> world * res path.
Variable gh_gist_clone : string -> path -> world -> world * (option error * string).
Variable parseArgs : list string -> world -> world * res options.
Variable resolveTargetDirectory : string -> world -> world * res (path * string).

(** [createGist]: the URL and the identifier of the new gist. *)
Definition createGist (files : list filePayload) (opts : options) (log : logger) (w : world)
    : world * res (string * string) :=
  let req := createGist_request files opts in
  match DefaultRESTClient w with
  | Some err => (w, Fail (fmt_Errorf_w "init GitHub client: %w" [] err))
  | None =>
      let payload := json_Marshal req in
      let w1 := post w "gists" payload in
      match remote (posted w) "gists" payload with
      | Fail err => (w1, Fail (fmt_Errorf_w "create gist via GitHub API: %w" [] err))
      | Ok resp =>
          if String.eqb (ID resp) "" || String.eqb (HTMLURL resp) "" then
            (w1, Fail (errors_New "GitHub API returned an incomplete gist response"))
          else
            let visibility := if opt_public opts then "public" else "secret" in
            (logger_Info log "Created %s gist: %s" [AStr visibility; AStr (HTMLURL resp)] w1,
             Ok (HTMLURL resp, ID resp))
      end
  end.

(** [cloneGistMetadata]; the deferred [os.RemoveAll(tempParent)] runs on
    every way out once the temporary directory exists. *)
Definition cloneGistMetadata (fuel : nat) (gistID : string) (targetDir : path) (log : logger)
    (w : world) : option (world * option error) :=
  match os_MkdirTemp "" "gh-gist-new-" w with
  | (w1, Fail err) =>
      Some (w1, Some (fmt_Errorf_w "create temporary directory for cloning: %w" [] err))
  | (w1, Ok tempParent) =>
      let cloneDir := tempParent ++ ["clone"] in
      let body :=
        match gh_gist_clone gistID cloneDir w1 with
        | (w2, (Some err, output)) =>
            Some (w2, Some (fmt_Errorf_v
              "failed to clone gist metadata (retry manually: 'gh gist clone %s <tempdir>' then move .git into %s): %v\n%s"
              [AStr gistID; APath targetDir; AStr (strings_TrimSpace output)] err))
        | (w2, (None, output)) =>
            let trimmed := strings_TrimSpace output in
            let w3 := if negb (String.eqb trimmed "")
                      then logger_Verbose log "gh gist clone output:\n%s" [AStr trimmed] w2
                      else w2 in
            match moveGitMetadata fuel cloneDir targetDir w3 with
            | None => None
            | Some (w4, Some err) =>
                Some (w4, Some (fmt_Errorf_w
                  "failed to move git metadata (run 'gh gist clone %s <tempdir>' and move .git into %s manually): %w"
                  [AStr gistID; APath targetDir] err))
            | Some (w4, None) => Some (w4, None)
            end
        end in
      match body with
      | None => None
      | Some (w5, result) => Some (fst (os_RemoveAll tempParent w5), result)
      end
  end.

(** [run]. *)
Definition run (fuel : nat) (args : list string) (w : world) : option (world * option error) :=
  match parseArgs args w with
  | (w1, Fail err) => Some (w1, Some err)
  | (w1, Ok opts) =>
      let log := mkLogger (opt_verbose opts) in
      let w2 := logger_Info log "Resolving target directory..." [] w1 in
      match resolveTargetDirectory (opt_name opts) w2 with
      | (w3, Fail err) => Some (w3, Some err)
      | (w3, Ok (targetDir, displayName)) =>
          let w4 := logger_Verbose log "Target directory: %s" [APath targetDir] w3 in
          let w5 := logger_Info log "Collecting files for gist..." [] w4 in
          match gatherFiles targetDir displayName log w5 with
          | (w6, Fail err) => Some (w6, Some err)
          | (w6, Ok files) =>
              let w7 := logger_Info log "Collected %d file(s)"
                          [ANum (Z.of_nat (length files))] w6 in
              let w8 := logger_Verbose log "File collection completed in %s" [AElapsed] w7 in
              let w9 := logger_Info log "Creating gist via GitHub API..." [] w8 in
              match createGist files opts log w9 with
              | (w10, Fail err) => Some (w10, Some err)
              | (w10, Ok (gistURL, gistID)) =>
                  let w11 := logger_Verbose log "Gist creation completed in %s" [AElapsed] w10 in
                  let w12 := logger_Info log
                               "Cloning gist metadata into target directory..." [] w11 in
                  match cloneGistMetadata fuel gistID targetDir log w12 with
                  | None => None
                  | Some (w13, Some err) => Some (w13, Some err)
                  | Some (w13, None) =>
                      let w14 := logger_Verbose log "Metadata cloning completed in %s"
                                   [AElapsed] w13 in
                      Some (logger_Info log "Done! Gist ready at %s" [AStr gistURL] w14, None)
                  end
              end
          end
      end
  end.

End Collaborators.

(** ** Example worlds *)

Module Examples.

(** A project directory and a clone in the temporary directory, on one
    device; umask 022. *)
Definition clone_tree : node :=
  Dir 493
    [(".git", Dir 493 [("HEAD", File 420 "ref: refs/heads/main");
                       ("objects", Dir 493 [("ab", File 292 "blob")])]);
     (".gitattributes", File 420 "* text=auto");
     (".gitignore", File 420 "*.log");
     ("notes.md", File 420 "# notes")].

Definition fs_one : node :=
  Dir 493
    [("home", Dir 493 [("proj", Dir 493 [("notes.md", File 420 "# notes")])]);
     ("tmp", Dir 511 [("clone", clone_tree)])].

Definition one_device : world := mkWorld fs_one 18 [] [] [].

(** The same tree with the temporary directory on a device of its own. *)
Definition two_devices : world := mkWorld fs_one 18 [["tmp"]] [] [].

(** A directory with a regular file and a symbolic link to a directory. *)
Definition fs_linked : node :=
  Dir 493
    [("home", Dir 493 [("proj", Dir 493 [("a.txt", File 420 "alpha");
                                        ("docs", Symlink ["srv"; "docs"])])]);
     ("srv", Dir 493 [("docs", Dir 493 [("index.md", File 420 "# docs")])])].

Definition linked : world := mkWorld fs_linked 18 [] [] [].

(** A directory whose only entry is a dot-named symbolic link to a
    directory. *)
Definition fs_dotlinked : node :=
  Dir 493
    [("home", Dir 493 [("proj", Dir 493 [(".cache", Symlink ["srv"; "cache"])])]);
     ("srv", Dir 493 [("cache", Dir 493 [])])].

Definition dotlinked : world := mkWorld fs_dotlinked 18 [] [] [].

Definition quiet : logger := mkLogger false.
Definition chatty : logger := mkLogger true.

End Examples.

Module Stubs.

(** Collaborators for the examples: a client that is ready, a remote that
    accepts every request, no temporary directory to clone into (which ends
    [run] right after the upload), and the first two stages of [run] with a
    fixed outcome. *)
Definition client_ready (w : world) : option error := None.

Definition remote_accepts (earlier : list (string * string)) (endpoint body : string)
    : res gistCreateResponse :=
  Ok (mkResponse "4f2a" "https://gist.github.com/4f2a").

Definition no_temp (dir pattern : string) (w : world) : world * res path :=
  (w, Fail (errors_New "no temporary directory")).

Definition clone_nothing (gistID : string) (dir : path) (w : world)
    : world * (option error * string) :=
  (w, (None, "")).

Definition parsed (opts : options) (args : list string) (w : world) : world * res options :=
  (w, Ok opts).

Definition resolved_to (dir : path) (display : string) (name : string) (w : world)
    : world * res (path * string) :=
  (w, Ok (dir, display)).

End Stubs.

(** ** Notions the statements use *)

(** An entry of a directory that [gatherFiles] collects: a regular file whose
    name does not start with a dot. *)
Definition collectible (e : string * node) : bool :=
  negb (strings_HasPrefix (fst e) ".") &&
  match snd e with File _ _ => true | _ => false end.

Definition is_dir_node (n : node) : bool :=
  match n with Dir _ _ => true | _ => false end.

Definition is_symlink_node (n : node) : bool :=
  match n with Symlink _ => true | _ => false end.

Definition file_data (n : node) : string :=
  match n with File _ data => data | _ => EmptyString end.

Definition payload_of (dir : path) (e : string * node) : filePayload :=
  mkPayload (fst e) (dir ++ [fst e]) (file_data (snd e)).

(** Strictly increasing names, in the order of the bytes. *)
Definition name_lt (a b : string) : Prop := String.ltb a b = true.

Definition sorted_by_name (files : list filePayload) : Prop :=
  StronglySorted (fun a b => name_lt (Name a) (Name b)) files.

(** Neither path is a prefix of the other. *)
Definition incomparable (p q : path) : Prop :=
  is_prefix p q = false /\ is_prefix q p = false.

(** The worlds differ in what was written to standard output only. *)
Definition same_files (w w' : world) : Prop :=
  root w' = root w /\ umask w' = umask w /\ mounts w' = mounts w /\ posted w' = posted w.

(** The worlds differ in the file system only. *)
Definition same_process (w w' : world) : Prop :=
  umask w' = umask w /\ mounts w' = mounts w /\ stdout w' = stdout w /\ posted w' = posted w.

Definition fst_less (a b : string * node) : bool := String.ltb (fst a) (fst b).

(** What [gatherFiles] collects from a directory with the entries [es]. *)
Definition collected (dir : path) (es : list (string * node)) : list filePayload :=
  map (payload_of dir) (List.filter collectible (sort_Slice fst_less es)).

(** The placeholder [gatherFiles] makes in an empty directory. *)
Definition placeholder (dir : path) (displayName : string) : filePayload :=
  mkPayload (displayName +:+ ".md") (dir ++ [displayName +:+ ".md"])
            ("# " +:+ displayName +:+ newline).


Module SortExample.

(** A directory the file system enumerates as [b.txt], [a.txt], and the same
    directory enumerated as [a.txt], [b.txt]. *)
Definition entries_ba : list (string * node) :=
  [("b.txt", File 420 "bee"); ("a.txt", File 420 "ay")].

Definition entries_ab : list (string * node) :=
  [("a.txt", File 420 "ay"); ("b.txt", File 420 "bee")].

Definition world_ba : world := mkWorld (Dir 493 [("proj", Dir 493 entries_ba)]) 18 [] [] [].
Definition world_ab : world := mkWorld (Dir 493 [("proj", Dir 493 entries_ab)]) 18 [] [] [].



End SortExample.

(** A tree of regular files and directories only. *)
#[warnings="-register-all"]
Inductive plain : node -> Prop :=
| plain_File (perm : Z) (data : string) : plain (File perm data)
| plain_Dir (perm : Z) (es : list (string * node)) :
    Forall (fun e => plain (snd e)) es -> plain (Dir perm es).

(** A plain tree in which the names of every directory are pairwise
    distinct. *)
#[warnings="-register-all"]
Inductive pure : node -> Prop :=
| pure_File (perm : Z) (data : string) : pure (File perm data)
| pure_Dir (perm : Z) (es : list (string * node)) :
    NoDup (map fst es) -> Forall (fun e => pure (snd e)) es -> pure (Dir perm es).

Definition opt_plain (o : option node) : Prop :=
  match o with Some n => plain n | None => True end.

(** The number of directory levels of a tree. *)
Fixpoint depth (n : node) : nat :=
  match n with
  | Dir _ es =>
      S ((fix deepest (es : list (string * node)) : nat :=
            match es with
            | [] => O
            | e :: es' => Nat.max (let '(_, c) := e in depth c) (deepest es')
            end) es)
  | _ => O
  end.

(** What a recursive copy makes of a tree of files and directories under the
    umask [um]: the same names and bytes, the permission bits of every entry
    without the bits of the umask, the entries in the order of their names
    (the order in which the copy makes them). *)
Fixpoint copy_image (um : Z) (n : node) : node :=
  match n with
  | File perm data => File (Z.ldiff (FileMode_Perm perm) um) data
  | Dir perm es =>
      Dir (Z.ldiff (FileMode_Perm perm) um)
          (sort_Slice fst_less (map (fun e => let '(k, c) := e in (k, copy_image um c)) es))
  | _ => n
  end.

(** From [w] to [w'] nothing changed but, perhaps, the entry at [dst], which
    is then a tree of regular files and directories. *)
Definition writes_under (dst : path) (w w' : world) : Prop :=
  same_process w w' /\
  (root w' = root w \/ exists d, plain d /\ root w' = put dst (Some d) (root w)).

Module MoveExample.

(** The world after [moveGitMetadata] from the clone to the project directory
    of [Examples.one_device]. *)
Definition clone : path := ["tmp"; "clone"].
Definition target : path := ["home"; "proj"].


(** A clone without a [.git] directory. *)
Definition bare_clone : list (string * node) :=
  [(".gitattributes", File 420 "* text=auto");
   (".gitignore", File 420 "*.log");
   ("notes.md", File 420 "# notes")].

Definition fs_bare : node :=
  Dir 493
    [("home", Dir 493 [("proj", Dir 493 [("notes.md", File 420 "# notes")])]);
     ("tmp", Dir 511 [("clone", Dir 493 bare_clone)])].

Definition bare : world := mkWorld fs_bare 18 [] [] [].

End MoveExample.

(** What the reader gets back for a value the writer printed: every string
    and every key with U+FFFD for the bytes that are not UTF-8. *)
Fixpoint json_coerce (j : json) : json :=
  match j with
  | JString s => JString (utf8_coerce s)
  | JObject ms => JObject (map (fun '(k, v) => (utf8_coerce k, json_coerce v)) ms)
  | _ => j
  end.

(** The fuel [parse_value] needs for the text of a value. *)
Fixpoint parse_fuel (j : json) : nat :=
  match j with
  | JObject ms => S (list_sum (map (fun '(_, v) => S (parse_fuel v)) ms))
  | _ => 1
  end.

(** The request as the remote reads it. *)
Definition request_coerce (req : gistCreateRequest) : gistCreateRequest :=
  mkRequest (utf8_coerce (Description req)) (Public req)
    (fold_left (fun m kv => <[utf8_coerce (fst kv) := mkGistFile (utf8_coerce (gf_Content (snd kv)))]> m)
       (sort_Slice key_less (map_to_list (Files req))) ∅).

(** ** Notions for the request on the wire *)

Definition members_fuel (ms : list (string * json)) : nat :=
  list_sum (map (fun '(_, v) => S (parse_fuel v)) ms).

Definition print_each (ms : list (string * json)) : list (string * string) :=
  map (fun '(k, v) => (appendString k, json_print v)) ms.

Definition coerce_each (ms : list (string * json)) : list (string * json) :=
  map (fun '(k, v) => (utf8_coerce k, json_coerce v)) ms.

(** The member of ["files"] for one entry of the map. *)
Definition file_json (kv : string * gistFile) : string * json :=
  (fst kv, JObject [("content", JString (gf_Content (snd kv)))]).

(** The entry of the map for one payload. *)
Definition payload_entry (f : filePayload) : string * gistFile :=
  (Name f, mkGistFile (Content f)).

(** A payload whose name and content are UTF-8. *)
Definition utf8_payload (f : filePayload) : Prop :=
  utf8_Valid (Name f) = true /\ utf8_Valid (Content f) = true.

(** The request built from the payloads, written by [json.Marshal] and read
    by the remote, has as many files as there are payloads, one under each
    payload's name with the payload's content, and no other. *)
Definition round_trips (files : list filePayload) (opts : options) : Prop :=
  exists req,
    json_Unmarshal (json_Marshal (createGist_request files opts)) = Some req
    /\ size (Files req) = length files
    /\ (forall f, f ∈ files -> Files req !! Name f = Some (mkGistFile (Content f)))
    /\ (forall k g, Files req !! k = Some g ->
          exists f, f ∈ files /\ Name f = k /\ gf_Content g = Content f).

Module RequestExample.

Definition secret : options := mkOptions "" false "" false.

(** Two text files. *)
Definition texts : list filePayload :=
  [mkPayload "a.txt" ["home"; "proj"; "a.txt"] "alpha";
   mkPayload "b.txt" ["home"; "proj"; "b.txt"] ("caf" +:+ String "195" (String "169" ""))].

(** A text file in Latin-1: the last byte, 0xE9, is not UTF-8. *)
Definition latin1 : list filePayload :=
  [mkPayload "menu.txt" ["home"; "proj"; "menu.txt"] ("caf" +:+ String "233" "")].

End RequestExample.

(** ** The rest of [main.go]: the command line *)

(** *** [strings.TrimSpace] in full, from the source of package [strings].

    [strings_TrimSpace] above is the function on ASCII strings.  On other
    strings the function decodes runes and trims what [unicode.IsSpace]
    accepts; a byte that is not UTF-8 decodes to U+FFFD, which is not white
    space. *)

(** [unicode.IsSpace]: the property [White_Space]. *)
Definition unicode_IsSpace (r : Z) : bool :=
  ((9 <=? r) && (r <=? 13)) || (r =? 32) || (r =? 133) || (r =? 160)
  || (r =? 5760) || ((8192 <=? r) && (r <=? 8202)) || (r =? 8232) || (r =? 8233)
  || (r =? 8239) || (r =? 8287) || (r =? 12288).

(** The byte at index [i]; 0 beyond the end. *)
Definition byte_at (i : nat) (s : string) : Z :=
  match String.get i s with
  | Some c => byte_val c
  | None => 0
  end.

(** [utf8.RuneStart]: the byte is not a continuation byte. *)
Definition utf8_RuneStart (b : Z) : bool := negb (Z.land b 192 =? 128).

(** The loop of [utf8.DecodeLastRuneInString] that looks for the start of
    the last rune, at most [utf8.UTFMax] bytes before the end. *)
Fixpoint rune_start_back (k : nat) (start lim : Z) (s : string) : Z :=
  match k with
  | O => start
  | S k' =>
      if start <? lim then start
      else if utf8_RuneStart (byte_at (Z.to_nat start) s) then start
      else rune_start_back k' (start - 1) lim s
  end.

(** [utf8.DecodeLastRuneInString]. *)
Definition utf8_DecodeLastRune (s : string) : Z * nat :=
  let e := Z.of_nat (String.length s) in
  if e =? 0 then (RuneError, 0%nat)
  else
    let r := byte_at (Z.to_nat (e - 1)) s in
    if r <? 128 then (r, 1%nat)
    else
      let lim := Z.max 0 (e - 4) in
      let found := rune_start_back 4 (e - 2) lim s in
      let start := Z.max 0 found in
      let rs := utf8_DecodeRune (str_drop (Z.to_nat start) s) in
      if negb (start + Z.of_nat (snd rs) =? e) then (RuneError, 1%nat) else rs.

(** [strings.TrimLeftFunc(s, unicode.IsSpace)]; [fuel] bounds the runes. *)
Fixpoint TrimLeftFunc_IsSpace (fuel : nat) (s : string) : string :=
  match fuel, s with
  | _, EmptyString => EmptyString
  | O, _ => EmptyString
  | S fuel', _ =>
      let rs := utf8_DecodeRune s in
      if unicode_IsSpace (fst rs) then TrimLeftFunc_IsSpace fuel' (str_drop (snd rs) s) else s
  end.

(** [lastIndexFunc(s, unicode.IsSpace, false)] of package [strings], from
    index [i] down: the index of the last rune that is not white space. *)
Fixpoint lastIndexFunc_not_space (fuel : nat) (i : nat) (s : string) : option nat :=
  match fuel with
  | O => None
  | S fuel' =>
      if (i =? 0)%nat then None
      else
        let rs := utf8_DecodeLastRune (str_take i s) in
        let i' := (i - snd rs)%nat in
        if negb (unicode_IsSpace (fst rs)) then Some i'
        else lastIndexFunc_not_space fuel' i' s
  end.

(** [strings.TrimRightFunc(s, unicode.IsSpace)]. *)
Definition TrimRightFunc_IsSpace (s : string) : string :=
  match lastIndexFunc_not_space (S (String.length s)) (String.length s) s with
  | Some i =>
      if 128 <=? byte_at i s
      then str_take (i + snd (utf8_DecodeRune (str_drop i s))) s
      else str_take (i + 1) s
  | None => EmptyString
  end.

Definition last_byte (s : string) : Z :=
  match String.length s with
  | O => 0
  | S n => byte_at n s
  end.

(** [strings.TrimSpace]: the ASCII white space is trimmed at both ends byte
    by byte; at the first byte that is not ASCII the function goes over to
    [TrimFunc] for what is left. *)
Definition strings_TrimSpace_full (s : string) : string :=
  let s1 := trim_left s in
  match s1 with
  | EmptyString => EmptyString
  | String c _ =>
      if 128 <=? byte_val c
      then TrimRightFunc_IsSpace (TrimLeftFunc_IsSpace (String.length s1) s1)
      else
        let t := trim_right s1 in
        if 128 <=? last_byte t then TrimRightFunc_IsSpace t else t
  end.

(** *** Package [flag], from its source: [FlagSet.Parse] for the flag set of
    [parseArgs], which has the boolean flags [public] and [verbose] and the
    string flags [description] and [d], both bound to one [stringFlag]. *)

Definition usageText : string :=
"Usage: gh gist-new [name] [flags]

Create a new gist from all regular, non-dotfiles inside [name]. When [name] is '.',
the current directory is used. The directory must not contain subdirectories or
directory symlinks.

Flags:
  --public          Create the gist as public (defaults to secret)
  -d, --description Description to attach to the gist (must not be empty)
  --verbose         Show detailed per-file logs and timing information
  -h, --help        Show this message
".

Definition errHelpRequested : error := errors_New "help requested".

(** [flag.ErrHelp]. *)
Definition flag_ErrHelp : error := errors_New "flag: help requested".

Record stringFlag := mkStringFlag { sf_value : string; sf_set : bool }.

(** The method [Set] of [stringFlag]. *)
Definition stringFlag_Set (s : stringFlag) (v : string) : stringFlag := mkStringFlag v true.

(** The variables the flags are bound to. *)
Record flagVars := mkFlagVars {
  fv_public : bool;
  fv_verbose : bool;
  fv_desc : stringFlag
}.

(** [strconv.ParseBool]. *)
Definition strconv_ParseBool (s : string) : option bool :=
  if existsb (String.eqb s) ["1"; "t"; "T"; "TRUE"; "true"; "True"] then Some true
  else if existsb (String.eqb s) ["0"; "f"; "F"; "FALSE"; "false"; "False"] then Some false
  else None.

(** The name of a flag and its value, when the argument has the form
    [name=value]; the first byte of the name is not looked at. *)
Fixpoint split_equals (s : string) : string * option string :=
  match s with
  | EmptyString => (EmptyString, None)
  | String c s' =>
      if Ascii.eqb c "=" then (EmptyString, Some s')
      else let (n, v) := split_equals s' in (String c n, v)
  end.

Definition flag_name_value (name : string) : string * option string :=
  match name with
  | EmptyString => (EmptyString, None)
  | String c rest => let (n, v) := split_equals rest in (String c n, v)
  end.

(** How [FlagSet.Parse] ends: with the arguments that are left, or with an
    error, after [failf] or the help case have called [Usage]. *)
Inductive parsed :=
| Parsed (vars : flagVars) (remaining : list string)
| ParseError (err : error).

(** The error of [failf]. *)
Definition failf (format : string) (args : list fmtArg) : parsed :=
  ParseError (fmt_Errorf format args).

(** [FlagSet.Parse]: [parseOne] until an argument is not a flag. *)
Fixpoint flag_Parse (vars : flagVars) (args : list string) : parsed :=
  match args with
  | [] => Parsed vars []
  | s :: rest =>
      match s with
      | String c0 (String c1 after) =>
          if negb (Ascii.eqb c0 "-") then Parsed vars args
          else if Ascii.eqb c1 "-" && String.eqb after "" then Parsed vars rest
          else
            let name := if Ascii.eqb c1 "-" then after else String c1 after in
            match name with
            | EmptyString => failf "bad flag syntax: %s" [AStr s]
            | String n0 _ =>
                if Ascii.eqb n0 "-" || Ascii.eqb n0 "=" then failf "bad flag syntax: %s" [AStr s]
                else
                  let (name, value) := flag_name_value name in
                  if String.eqb name "public" || String.eqb name "verbose" then
                    let set (b : bool) :=
                      if String.eqb name "public"
                      then mkFlagVars b (fv_verbose vars) (fv_desc vars)
                      else mkFlagVars (fv_public vars) b (fv_desc vars) in
                    match value with
                    | Some v =>
                        match strconv_ParseBool v with
                        | Some b => flag_Parse (set b) rest
                        | None =>
                            ParseError (fmt_Errorf_v "invalid boolean value %q for -%s: %v"
                                          [AStr v; AStr name] (errors_New "parse error"))
                        end
                    | None => flag_Parse (set true) rest
                    end
                  else if String.eqb name "description" || String.eqb name "d" then
                    let set (v : string) :=
                      mkFlagVars (fv_public vars) (fv_verbose vars)
                        (stringFlag_Set (fv_desc vars) v) in
                    match value with
                    | Some v => flag_Parse (set v) rest
                    | None =>
                        match rest with
                        | v :: rest' => flag_Parse (set v) rest'
                        | [] => failf "flag needs an argument: -%s" [AStr name]
                        end
                    end
                  else if String.eqb name "help" || String.eqb name "h" then
                    ParseError flag_ErrHelp
                  else failf "flag provided but not defined: -%s" [AStr name]
            end
      | _ => Parsed vars args
      end
  end.

(** [errors.Is(err, flag.ErrHelp)] and [errors.Is(err, errHelpRequested)]:
    the error or one it wraps is that value.  Each is the one error made by
    [errors.New] with its text. *)
Fixpoint errors_Is_New (err : error) (text : string) : bool :=
  match err with
  | errors_New t => String.eqb t text
  | fmt_Errorf_w _ _ e => errors_Is_New e text
  | _ => false
  end.

(** *** [parseArgs]: the options, and what is written to standard error
    (the usage text, once for each call of [fs.Usage]). *)
Definition parseArgs (args : list string) : list string * res options :=
  match flag_Parse (mkFlagVars false false (mkStringFlag "" false)) args with
  | ParseError err =>
      if errors_Is_New err "flag: help requested"
      then ([usageText; usageText], Fail errHelpRequested)
      else ([usageText; usageText], Fail (fmt_Errorf_w "failed to parse flags: %w" [] err))
  | Parsed vars remaining =>
      match remaining with
      | [] => ([usageText], Fail (errors_New "missing required [name] argument"))
      | [r] =>
          let name := strings_TrimSpace_full r in
          match validateName name with
          | Some err => ([usageText], Fail err)
          | None =>
              if sf_set (fv_desc vars) then
                let description := strings_TrimSpace_full (sf_value (fv_desc vars)) in
                if String.eqb description "" then
                  ([], Fail (errors_New "description cannot be empty when provided"))
                else ([], Ok (mkOptions name (fv_public vars) description (fv_verbose vars)))
              else ([], Ok (mkOptions name (fv_public vars) "" (fv_verbose vars)))
          end
      | _ => ([usageText], Fail (errors_New "only one [name] argument is supported"))
      end
  end.

(** ** The rest of [main.go]: the target directory *)

(** *** Package [filepath] on Unix, for absolute paths. *)

(** The elements of a path between its separators. *)
Fixpoint split_slash (s : string) : list string :=
  match s with
  | EmptyString => [EmptyString]
  | String c s' =>
      if Ascii.eqb c "/" then EmptyString :: split_slash s'
      else match split_slash s' with
           | e :: es => String c e :: es
           | [] => [String c EmptyString]
           end
  end.

(** [filepath.Clean] going over the elements after a clean absolute path:
    an empty element and [.] stay where they are, [..] goes up, and up from
    the root is the root. *)
Definition clean_step (p : path) (e : string) : path :=
  if String.eqb e "" || String.eqb e "." then p
  else if String.eqb e ".." then removelast p
  else p ++ [e].

(** [filepath.Join(dir, name)] for a clean absolute [dir]: the elements are
    joined with a separator and the result is cleaned. *)
Definition filepath_Join (dir : path) (name : string) : path :=
  fold_left clean_step (split_slash name) dir.

(** [filepath.Abs] of a clean absolute path: the path, and no error. *)
Definition filepath_Abs (p : path) : res path := Ok p.

(** *** More of package [os]. *)

(** [prefixAndSuffix] of package [os]: the pattern is split at its last
    [*]; a path separator in it is an error. *)
Fixpoint split_last_star (s : string) : option (string * string) :=
  match s with
  | EmptyString => None
  | String c s' =>
      match split_last_star s' with
      | Some (p, q) => Some (String c p, q)
      | None => if Ascii.eqb c "*" then Some (EmptyString, s') else None
      end
  end.

Definition prefixAndSuffix (pattern : string) : res (string * string) :=
  if strings_ContainsAny pattern "/"
  then Fail (fmt_Errorf "pattern contains path separator" [])
  else match split_last_star pattern with
       | Some ps => Ok ps
       | None => Ok (pattern, EmptyString)
       end.

(** [os.OpenFile(p, O_RDWR|O_CREATE|O_EXCL, mode)]: the file is made, and
    the call fails when the name exists, be it a dangling link. *)
Definition open_excl (p : path) (mode : Z) (w : world) : world * res path :=
  match namei false (root w) p with
  | Found _ _ => (w, Fail (PathError "open" p EEXIST))
  | Missing parent name =>
      let c := parent ++ [name] in
      (with_root w (put c (Some (File (create_perm w mode) "")) (root w)), Ok c)
  | Failed e => (w, Fail (PathError "open" p e))
  end.

(** The loop of [os.CreateTemp]: the names tried are [prefix], a random
    number and [suffix]; [random] gives the numbers in the order they are
    drawn, as strings.  After 10000 names that exist the call gives up. *)
Fixpoint CreateTemp_loop (tries : nat) (try : nat) (random : nat -> string)
    (dir : path) (prefix suffix : string) (w : world) : world * res (path * path) :=
  let name := dir ++ [prefix +:+ random try +:+ suffix] in
  match open_excl name 384 (* 0o600 *) w with
  | (w1, Ok c) => (w1, Ok (name, c))
  | (w1, Fail err) =>
      if (match errno_of err with Some EEXIST => true | _ => false end) then
        match tries with
        | S tries' => CreateTemp_loop tries' (S try) random dir prefix suffix w1
        | O => (w1, Fail (PathError "createtemp" (dir ++ [prefix +:+ "*" +:+ suffix]) EEXIST))
        end
      else (w1, Fail err)
  end.

(** [os.CreateTemp(dir, pattern)] for a directory that is named: the name
    of the new file, and its link-free path. *)
(** The names [os.CreateTemp] tries after the first. *)
#[warnings="-abstract-large-number"]
Definition CreateTemp_retries : nat := 9999.

Definition os_CreateTemp (random : nat -> string) (dir : path) (pattern : string) (w : world)
    : world * res (path * path) :=
  match prefixAndSuffix pattern with
  | Fail err => (w, Fail (fmt_Errorf_w "createtemp %s: %w" [AStr pattern] err))
  | Ok (prefix, suffix) => CreateTemp_loop CreateTemp_retries 0 random dir prefix suffix w
  end.

(** [os.Remove]: a file, a link or an empty directory is removed.  For a
    directory that is not empty the system call reports ENOTEMPTY, for which
    POSIX allows EEXIST; that is what the model has. *)
Definition os_Remove (p : path) (w : world) : world * option error :=
  match namei false (root w) p with
  | Found c n =>
      if path_eqb c [] || is_mount_point (mounts w) c
      then (w, Some (PathError "remove" p EBUSY))
      else match n with
           | Dir _ (_ :: _) => (w, Some (PathError "remove" p EEXIST))
           | _ => (with_root w (put c None (root w)), None)
           end
  | Missing _ _ => (w, Some (PathError "remove" p ENOENT))
  | Failed e => (w, Some (PathError "remove" p e))
  end.

(** *** [ensureDirectoryExists], [ensureWritable], [ensureNotGitRepo] *)

Definition ensureDirectoryExists (p : path) (w : world) : world * option error :=
  match os_Stat p w with
  | Fail err =>
      if errors_Is_ErrNotExist err then
        match os_MkdirAll p 493 (* 0o755 *) w with
        | (w1, Some err1) => (w1, Some (fmt_Errorf_w "create directory %s: %w" [APath p] err1))
        | (w1, None) => (w1, None)
        end
      else (w, Some (fmt_Errorf_w "inspect directory %s: %w" [APath p] err))
  | Ok info =>
      if negb (FileInfo_IsDir info)
      then (w, Some (fmt_Errorf "%s exists but is not a directory" [APath p]))
      else (w, None)
  end.

Definition ensureWritable (random : nat -> string) (dir : path) (w : world)
    : world * option error :=
  match os_CreateTemp random dir ".gh-gist-new-*" w with
  | (w1, Fail err) =>
      (w1, Some (fmt_Errorf_w "directory %s must be writable: %w" [APath dir] err))
  | (w1, Ok (probePath, _)) => (fst (os_Remove probePath w1), None)
  end.

Definition ensureNotGitRepo (dir : path) (w : world) : option error :=
  let gitPath := dir ++ [".git"] in
  match os_Stat gitPath w with
  | Ok _ =>
      Some (fmt_Errorf "%s already contains git metadata; pick a clean folder" [APath dir])
  | Fail err =>
      if negb (errors_Is_ErrNotExist err)
      then Some (fmt_Errorf_w "check git metadata in %s: %w" [APath dir] err)
      else None
  end.

(** *** [resolveTargetDirectory].  [getwd] is what [os.Getwd] returns, a
    clean absolute path, and [random] the numbers [os.CreateTemp] draws. *)
Definition resolveTargetDirectory (getwd : res path) (random : nat -> string)
    (name : string) (w : world) : world * res (path * string) :=
  match getwd with
  | Fail err => (w, Fail (fmt_Errorf_w "determine working directory: %w" [] err))
  | Ok cwd =>
      let checks (abs : path) (display : string) (w : world) :=
        match ensureWritable random abs w with
        | (w1, Some err) => (w1, Fail err)
        | (w1, None) =>
            match ensureNotGitRepo abs w1 with
            | Some err => (w1, Fail err)
            | None => (w1, Ok (abs, display))
            end
        end in
      if String.eqb name "." then
        match filepath_Abs cwd with
        | Fail err => (w, Fail (fmt_Errorf_w "resolve current directory: %w" [] err))
        | Ok abs =>
            let display := base abs in
            let display :=
              if String.eqb display "." || String.eqb display "/" || String.eqb display ""
              then "gist" else display in
            checks abs display w
        end
      else
        let target := filepath_Join cwd name in
        match ensureDirectoryExists target w with
        | (w1, Some err) => (w1, Fail err)
        | (w1, None) =>
            match filepath_Abs target with
            | Fail err => (w1, Fail (fmt_Errorf_w "resolve directory path: %w" [] err))
            | Ok abs => checks abs name w1
            end
        end
  end.

(** ** The rest of [main.go]: [main] *)

Section Program.

(** What stays outside: the working directory and the random numbers of the
    process, the GitHub client with the remote's answers, the temporary
    directory and the [gh gist clone] subprocess. *)
Variable getwd : res path.
Variable random : nat -> string.
Variable DefaultRESTClient : world -> option error.
Variable remote : list (string * string) -> string -> string -> res gistCreateResponse.
Variable os_MkdirTemp : string -> string -> world -> world * res path.
Variable gh_gist_clone : string -> path -> world -> world * (option error * string).

(** [run] with [parseArgs] and [resolveTargetDirectory] as the program has
    them.  The world keeps no standard error, so what [parseArgs] writes
    there is left to [main]. *)
Definition run_program (fuel : nat) (args : list string) (w : world)
    : option (world * option error) :=
  run DefaultRESTClient remote os_MkdirTemp gh_gist_clone
      (fun args w => (w, snd (parseArgs args)))
      (resolveTargetDirectory getwd random)
      fuel args w.

(** What is written to standard error. *)
Inductive written :=
| Text (s : string)
| ErrorLine (err : error). (* "Error: %v\n" *)

(** [main]: the world it leaves, what it wrote to standard error, and the
    exit status of the process. *)
Definition main (fuel : nat) (args : list string) (w : world)
    : option (world * list written * Z) :=
  let usage := map Text (fst (parseArgs args)) in
  match run_program fuel args w with
  | None => None
  | Some (w', None) => Some (w', usage, 0)
  | Some (w', Some err) =>
      if errors_Is_New err "help requested" then Some (w', usage, 0)
      else Some (w', usage ++ [ErrorLine err], 1)
  end.

End Program.

(** ** Notions for the target directory *)

(** Every mount point is a path of the tree. *)
Definition mounts_exist (w : world) : Prop :=
  Forall (fun m => get m (root w) <> None) (mounts w).

(** The names [ensureWritable] may give its probe. *)
Definition probe_name (random : nat -> string) (k : nat) : string :=
  ".gh-gist-new-" +:+ random k +:+ "".

(** One of the 10000 names [os.CreateTemp] tries is free. *)
Definition probe_free (random : nat -> string) (es : list (string * node)) : Prop :=
  exists k, (k <= CreateTemp_retries)%nat /\ assoc (probe_name random k) es = None.

(** An argument that is the flag [public], with one dash or two. *)
Definition public_flag (a : string) : Prop :=
  strings_HasPrefix a "-public" = true \/ strings_HasPrefix a "--public" = true.

Module TargetExample.

(** Random numbers for the probe of [ensureWritable], and a remote that
    turns every request down. *)
Definition rand (k : nat) : string := "4211".

Definition api_down (earlier : list (string * string)) (endpoint body : string)
    : res gistCreateResponse :=
  Fail (errors_New "HTTP 401: Bad credentials").

(** A project directory with a file that is not the one of the clone. *)
Definition fs_stale : node :=
  Dir 493
    [("home", Dir 493 [("proj", Dir 493 [("notes.md", File 384 "draft")])]);
     ("tmp", Dir 511 [("clone", Examples.clone_tree)])].

Definition stale : world := mkWorld fs_stale 18 [] [] [].

(** A client that cannot be made. *)
Definition client_missing (w : world) : option error :=
  Some (errors_New "gh auth token not found").

(** A temporary directory made under [/tmp], and a clone that fails after
    it has written a part of the gist. *)
Definition temp_in_tmp (dir pattern : string) (w : world) : world * res path :=
  (with_root w (put (["tmp"] ++ ["gh-gist-new-77"]) (Some (Dir 448 [])) (root w)),
   Ok (["tmp"] ++ ["gh-gist-new-77"])).

Definition leaves_partial_clone (gistID : string) (dir : path) (w : world)
    : world * (option error * string) :=
  (with_root w (put dir (Some (Dir 493 [("README.md", File 420 "half")])) (root w)),
   (Some (errors_New "exit status 1"), "fatal: early EOF")).

End TargetExample.

(** Every byte of the string is ASCII. *)
Fixpoint all_ascii (s : string) : bool :=
  match s with
  | EmptyString => true
  | String c s' => (byte_val c <? 128) && all_ascii s'
  end.

Module CloneExample.

(** A [gh gist clone] that succeeds: the clone has the repository and the
    file of the gist. *)
Definition cloned : list (string * node) :=
  [(".git", Dir 493 [("HEAD", File 420 "ref: refs/heads/main")]);
   ("notes.md", File 420 "# notes")].

Definition clones_gist (gistID : string) (dir : path) (w : world)
    : world * (option error * string) :=
  (with_root w (put dir (Some (Dir 493 cloned)) (root w)), (None, "Cloning into 'clone'...")).

End CloneExample.

(** * Properties *)

(** ** PathValidator *)

Lemma byte_in_separators (c : ascii) :
  byte_in c "/\" = true <-> c = "/"%char \/ c = "\"%char.
Proof.
  simpl. destruct (Ascii.eqb_spec c "/") as [->|H1]; [tauto|].
  destruct (Ascii.eqb_spec c "\") as [->|H2]; [tauto|].
  split; [discriminate | tauto].
Qed.

Lemma ContainsAny_separator (s : string) :
  strings_ContainsAny s "/\" = true <-> has_separator s.
Proof.
  induction s as [|c s IH].
  - split; [discriminate|]. intros (a & b & d & H & _).
    destruct a; discriminate H.
  - cbn [strings_ContainsAny]. destruct (byte_in c "/\") eqn:Hc.
    + split; [|reflexivity]. intros _.
      exists EmptyString, s, c. split; [reflexivity|]. by apply byte_in_separators.
    + rewrite IH. split.
      * intros (a & b & d & -> & Hd). exists (String c a), b, d. by split.
      * intros (a & b & d & H & Hd). destruct a as [|c' a]; simpl in H.
        -- injection H as -> ->. apply byte_in_separators in Hd. congruence.
        -- injection H as -> ->. by exists a, b, d.
Qed.

Lemma HasPrefix_empty (s : string) : strings_HasPrefix s "" = true.
Proof. by destruct s. Qed.

Lemma HasPrefix_dash (s : string) :
  strings_HasPrefix s "-" = true <-> starts_with_dash s.
Proof.
  unfold starts_with_dash. destruct s as [|c s]; cbn [strings_HasPrefix].
  - split; [discriminate | intros [? ?]; discriminate].
  - rewrite HasPrefix_empty, andb_true_r. destruct (Ascii.eqb_spec "-" c) as [<-|Hc].
    + split; [by exists s | reflexivity].
    + split; [discriminate | intros [r H]; congruence].
Qed.

(** C9.  [validateName] rejects exactly the names that are empty, equal to
    [..], contain ['/'] or ['\'], or start with ['-']; it accepts [.] and
    every other name.  It is a function of the name alone: it takes no world
    and returns none, so it reads and changes nothing. *)
Theorem validateName_rejects_exactly :
  (forall name : string,
      validateName name <> None <->
      (name = "" \/ name = ".." \/ has_separator name \/ starts_with_dash name))
  /\ validateName "." = None.
Proof.
  split; [|reflexivity].
  intros name. unfold validateName.
  destruct (String.eqb_spec name "") as [->|Hempty]; [split; [tauto | discriminate]|].
  destruct (String.eqb_spec name ".") as [->|Hdot].
  { split; [congruence|]. intros [H|[H|[H|H]]]; try discriminate H.
    - apply ContainsAny_separator in H. discriminate H.
    - apply HasPrefix_dash in H. discriminate H. }
  destruct (String.eqb_spec name "..") as [->|Hdotdot]; [split; [tauto | discriminate]|].
  destruct (strings_ContainsAny name "/\") eqn:Hsep.
  { apply ContainsAny_separator in Hsep. split; [tauto | discriminate]. }
  destruct (strings_HasPrefix name "-") eqn:Hdash.
  { apply HasPrefix_dash in Hdash. split; [tauto | discriminate]. }
  split; [congruence|]. intros [H|[H|[H|H]]]; try contradiction.
  - apply ContainsAny_separator in H. congruence.
  - apply HasPrefix_dash in H. congruence.
Qed.

(** ** The order on names, and sorting *)

Lemma ltb_lts (a b : string) : String.ltb a b = true <-> String_as_OT.lt a b.
Proof.
  unfold String.ltb. rewrite <- String_as_OT.cmp_lt. unfold String_as_OT.cmp.
  destruct (String.compare a b); split; congruence.
Qed.

Lemma name_lt_trans (a b c : string) : name_lt a b -> name_lt b c -> name_lt a c.
Proof. unfold name_lt. rewrite !ltb_lts. apply String_as_OT.lt_trans. Qed.

Lemma name_lt_irrefl (a : string) : ~ name_lt a a.
Proof.
  unfold name_lt. rewrite ltb_lts. intros H.
  by apply String_as_OT.lt_not_eq in H.
Qed.

Lemma name_lt_total (a b : string) : a <> b -> name_lt a b \/ name_lt b a.
Proof.
  intros Hne. unfold name_lt, String.ltb.
  rewrite (String.compare_antisym b a).
  destruct (String.compare a b) eqn:Hc; simpl; auto.
  apply String.compare_eq_iff in Hc. contradiction.
Qed.

Lemma name_lt_asym (a b : string) : name_lt a b -> ~ name_lt b a.
Proof. intros H1 H2. exact (name_lt_irrefl a (name_lt_trans _ _ _ H1 H2)). Qed.

Section SortFacts.
Context {A : Type} (key : A -> string).

Let less (a b : A) : bool := String.ltb (key a) (key b).
Let lt_key (a b : A) : Prop := name_lt (key a) (key b).

Lemma sort_insert_perm (x : A) (l : list A) : Permutation (sort_insert less x l) (x :: l).
Proof.
  induction l as [|y l IH]; simpl; [reflexivity|].
  destruct (less x y); [reflexivity|].
  rewrite IH. apply perm_swap.
Qed.

Lemma sort_Slice_perm (l : list A) : Permutation (sort_Slice less l) l.
Proof.
  induction l as [|x l IH]; simpl; [reflexivity|].
  rewrite sort_insert_perm. by constructor.
Qed.

Lemma sort_insert_sorted (x : A) (l : list A) :
  key x ∉ map key l ->
  StronglySorted lt_key l -> StronglySorted lt_key (sort_insert less x l).
Proof.
  induction l as [|y l IH]; simpl; intros Hnin Hs.
  - constructor; constructor.
  - apply StronglySorted_inv in Hs as [Hs Hy].
    apply not_elem_of_cons in Hnin as [Hne Hnin].
    destruct (less x y) eqn:Hxy.
    + constructor; [by constructor|].
      constructor; [exact Hxy|].
      eapply Forall_impl; [exact Hy|].
      intros z Hz. eapply name_lt_trans; [exact Hxy | exact Hz].
    + constructor; [by apply IH|].
      apply (Permutation_Forall (Permutation_sym (sort_insert_perm x l))).
      constructor; [|exact Hy].
      destruct (name_lt_total (key x) (key y)) as [H|H]; [done | | exact H].
      unfold name_lt in H. unfold less in Hxy. congruence.
Qed.

Lemma sort_Slice_sorted (l : list A) :
  NoDup (map key l) -> StronglySorted lt_key (sort_Slice less l).
Proof.
  induction l as [|x l IH]; simpl; intros Hnd; [constructor|].
  apply NoDup_cons in Hnd as [Hx Hnd].
  apply sort_insert_sorted; [|by apply IH].
  intros Hin. apply Hx. apply list_elem_of_In. apply list_elem_of_In in Hin.
  eapply Permutation_in; [|exact Hin]. apply Permutation_map, sort_Slice_perm.
Qed.

(** Two lists in strictly increasing order with the same elements are the
    same list: the result of sorting does not depend on the algorithm, nor on
    the order of the input. *)
Lemma sorted_perm_unique (l1 l2 : list A) :
  StronglySorted lt_key l1 -> StronglySorted lt_key l2 -> Permutation l1 l2 -> l1 = l2.
Proof.
  revert l2. induction l1 as [|x l1 IH]; intros l2 H1 H2 Hp.
  - by apply Permutation_nil in Hp.
  - destruct l2 as [|y l2]; [by apply Permutation_sym, Permutation_nil in Hp|].
    apply StronglySorted_inv in H1 as [H1 Hx].
    apply StronglySorted_inv in H2 as [H2 Hy].
    assert (x = y) as <-.
    { assert (x ∈ y :: l2) as Hxy by (rewrite <- Hp; by left).
      assert (y ∈ x :: l1) as Hyx by (rewrite Hp; by left).
      apply elem_of_cons in Hxy as [Hxy|Hxy]; [done|].
      apply elem_of_cons in Hyx as [Hyx|Hyx]; [done|].
      rewrite Forall_forall in Hx, Hy.
      destruct (name_lt_asym _ _ (Hx _ Hyx) (Hy _ Hxy)). }
    f_equal. apply IH; [done | done |]. by apply Permutation_cons_inv in Hp.
Qed.

Lemma sort_Slice_perm_eq (l1 l2 : list A) :
  NoDup (map key l1) -> Permutation l1 l2 -> sort_Slice less l1 = sort_Slice less l2.
Proof.
  intros Hnd Hp. apply sorted_perm_unique.
  - by apply sort_Slice_sorted.
  - apply sort_Slice_sorted. by rewrite <- Hp.
  - rewrite !sort_Slice_perm. exact Hp.
Qed.

Lemma sort_Slice_of_sorted (l : list A) :
  StronglySorted lt_key l -> sort_Slice less l = l.
Proof.
  induction l as [|x l IH]; intros Hs; [reflexivity|].
  apply StronglySorted_inv in Hs as [Hs Hx]. simpl. rewrite (IH Hs).
  destruct l as [|y l]; [reflexivity|]. simpl.
  apply Forall_inv in Hx. unfold lt_key, name_lt in Hx. unfold less. by rewrite Hx.
Qed.

Lemma sorted_NoDup (l : list A) : StronglySorted lt_key l -> NoDup (map key l).
Proof.
  induction l as [|x l IH]; intros Hs; [constructor|].
  apply StronglySorted_inv in Hs as [Hs Hx]. simpl. constructor; [|by apply IH].
  rewrite list_elem_of_In, in_map_iff. intros (y & Hy & Hin).
  apply list_elem_of_In in Hin. rewrite Forall_forall in Hx.
  specialize (Hx y Hin). unfold lt_key in Hx. rewrite Hy in Hx.
  exact (name_lt_irrefl _ Hx).
Qed.

End SortFacts.

(** ** Directories as association lists *)

Lemma assoc_set_eq (k : string) (v : node) (es : list (string * node)) :
  assoc k (set_assoc k v es) = Some v.
Proof.
  induction es as [|[k' v'] es IH]; simpl.
  - by rewrite String.eqb_refl.
  - destruct (String.eqb_spec k' k) as [->|Hne]; simpl.
    + by rewrite String.eqb_refl.
    + destruct (String.eqb_spec k' k); [contradiction | exact IH].
Qed.

Lemma assoc_set_ne (k k' : string) (v : node) (es : list (string * node)) :
  k <> k' -> assoc k' (set_assoc k v es) = assoc k' es.
Proof.
  intros Hne. induction es as [|[k0 v0] es IH]; simpl.
  - destruct (String.eqb_spec k k'); [contradiction | reflexivity].
  - destruct (String.eqb_spec k0 k) as [->|H0]; simpl.
    + destruct (String.eqb_spec k k'); [contradiction | reflexivity].
    + destruct (String.eqb_spec k0 k'); [reflexivity | exact IH].
Qed.

Lemma assoc_remove_eq (k : string) (es : list (string * node)) :
  assoc k (remove_assoc k es) = None.
Proof.
  induction es as [|[k' v'] es IH]; simpl; [reflexivity|].
  destruct (String.eqb_spec k' k) as [->|Hne]; [exact IH|]. simpl.
  destruct (String.eqb_spec k' k); [contradiction | exact IH].
Qed.

Lemma assoc_remove_ne (k k' : string) (es : list (string * node)) :
  k <> k' -> assoc k' (remove_assoc k es) = assoc k' es.
Proof.
  intros Hne. induction es as [|[k0 v0] es IH]; simpl; [reflexivity|].
  destruct (String.eqb_spec k0 k) as [->|H0]; simpl.
  - destruct (String.eqb_spec k k'); [contradiction | exact IH].
  - destruct (String.eqb_spec k0 k'); [reflexivity | exact IH].
Qed.

Lemma assoc_None (k : string) (es : list (string * node)) :
  assoc k es = None <-> k ∉ map fst es.
Proof.
  induction es as [|[k' v'] es IH]; simpl.
  - split; [intros _; apply not_elem_of_nil | reflexivity].
  - rewrite not_elem_of_cons. destruct (String.eqb_spec k' k) as [->|Hne].
    + split; [discriminate | intros [H _]; contradiction].
    + rewrite IH. split; [intros H; split; [congruence | exact H] | tauto].
Qed.

Lemma assoc_elem_of (k : string) (v : node) (es : list (string * node)) :
  NoDup (map fst es) -> (k, v) ∈ es -> assoc k es = Some v.
Proof.
  induction es as [|[k' v'] es IH]; simpl; intros Hnd Hin.
  - by apply elem_of_nil in Hin.
  - apply NoDup_cons in Hnd as [Hk Hnd]. apply elem_of_cons in Hin as [Heq|Hin].
    + injection Heq as -> ->. by rewrite String.eqb_refl.
    + destruct (String.eqb_spec k' k) as [->|Hne]; [|by apply IH].
      exfalso. apply Hk. apply list_elem_of_In, in_map_iff.
      exists (k, v). split; [reflexivity | by apply list_elem_of_In].
Qed.

Lemma set_assoc_twice (k : string) (v1 v2 : node) (es : list (string * node)) :
  set_assoc k v2 (set_assoc k v1 es) = set_assoc k v2 es.
Proof.
  induction es as [|[k' v'] es IH]; simpl.
  - by rewrite String.eqb_refl.
  - destruct (String.eqb_spec k' k) as [->|Hne]; simpl.
    + by rewrite String.eqb_refl.
    + destruct (String.eqb_spec k' k); [contradiction | by rewrite IH].
Qed.

Lemma remove_set_assoc (k : string) (v : node) (es : list (string * node)) :
  remove_assoc k (set_assoc k v es) = remove_assoc k es.
Proof.
  induction es as [|[k' v'] es IH]; simpl.
  - by rewrite String.eqb_refl.
  - destruct (String.eqb_spec k' k) as [->|Hne]; simpl.
    + by rewrite String.eqb_refl.
    + destruct (String.eqb_spec k' k); [contradiction | by rewrite IH].
Qed.

Lemma set_assoc_fresh (k : string) (v : node) (es : list (string * node)) :
  assoc k es = None -> set_assoc k v es = es ++ [(k, v)].
Proof.
  induction es as [|[k' v'] es IH]; simpl; [reflexivity|].
  destruct (String.eqb_spec k' k); [discriminate|]. intros H. by rewrite IH.
Qed.

(** ** Reading and updating the tree *)

Lemma is_prefix_refl (p : path) : is_prefix p p = true.
Proof. induction p as [|a p IH]; simpl; [reflexivity|]. by rewrite String.eqb_refl. Qed.

Lemma is_prefix_app (p q : path) : is_prefix p (p ++ q) = true.
Proof. induction p as [|a p IH]; simpl; [reflexivity|]. by rewrite String.eqb_refl. Qed.

Lemma is_prefix_spec (p q : path) : is_prefix p q = true <-> exists r, q = p ++ r.
Proof.
  revert q. induction p as [|a p IH]; intros q; simpl.
  - split; [by exists q | reflexivity].
  - destruct q as [|b q].
    + split; [discriminate | intros [r H]; discriminate].
    + rewrite andb_true_iff, IH. destruct (String.eqb_spec a b) as [->|Hne].
      * split; [intros [_ [r ->]]; by exists r | intros [r H]; injection H as ->; eauto].
      * split; [intros [H _]; discriminate | intros [r H]; congruence].
Qed.

Lemma path_eqb_spec (p q : path) : reflect (p = q) (path_eqb p q).
Proof.
  revert q. induction p as [|a p IH]; intros [|b q]; simpl; try (constructor; congruence).
  destruct (String.eqb_spec a b) as [->|Hne]; simpl; [|constructor; congruence].
  destruct (IH q); constructor; congruence.
Qed.

Lemma incomparable_sym (p q : path) : incomparable p q -> incomparable q p.
Proof. intros [H1 H2]. by split. Qed.

Lemma incomparable_app (p q r s : path) : incomparable p q -> incomparable (p ++ r) (q ++ s).
Proof.
  revert q. induction p as [|a p IH]; intros q [H1 H2]; [discriminate H1|].
  destruct q as [|b q]; [discriminate H2|]. simpl in *.
  destruct (String.eqb_spec a b) as [->|Hne]; simpl in *.
  - rewrite String.eqb_refl in *. simpl in *.
    destruct (IH q) as [H3 H4]; [by split|].
    unfold incomparable. simpl. by rewrite String.eqb_refl.
  - destruct (String.eqb_spec b a); [congruence|].
    unfold incomparable. simpl.
    destruct (String.eqb_spec a b); [congruence|].
    destruct (String.eqb_spec b a); [congruence | by split].
Qed.

Lemma incomparable_siblings (p : path) (a b : string) :
  a <> b -> incomparable (p ++ [a]) (p ++ [b]).
Proof.
  intros Hne. induction p as [|c p IH]; simpl.
  - split; simpl; [destruct (String.eqb_spec a b) | destruct (String.eqb_spec b a)];
      simpl; congruence.
  - destruct IH as [H1 H2]. split; simpl; by rewrite String.eqb_refl.
Qed.

Lemma get_app (p q : path) (n : node) :
  get (p ++ q) n = match get p n with Some m => get q m | None => None end.
Proof.
  revert n. induction p as [|a p IH]; intros n; simpl; [reflexivity|].
  destruct n as [| perm es | |]; try reflexivity.
  destruct (assoc a es); [apply IH | reflexivity].
Qed.

Lemma put_cons (a : string) (rest : path) (v : option node) (perm : Z)
    (es : list (string * node)) :
  rest <> [] ->
  put (a :: rest) v (Dir perm es) =
    match assoc a es with
    | Some c => Dir perm (set_assoc a (put rest v c) es)
    | None => Dir perm es
    end.
Proof. destruct rest; [congruence | reflexivity]. Qed.

Lemma put_not_dir (p : path) (v : option node) (n : node) :
  is_dir_node n = false -> put p v n = n.
Proof. destruct p, n; simpl; congruence. Qed.

Lemma get_put_eq (pd : path) (name : string) (v : option node) (n : node) (perm : Z)
    (es : list (string * node)) :
  get pd n = Some (Dir perm es) ->
  get (pd ++ [name]) (put (pd ++ [name]) v n) = v.
Proof.
  revert n. induction pd as [|a pd IH]; intros n Hget; simpl in Hget.
  - injection Hget as ->. simpl. destruct v as [c|].
    + by rewrite assoc_set_eq.
    + by rewrite assoc_remove_eq.
  - destruct n as [| p0 es0 | |]; try discriminate.
    destruct (assoc a es0) as [ch|] eqn:Ha; [|discriminate].
    change ((a :: pd) ++ [name]) with (a :: (pd ++ [name])).
    rewrite put_cons by (by destruct pd). rewrite Ha.
    cbn [get]. rewrite assoc_set_eq. by apply IH.
Qed.

Lemma get_put_parent (pd : path) (name : string) (v : option node) (n : node) (perm : Z)
    (es : list (string * node)) :
  get pd n = Some (Dir perm es) ->
  get pd (put (pd ++ [name]) v n) =
    Some (Dir perm (match v with
                    | Some c => set_assoc name c es
                    | None => remove_assoc name es
                    end)).
Proof.
  revert n. induction pd as [|a pd IH]; intros n Hget; simpl in Hget.
  - by injection Hget as ->.
  - destruct n as [| p0 es0 | |]; try discriminate.
    destruct (assoc a es0) as [ch|] eqn:Ha; [|discriminate].
    change ((a :: pd) ++ [name]) with (a :: (pd ++ [name])).
    rewrite put_cons by (by destruct pd). rewrite Ha.
    cbn [get]. rewrite assoc_set_eq. by apply IH.
Qed.

Lemma get_put_frame (p q : path) (v : option node) (n : node) :
  incomparable p q -> get q (put p v n) = get q n.
Proof.
  revert q n. induction p as [|a p IH]; intros q n [H1 H2]; [discriminate H1|].
  destruct q as [|b q]; [discriminate H2|].
  destruct n as [| perm es | |]; try reflexivity.
  simpl in H1, H2. destruct (String.eqb_spec a b) as [->|Hne].
  - rewrite String.eqb_refl in H2. simpl in H1, H2.
    assert (p <> []) as Hp by (intros ->; discriminate H1).
    rewrite put_cons by exact Hp. destruct (assoc b es) as [c|] eqn:Hb; [|reflexivity].
    cbn [get]. rewrite assoc_set_eq, Hb. by apply IH.
  - simpl. destruct p as [|a' p'].
    + destruct v; by rewrite ?assoc_set_ne, ?assoc_remove_ne.
    + destruct (assoc a es) as [c|] eqn:Ha; [|reflexivity].
      cbn [get]. by rewrite assoc_set_ne.
Qed.

Lemma get_put_above (q k : path) (v : option node) (n : node) :
  k <> [] ->
  get q (put (q ++ k) v n) = match get q n with Some m => Some (put k v m) | None => None end.
Proof.
  intros Hk. revert n. induction q as [|a q IH]; intros n; [reflexivity|].
  destruct n as [| perm es | |]; try reflexivity.
  change ((a :: q) ++ k) with (a :: (q ++ k)).
  rewrite put_cons by (destruct q, k; simpl; congruence).
  cbn [get]. destruct (assoc a es) as [c|] eqn:Ha.
  - rewrite assoc_set_eq. apply IH.
  - by rewrite Ha.
Qed.

(** A later update of the same entry replaces an earlier one. *)
Lemma put_put_child (pd : path) (name e : string) (v : option node) (perm0 perm : Z)
    (es0 es : list (string * node)) (n : node) :
  get pd n = Some (Dir perm0 es0) ->
  put (pd ++ [name] ++ [e]) v (put (pd ++ [name]) (Some (Dir perm es)) n) =
  put (pd ++ [name])
      (Some (Dir perm (match v with
                       | Some c => set_assoc e c es
                       | None => remove_assoc e es
                       end))) n.
Proof.
  revert n. induction pd as [|a pd IH]; intros n Hget; simpl in Hget.
  - injection Hget as ->. simpl. rewrite assoc_set_eq, set_assoc_twice. reflexivity.
  - destruct n as [| p0 es1 | |]; try discriminate.
    destruct (assoc a es1) as [ch|] eqn:Ha; [|discriminate].
    change ((a :: pd) ++ [name] ++ [e]) with (a :: (pd ++ [name] ++ [e])).
    change ((a :: pd) ++ [name]) with (a :: (pd ++ [name])).
    rewrite (put_cons a (pd ++ [name])) by (by destruct pd). rewrite Ha.
    rewrite put_cons by (by destruct pd). rewrite assoc_set_eq, set_assoc_twice.
    rewrite (put_cons a (pd ++ [name])) by (by destruct pd). rewrite Ha.
    by rewrite IH.
Qed.

(** ** Path resolution *)

(** A path that [get] can walk resolves to itself: it has no symbolic link
    but perhaps the last component. *)
Lemma walk_get (f : bool) (p cur : path) (n m : node) :
  get p n = Some m ->
  f = false \/ is_symlink_node m = false ->
  walk f cur n p = Done (Found (cur ++ p) m).
Proof.
  revert cur n. induction p as [|a p IH]; intros cur n Hget Hf; simpl in Hget.
  - injection Hget as ->. simpl. by rewrite app_nil_r.
  - destruct n as [| perm es | |]; try discriminate.
    simpl. destruct (assoc a es) as [ch|] eqn:Ha; [|discriminate].
    replace (cur ++ a :: p) with ((cur ++ [a]) ++ p) by (by rewrite <- app_assoc).
    destruct ch as [fp fd | dp des | t | k sp]; try (by apply IH).
    destruct p; simpl in Hget; [|discriminate].
    injection Hget as <-. destruct Hf as [->|Hf]; [|discriminate Hf].
    by rewrite app_nil_r.
Qed.

Lemma namei_get (f : bool) (p : path) (r m : node) :
  get p r = Some m ->
  f = false \/ is_symlink_node m = false ->
  namei f r p = Found p m.
Proof.
  intros Hget Hf. unfold namei. simpl. by rewrite (walk_get f p [] r m Hget Hf).
Qed.

(** One more component after a path that resolves to a directory. *)
Lemma walk_snoc (f : bool) (name : string) (rest cur : path) (n : node) :
  match walk true cur n rest with
  | Follow p' => walk f cur n (rest ++ [name]) = Follow (p' ++ [name])
  | Done (Found c (Dir perm es)) =>
      walk f cur n (rest ++ [name]) =
        match assoc name es with
        | None => Done (Missing c name)
        | Some (Symlink t) => if f then Follow t else Done (Found (c ++ [name]) (Symlink t))
        | Some m => Done (Found (c ++ [name]) m)
        end
  | _ => True
  end.
Proof.
  revert cur n. induction rest as [|a rest IH]; intros cur n.
  - simpl. destruct n as [| perm es | |]; try exact I.
    destruct (assoc name es) as [[| | |]|]; reflexivity.
  - simpl. destruct n as [| perm es | |]; try exact I.
    destruct (assoc a es) as [ch|] eqn:Ha.
    + destruct ch as [fp fd | dp des | t | k sp]; try apply IH.
      destruct rest as [|b rest]; simpl; [reflexivity|].
      by rewrite <- app_assoc.
    + by destruct rest.
Qed.

Lemma namei_fuel_child (fuel : nat) (f : bool) (r : node) (name : string) (dir c : path)
    (perm : Z) (es : list (string * node)) :
  namei_fuel fuel true r dir = Found c (Dir perm es) ->
  f = false \/ match assoc name es with
               | Some m => is_symlink_node m = false
               | None => True
               end ->
  namei_fuel fuel f r (dir ++ [name]) =
    match assoc name es with
    | Some m => Found (c ++ [name]) m
    | None => Missing c name
    end.
Proof.
  revert dir. induction fuel as [|fuel IH]; intros dir Hdir Hf; simpl in *;
    pose proof (walk_snoc f name dir [] r) as Hw;
    destruct (walk true [] r dir) as [[c' [| perm' es' | |] | |]|p'];
    try discriminate; rewrite Hw.
  - injection Hdir as -> -> ->.
    destruct (assoc name es) as [[| | t |]|]; try reflexivity.
    destruct Hf as [->|Hf]; [reflexivity | discriminate Hf].
  - injection Hdir as -> -> ->.
    destruct (assoc name es) as [[| | t |]|]; try reflexivity.
    destruct Hf as [->|Hf]; [reflexivity | discriminate Hf].
  - by apply IH.
Qed.

Lemma namei_child (f : bool) (r : node) (name : string) (dir c : path) (perm : Z)
    (es : list (string * node)) :
  namei true r dir = Found c (Dir perm es) ->
  f = false \/ match assoc name es with
               | Some m => is_symlink_node m = false
               | None => True
               end ->
  namei f r (dir ++ [name]) =
    match assoc name es with
    | Some m => Found (c ++ [name]) m
    | None => Missing c name
    end.
Proof. apply namei_fuel_child. Qed.

Lemma base_snoc (p : path) (name : string) : base (p ++ [name]) = name.
Proof. unfold base. apply last_last. Qed.

(** ** File modes *)

Lemma land_perm_0 (x m : Z) : Z.land ModePerm m = 0 -> Z.land (FileMode_Perm x) m = 0.
Proof.
  intros H. unfold FileMode_Perm. by rewrite <- Z.land_assoc, H, Z.land_0_r.
Qed.

Lemma land_lor_perm (a x m : Z) :
  Z.land ModePerm m = 0 -> Z.land (Z.lor a (FileMode_Perm x)) m = Z.land a m.
Proof.
  intros H. by rewrite Z.land_lor_distr_l, (land_perm_0 x m H), Z.lor_0_r.
Qed.

Lemma node_mode_IsDir (n : node) : FileMode_IsDir (node_mode n) = is_dir_node n.
Proof.
  unfold FileMode_IsDir.
  destruct n as [fp fd | dp des | t | k sp]; simpl;
    rewrite ?land_perm_0, ?land_lor_perm by reflexivity; try reflexivity.
  by destruct k.
Qed.

Lemma node_mode_IsRegular (n : node) :
  FileMode_IsRegular (node_mode n) = match n with File _ _ => true | _ => false end.
Proof.
  unfold FileMode_IsRegular.
  destruct n as [fp fd | dp des | t | k sp]; simpl;
    rewrite ?land_perm_0, ?land_lor_perm by reflexivity; try reflexivity.
  by destruct k.
Qed.

(** ** FileCollector *)

Lemma same_files_refl (w : world) : same_files w w.
Proof. by repeat split. Qed.

Lemma same_files_trans (w1 w2 w3 : world) :
  same_files w1 w2 -> same_files w2 w3 -> same_files w1 w3.
Proof. unfold same_files. intros (?&?&?&?) (?&?&?&?). repeat split; congruence. Qed.

Lemma same_files_Verbose (log : logger) (format : string) (args : list fmtArg) (w : world) :
  same_files w (logger_Verbose log format args w).
Proof. unfold logger_Verbose. destruct (lg_verbose log); by repeat split. Qed.

Lemma same_files_Info (log : logger) (format : string) (args : list fmtArg) (w : world) :
  same_files w (logger_Info log format args w).
Proof. by repeat split. Qed.

Lemma sort_insert_map {A B : Type} (f : A -> B) (lessA : A -> A -> bool)
    (lessB : B -> B -> bool) (x : A) (l : list A) :
  (forall a b, lessB (f a) (f b) = lessA a b) ->
  sort_insert lessB (f x) (map f l) = map f (sort_insert lessA x l).
Proof.
  intros H. induction l as [|y l IH]; simpl; [reflexivity|].
  rewrite H. destruct (lessA x y); simpl; [reflexivity | by rewrite IH].
Qed.

Lemma sort_Slice_map {A B : Type} (f : A -> B) (lessA : A -> A -> bool)
    (lessB : B -> B -> bool) (l : list A) :
  (forall a b, lessB (f a) (f b) = lessA a b) ->
  sort_Slice lessB (map f l) = map f (sort_Slice lessA l).
Proof.
  intros H. induction l as [|x l IH]; simpl; [reflexivity|].
  rewrite IH. by apply sort_insert_map.
Qed.

Lemma StronglySorted_filter {A : Type} (R : A -> A -> Prop) (keep : A -> bool) (l : list A) :
  StronglySorted R l -> StronglySorted R (List.filter keep l).
Proof.
  induction 1 as [|x l Hs IH Hx]; simpl; [constructor|].
  destruct (keep x); [|exact IH]. constructor; [exact IH|].
  rewrite Forall_forall in Hx. rewrite Forall_forall. intros y Hy. apply Hx.
  apply list_elem_of_In in Hy. apply filter_In in Hy as [Hy _]. by apply list_elem_of_In.
Qed.

Lemma StronglySorted_map {A B : Type} (R : B -> B -> Prop) (f : A -> B) (l : list A) :
  StronglySorted (fun a b => R (f a) (f b)) l -> StronglySorted R (map f l).
Proof.
  induction 1 as [|x l Hs IH Hx]; simpl; constructor; [exact IH|].
  rewrite Forall_forall in Hx. rewrite Forall_forall. intros y Hy.
  apply list_elem_of_In, in_map_iff in Hy as (z & <- & Hz). apply Hx.
  by apply list_elem_of_In.
Qed.

(** [os.ReadDir] of a directory, and the second sort of [gatherFiles]. *)
Lemma ReadDir_sorted (w : world) (dir c : path) (perm : Z) (es : list (string * node)) :
  namei true (root w) dir = Found c (Dir perm es) ->
  NoDup (map fst es) ->
  os_ReadDir dir w = Ok (map entry_of (sort_Slice fst_less es))
  /\ sort_Slice name_less (map entry_of (sort_Slice fst_less es)) =
     map entry_of (sort_Slice fst_less es).
Proof.
  intros Hdir Hnd. unfold os_ReadDir. rewrite Hdir.
  assert (forall a b, name_less (entry_of a) (entry_of b) = fst_less a b) as Hless
    by reflexivity.
  rewrite (sort_Slice_map entry_of fst_less name_less es Hless). split; [reflexivity|].
  rewrite (sort_Slice_map entry_of fst_less name_less _ Hless). f_equal.
  apply (sort_Slice_of_sorted fst). by apply (sort_Slice_sorted fst).
Qed.

Lemma Lstat_child (w : world) (dir c : path) (perm : Z) (es : list (string * node))
    (name : string) (m : node) :
  namei true (root w) dir = Found c (Dir perm es) ->
  assoc name es = Some m ->
  os_Lstat (dir ++ [name]) w = Ok (mkFileInfo name (node_mode m)).
Proof.
  intros Hdir Ha. unfold os_Lstat.
  rewrite (namei_child false _ name _ _ _ _ Hdir) by (by left).
  by rewrite Ha, base_snoc.
Qed.

Lemma ReadFile_child (w : world) (dir c : path) (perm : Z) (es : list (string * node))
    (name : string) (fp : Z) (data : string) :
  namei true (root w) dir = Found c (Dir perm es) ->
  assoc name es = Some (File fp data) ->
  os_ReadFile (dir ++ [name]) w = Ok data.
Proof.
  intros Hdir Ha. unfold os_ReadFile.
  rewrite (namei_child true _ name _ _ _ _ Hdir) by (right; by rewrite Ha).
  by rewrite Ha.
Qed.

(** The test for a symbolic link that targets a directory never holds: the
    information is about the entry itself. *)
Lemma symlink_check_never_fires (m : node) :
  negb (Z.land (FileMode_Type (node_mode m)) ModeSymlink =? 0)
  && FileMode_IsDir (node_mode m) = false.
Proof.
  rewrite node_mode_IsDir. destruct m as [fp fd | dp des | t | k sp]; simpl;
    rewrite ?andb_false_r; try reflexivity.
  unfold FileMode_Type. rewrite land_lor_perm by reflexivity. reflexivity.
Qed.

Section Loop.
Variables (dir c : path) (perm : Z) (es : list (string * node)) (log : logger).

(** One entry that is not a directory: it is collected or skipped. *)
Lemma gatherFiles_loop_step (e : string * node) (xs : list (string * node))
    (acc : list filePayload) (w : world) :
  namei true (root w) dir = Found c (Dir perm es) ->
  assoc (fst e) es = Some (snd e) ->
  is_dir_node (snd e) = false ->
  exists w1,
    same_files w w1 /\
    gatherFiles_loop dir log (map entry_of (e :: xs)) acc w =
    gatherFiles_loop dir log (map entry_of xs)
      (acc ++ map (payload_of dir) (List.filter collectible [e])) w1.
Proof.
  intros Hdir Ha Hnd. destruct e as [name m]. simpl in Ha, Hnd.
  cbn [map gatherFiles_loop]. unfold DirEntry_Info.
  cbn [entry_of fst snd de_name de_type].
  rewrite (Lstat_child w dir c perm es name m Hdir Ha).
  unfold FileInfo_IsDir. cbn [fi_mode].
  rewrite symlink_check_never_fires, node_mode_IsDir, Hnd, node_mode_IsRegular.
  unfold collectible. cbn [List.filter fst snd].
  destruct (strings_HasPrefix name ".") eqn:Hdot; cbn [negb andb].
  { eexists. split; [apply same_files_Verbose|]. by rewrite app_nil_r. }
  destruct m as [fp fd | dp des | t | k sp]; cbn [negb];
    try (eexists; split; [apply same_files_Verbose|]; by rewrite app_nil_r).
  rewrite (ReadFile_child w dir c perm es name fp fd Hdir Ha).
  eexists. split; [apply same_files_Verbose|]. reflexivity.
Qed.

Lemma gatherFiles_loop_flat (xs : list (string * node)) (acc : list filePayload) (w : world) :
  namei true (root w) dir = Found c (Dir perm es) ->
  (forall e, e ∈ xs -> assoc (fst e) es = Some (snd e)) ->
  (forall e, e ∈ xs -> is_dir_node (snd e) = false) ->
  exists w',
    gatherFiles_loop dir log (map entry_of xs) acc w =
      (w', Ok (acc ++ map (payload_of dir) (List.filter collectible xs)))
    /\ same_files w w'.
Proof.
  revert acc w. induction xs as [|e xs IH]; intros acc w Hdir Ha Hnd.
  - exists w. simpl. rewrite app_nil_r. split; [reflexivity | apply same_files_refl].
  - destruct (gatherFiles_loop_step e xs acc w Hdir) as (w1 & Hsame & ->);
      [apply Ha; by left | apply Hnd; by left |].
    destruct (IH (acc ++ map (payload_of dir) (List.filter collectible [e])) w1)
      as (w' & -> & Hsame').
    + destruct Hsame as [-> _]. exact Hdir.
    + intros e' He'. apply Ha. by right.
    + intros e' He'. apply Hnd. by right.
    + exists w'. split; [|by eapply same_files_trans].
      rewrite <- app_assoc, <- map_app. do 3 f_equal.
      change (e :: xs) with ([e] ++ xs). by rewrite List.filter_app.
Qed.

(** A directory among the entries ends the loop with an error. *)
Lemma gatherFiles_loop_subdirectory (xs : list (string * node)) (acc : list filePayload)
    (w : world) :
  namei true (root w) dir = Found c (Dir perm es) ->
  (forall e, e ∈ xs -> assoc (fst e) es = Some (snd e)) ->
  (exists e, e ∈ xs /\ is_dir_node (snd e) = true) ->
  exists w' err,
    gatherFiles_loop dir log (map entry_of xs) acc w = (w', Fail err) /\ same_files w w'.
Proof.
  revert acc w. induction xs as [|e xs IH]; intros acc w Hdir Ha (d & Hd & Hdd).
  - by apply elem_of_nil in Hd.
  - destruct (is_dir_node (snd e)) eqn:He.
    + destruct e as [name m]. simpl in He. cbn [map gatherFiles_loop].
      unfold DirEntry_Info. cbn [entry_of fst snd de_name de_type].
      rewrite (Lstat_child w dir c perm es name m Hdir (Ha (name, m) ltac:(by left))).
      unfold FileInfo_IsDir. cbn [fi_mode].
      rewrite symlink_check_never_fires, node_mode_IsDir, He.
      do 2 eexists. split; [reflexivity | apply same_files_refl].
    + destruct (gatherFiles_loop_step e xs acc w Hdir) as (w1 & Hsame & ->);
        [apply Ha; by left | exact He |].
      destruct (IH (acc ++ map (payload_of dir) (List.filter collectible [e])) w1)
        as (w' & err & -> & Hsame').
      * destruct Hsame as [-> _]. exact Hdir.
      * intros e' He'. apply Ha. by right.
      * exists d. split; [|exact Hdd].
        apply elem_of_cons in Hd as [->|Hd]; [congruence | exact Hd].
      * exists w', err. split; [reflexivity | by eapply same_files_trans].
Qed.

End Loop.

Lemma elem_of_perm {A : Type} (x : A) (l1 l2 : list A) :
  Permutation l1 l2 -> x ∈ l1 -> x ∈ l2.
Proof. intros Hp Hx. by rewrite <- Hp. Qed.

Lemma sorted_entries_assoc (es : list (string * node)) (e : string * node) :
  NoDup (map fst es) -> e ∈ sort_Slice fst_less es -> assoc (fst e) es = Some (snd e).
Proof.
  intros Hnd He. apply assoc_elem_of; [exact Hnd|].
  rewrite <- surjective_pairing.
  apply (elem_of_perm e _ _ (sort_Slice_perm fst es) He).
Qed.

(** [gatherFiles] on a directory without subdirectories, up to the test for
    an empty result. *)
Lemma gatherFiles_flat (w : world) (dir c : path) (displayName : string) (log : logger)
    (perm : Z) (es : list (string * node)) :
  namei true (root w) dir = Found c (Dir perm es) ->
  NoDup (map fst es) ->
  Forall (fun e => is_dir_node (snd e) = false) es ->
  exists w1,
    same_files w w1 /\
    gatherFiles dir displayName log w =
      if (length (collected dir es) =? 0)%nat then
        match os_WriteFile (dir ++ [defaultFileName displayName])
                ("# " +:+ displayName +:+ newline) 420 w1 with
        | (w2, Some err) =>
            (w2, Fail (fmt_Errorf_w "bootstrap default file %s: %w"
                         [AStr (defaultFileName displayName)] err))
        | (w2, None) =>
            (logger_Info log "Directory was empty; created %s"
               [AStr (defaultFileName displayName)] w2,
             Ok (collected dir es ++
                 [mkPayload (defaultFileName displayName)
                    (dir ++ [defaultFileName displayName])
                    ("# " +:+ displayName +:+ newline)]))
        end
      else (w1, Ok (collected dir es)).
Proof.
  intros Hdir Hnd Hflat. unfold gatherFiles.
  destruct (ReadDir_sorted w dir c perm es Hdir Hnd) as [-> ->].
  destruct (gatherFiles_loop_flat dir c perm es log (sort_Slice fst_less es) [] w Hdir)
    as (w1 & -> & Hsame).
  - intros e He. by apply sorted_entries_assoc.
  - intros e He. rewrite Forall_forall in Hflat. apply Hflat.
    apply (elem_of_perm e _ _ (sort_Slice_perm fst es) He).
  - exists w1. split; [exact Hsame|]. reflexivity.
Qed.

(** A subdirectory, dot-named or not, makes [gatherFiles] fail, and the file
    system is left as it was. *)
Lemma gatherFiles_subdirectory_fatal (w : world) (dir c : path) (displayName : string)
    (log : logger) (perm : Z) (es : list (string * node)) (name : string) (dperm : Z)
    (des : list (string * node)) :
  namei true (root w) dir = Found c (Dir perm es) ->
  NoDup (map fst es) ->
  (name, Dir dperm des) ∈ es ->
  exists w' err, gatherFiles dir displayName log w = (w', Fail err) /\ same_files w w'.
Proof.
  intros Hdir Hnd Hin. unfold gatherFiles.
  destruct (ReadDir_sorted w dir c perm es Hdir Hnd) as [-> ->].
  destruct (gatherFiles_loop_subdirectory dir c perm es log (sort_Slice fst_less es) [] w Hdir)
    as (w' & err & -> & Hsame).
  - intros e He. by apply sorted_entries_assoc.
  - exists (name, Dir dperm des). split; [|reflexivity].
    apply (elem_of_perm _ _ _ (Permutation_sym (sort_Slice_perm fst es)) Hin).
  - by exists w', err.
Qed.

Lemma collected_sorted (dir : path) (es : list (string * node)) :
  NoDup (map fst es) -> sorted_by_name (collected dir es).
Proof.
  intros Hnd. unfold sorted_by_name, collected.
  apply StronglySorted_map, StronglySorted_filter.
  exact (sort_Slice_sorted fst es Hnd).
Qed.

Lemma collected_nonempty (dir : path) (es : list (string * node)) :
  Exists (fun e => collectible e = true) es -> (length (collected dir es) =? 0)%nat = false.
Proof.
  intros Hex. apply Exists_exists in Hex as (e & He & Hc).
  assert (In e (List.filter collectible (sort_Slice fst_less es))) as Hin.
  { apply filter_In. split; [|exact Hc]. apply list_elem_of_In.
    apply (elem_of_perm _ _ _ (Permutation_sym (sort_Slice_perm fst es)) He). }
  unfold collected. rewrite length_map.
  destruct (List.filter collectible (sort_Slice fst_less es)); [destruct Hin | reflexivity].
Qed.

(** C7.  For a directory without subdirectories and with something to
    collect, [gatherFiles] returns the payloads in the strictly increasing
    order of their names, and returns the same sequence for every order in
    which the file system enumerates the entries. *)
Theorem gatherFiles_sorted_whatever_the_enumeration
    (dir : path) (displayName : string) (log : logger) (w1 w2 : world)
    (c1 c2 : path) (p1 p2 : Z) (es1 es2 : list (string * node)) :
  namei true (root w1) dir = Found c1 (Dir p1 es1) ->
  namei true (root w2) dir = Found c2 (Dir p2 es2) ->
  NoDup (map fst es1) ->
  Permutation es1 es2 ->
  Forall (fun e => is_dir_node (snd e) = false) es1 ->
  Exists (fun e => collectible e = true) es1 ->
  exists files,
    snd (gatherFiles dir displayName log w1) = Ok files
    /\ snd (gatherFiles dir displayName log w2) = Ok files
    /\ sorted_by_name files
    /\ files = collected dir es1.
Proof.
  intros Hd1 Hd2 Hnd Hperm Hflat Hex.
  assert (collected dir es2 = collected dir es1) as Heq.
  { unfold collected. f_equal. f_equal. symmetry.
    by apply (sort_Slice_perm_eq fst). }
  destruct (gatherFiles_flat w1 dir c1 displayName log p1 es1 Hd1 Hnd Hflat)
    as (w1' & _ & ->).
  destruct (gatherFiles_flat w2 dir c2 displayName log p2 es2 Hd2) as (w2' & _ & ->).
  { by rewrite <- Hperm. }
  { by rewrite <- Hperm. }
  rewrite Heq, (collected_nonempty dir es1 Hex).
  exists (collected dir es1). repeat split. by apply collected_sorted.
Qed.

Lemma gatherFiles_sorted_witness :
  exists files,
    snd (gatherFiles ["proj"] "proj" Examples.quiet SortExample.world_ba) = Ok files
    /\ snd (gatherFiles ["proj"] "proj" Examples.quiet SortExample.world_ab) = Ok files
    /\ sorted_by_name files
    /\ files = collected ["proj"] SortExample.entries_ba.
Proof.
  apply (gatherFiles_sorted_whatever_the_enumeration
           ["proj"] "proj" Examples.quiet SortExample.world_ba SortExample.world_ab
           ["proj"] ["proj"] 493 493 SortExample.entries_ba SortExample.entries_ab).
  - reflexivity.
  - reflexivity.
  - apply (bool_decide_unpack _). vm_compute. reflexivity.
  - apply perm_swap.
  - repeat constructor.
  - apply Exists_cons_hd. reflexivity.
Defined.





Section RunFacts.
Variable DefaultRESTClient : world -> option error.
Variable remote : list (string * string) -> string -> string -> res gistCreateResponse.
Variable os_MkdirTemp : string -> string -> world -> world * res path.
Variable gh_gist_clone : string -> path -> world -> world * (option error * string).
Variable parseArgs : list string -> world -> world * res options.
Variable resolveTargetDirectory : string -> world -> world * res (path * string).

(** With a subdirectory in the target directory, [run] ends with the error
    of the collection: no request is built or sent, and the file system is
    as the resolution of the directory left it. *)
Lemma run_subdirectory_sends_nothing (fuel : nat) (args : list string) (w w1 w3 : world)
    (opts : options) (dir c : path) (displayName : string) (perm : Z)
    (es : list (string * node)) (name : string) (dperm : Z) (des : list (string * node)) :
  parseArgs args w = (w1, Ok opts) ->
  resolveTargetDirectory (opt_name opts)
    (logger_Info (mkLogger (opt_verbose opts)) "Resolving target directory..." [] w1) =
    (w3, Ok (dir, displayName)) ->
  namei true (root w3) dir = Found c (Dir perm es) ->
  NoDup (map fst es) ->
  (name, Dir dperm des) ∈ es ->
  exists w' err,
    run DefaultRESTClient remote os_MkdirTemp gh_gist_clone parseArgs resolveTargetDirectory
        fuel args w = Some (w', Some err)
    /\ posted w' = posted w3 /\ root w' = root w3.
Proof.
  intros Hparse Hresolve Hdir Hnd Hin. unfold run. rewrite Hparse, Hresolve.
  set (log := mkLogger (opt_verbose opts)).
  set (w5 := logger_Info log "Collecting files for gist..." []
               (logger_Verbose log "Target directory: %s" [APath dir] w3)).
  assert (same_files w3 w5) as H35.
  { eapply same_files_trans; [apply same_files_Verbose | apply same_files_Info]. }
  destruct (gatherFiles_subdirectory_fatal w5 dir c displayName log perm es name dperm des)
    as (w' & err & -> & H5); [by destruct H35 as [-> _] | exact Hnd | exact Hin |].
  exists w', err. split; [reflexivity|].
  destruct (same_files_trans _ _ _ H35 H5) as (? & _ & _ & ?). by split.
Qed.

End RunFacts.

(** ** System calls on entries of a directory named by its link-free path *)

Lemma with_root_root (w : world) : with_root w (root w) = w.
Proof. by destruct w. Qed.

Lemma set_assoc_same (k : string) (v : node) (es : list (string * node)) :
  assoc k es = Some v -> set_assoc k v es = es.
Proof.
  induction es as [|[k' v'] es IH]; simpl; [discriminate|].
  destruct (String.eqb_spec k' k) as [->|Hne]; [by intros [= ->]|].
  intros H. by rewrite IH.
Qed.

Lemma remove_assoc_absent (k : string) (es : list (string * node)) :
  assoc k es = None -> remove_assoc k es = es.
Proof.
  induction es as [|[k' v'] es IH]; simpl; [reflexivity|].
  destruct (String.eqb_spec k' k); [discriminate|]. intros H. by rewrite IH.
Qed.

Lemma put_None_absent (pd : path) (name : string) (r : node) (perm : Z)
    (es : list (string * node)) :
  get pd r = Some (Dir perm es) -> assoc name es = None -> put (pd ++ [name]) None r = r.
Proof.
  revert r. induction pd as [|a pd IH]; intros r Hget Ha; simpl in Hget.
  - injection Hget as ->. simpl. by rewrite remove_assoc_absent.
  - destruct r as [| p0 es0 | |]; try discriminate.
    destruct (assoc a es0) as [ch|] eqn:Hch; [|discriminate].
    change ((a :: pd) ++ [name]) with (a :: (pd ++ [name])).
    rewrite put_cons by (by destruct pd). rewrite Hch, (IH ch Hget Ha).
    by rewrite set_assoc_same.
Qed.

Lemma put_Some_same (pd : path) (name : string) (r m : node) (perm : Z)
    (es : list (string * node)) :
  get pd r = Some (Dir perm es) -> assoc name es = Some m -> put (pd ++ [name]) (Some m) r = r.
Proof.
  revert r. induction pd as [|a pd IH]; intros r Hget Ha; simpl in Hget.
  - injection Hget as ->. simpl. by rewrite set_assoc_same.
  - destruct r as [| p0 es0 | |]; try discriminate.
    destruct (assoc a es0) as [ch|] eqn:Hch; [|discriminate].
    change ((a :: pd) ++ [name]) with (a :: (pd ++ [name])).
    rewrite put_cons by (by destruct pd). rewrite Hch, (IH ch Hget Ha).
    by rewrite set_assoc_same.
Qed.

Lemma get_child (pd : path) (name : string) (r : node) (perm : Z) (es : list (string * node)) :
  get pd r = Some (Dir perm es) -> get (pd ++ [name]) r = assoc name es.
Proof. intros H. rewrite get_app, H. simpl. by destruct (assoc name es). Qed.

Lemma namei_under (f : bool) (r : node) (pd : path) (perm : Z) (es : list (string * node))
    (name : string) :
  get pd r = Some (Dir perm es) ->
  f = false \/ match assoc name es with
               | Some m => is_symlink_node m = false
               | None => True
               end ->
  namei f r (pd ++ [name]) =
    match assoc name es with
    | Some m => Found (pd ++ [name]) m
    | None => Missing pd name
    end.
Proof.
  intros Hget Hf. apply (namei_child f r name pd pd perm es); [|exact Hf].
  apply namei_get; [exact Hget | by right].
Qed.

Lemma os_MkdirAll_rev_eq (rp : path) (mode : Z) (w : world) :
  os_MkdirAll_rev rp mode w =
    match os_Stat (rev rp) w with
    | Ok dir =>
        if FileInfo_IsDir dir then (w, None)
        else (w, Some (PathError "mkdir" (rev rp) ENOTDIR))
    | Fail _ =>
        match (match rp with
               | [] => (w, None)
               | _ :: rp' => os_MkdirAll_rev rp' mode w
               end) with
        | (w1, Some err) => (w1, Some err)
        | (w1, None) =>
            match os_Mkdir (rev rp) mode w1 with
            | (w2, Some err) =>
                match os_Lstat (rev rp) w2 with
                | Ok dir1 => if FileInfo_IsDir dir1 then (w2, None) else (w2, Some err)
                | Fail _ => (w2, Some err)
                end
            | (w2, None) => (w2, None)
            end
        end
    end.
Proof. by destruct rp. Qed.

Lemma Stat_dir (w : world) (p : path) (perm : Z) (es : list (string * node)) :
  get p (root w) = Some (Dir perm es) ->
  exists fi, os_Stat p w = Ok fi /\ FileInfo_IsDir fi = true
             /\ FileMode_Perm (fi_mode fi) = FileMode_Perm perm.
Proof.
  intros H. unfold os_Stat. rewrite (namei_get true _ _ _ H) by (by right).
  eexists. split; [reflexivity|]. split.
  - unfold FileInfo_IsDir. cbn [fi_mode]. by rewrite node_mode_IsDir.
  - cbn [fi_mode node_mode]. unfold FileMode_Perm.
    rewrite Z.land_lor_distr_l, <- Z.land_assoc. reflexivity.
Qed.

(** [os.MkdirAll] of an entry of an existing directory. *)
Lemma MkdirAll_child (w : world) (pd : path) (perm : Z) (es : list (string * node))
    (name : string) (mode : Z) :
  get pd (root w) = Some (Dir perm es) ->
  os_MkdirAll (pd ++ [name]) mode w =
    match assoc name es with
    | None =>
        (with_root w (put (pd ++ [name]) (Some (Dir (create_perm w mode) [])) (root w)), None)
    | Some (Dir _ _) => (w, None)
    | Some (Symlink _) => os_MkdirAll (pd ++ [name]) mode w
    | Some _ => (w, Some (PathError "mkdir" (pd ++ [name]) ENOTDIR))
    end.
Proof.
  intros Hget. destruct (assoc name es) as [m|] eqn:Ha.
  - destruct m as [fp fd | dp des | t | k sp]; try reflexivity;
      unfold os_MkdirAll; rewrite os_MkdirAll_rev_eq, rev_involutive; unfold os_Stat;
      rewrite (namei_under true _ _ _ _ name Hget) by (right; by rewrite Ha);
      rewrite Ha; unfold FileInfo_IsDir; cbn [fi_mode]; by rewrite node_mode_IsDir.
  - unfold os_MkdirAll. rewrite rev_app_distr. cbn [rev app].
    rewrite os_MkdirAll_rev_eq, os_MkdirAll_rev_eq. cbn [rev].
    rewrite rev_involutive. unfold os_Stat at 1.
    rewrite (namei_under true _ _ _ _ name Hget) by (right; by rewrite Ha). rewrite Ha.
    destruct (Stat_dir w pd perm es Hget) as (fi & -> & -> & _).
    unfold os_Mkdir. rewrite (namei_under false _ _ _ _ name Hget) by (by left).
    by rewrite Ha.
Qed.

Lemma path_eqb_snoc_nil (p : path) (n : string) : path_eqb (p ++ [n]) [] = false.
Proof. by destruct p. Qed.

Lemma parent_of_snoc (p : path) (n : string) : parent_of (p ++ [n]) = p.
Proof. apply removelast_last. Qed.

(** [os.RemoveAll] of an entry of an existing directory. *)
Lemma RemoveAll_child (w : world) (pd : path) (perm : Z) (es : list (string * node))
    (name : string) (w1 : world) (removed : option error) :
  get pd (root w) = Some (Dir perm es) ->
  os_RemoveAll (pd ++ [name]) w = (w1, removed) ->
  (removed = None /\ w1 = with_root w (put (pd ++ [name]) None (root w)))
  \/ (removed = Some (PathError "unlinkat" (pd ++ [name]) EBUSY)
      /\ is_mount_point (mounts w) (pd ++ [name]) = true).
Proof.
  intros Hget. unfold os_RemoveAll.
  rewrite (namei_under false _ _ _ _ name Hget) by (by left).
  destruct (assoc name es) as [m|] eqn:Ha.
  - rewrite path_eqb_snoc_nil. cbn [orb].
    destruct (is_mount_point (mounts w) (pd ++ [name])).
    + destruct m; intros [= <- <-]; by right.
    + intros [= <- <-]. by left.
  - intros [= <- <-]. left. split; [reflexivity|].
    by rewrite (put_None_absent pd name _ perm es Hget Ha), with_root_root.
Qed.

Lemma incomparable_neq (p q : path) : incomparable p q -> p <> q.
Proof. intros [H _] ->. by rewrite is_prefix_refl in H. Qed.

(** [os.Rename] of an entry of one directory to a free name of another. *)
Lemma Rename_child (w : world) (from to : path) (pf pt : Z) (ef et : list (string * node))
    (n : string) (m : node) :
  get from (root w) = Some (Dir pf ef) ->
  get to (root w) = Some (Dir pt et) ->
  incomparable from to ->
  assoc n ef = Some m ->
  assoc n et = None ->
  os_Rename (from ++ [n]) (to ++ [n]) w =
    if negb (path_eqb (device_of (mounts w) from) (device_of (mounts w) to)) then
      (w, Some (LinkError "rename" (from ++ [n]) (to ++ [n]) EXDEV))
    else if is_mount_point (mounts w) (from ++ [n]) || is_mount_point (mounts w) (to ++ [n]) then
      (w, Some (LinkError "rename" (from ++ [n]) (to ++ [n]) EBUSY))
    else (with_root w (put (to ++ [n]) (Some m) (put (from ++ [n]) None (root w))), None).
Proof.
  intros Hfrom Hto Hinc Hm Hfree. unfold os_Rename.
  rewrite (namei_under false _ _ _ _ n Hto) by (by left).
  rewrite (namei_under false _ _ _ _ n Hfrom) by (by left).
  rewrite Hm, Hfree, !parent_of_snoc, !path_eqb_snoc_nil.
  destruct (path_eqb (device_of (mounts w) from) (device_of (mounts w) to));
    cbn [negb orb]; [|reflexivity].
  destruct (path_eqb_spec (from ++ [n]) (to ++ [n])) as [Heq|_].
  { apply app_inj_tail in Heq as [Heq _]. by apply incomparable_neq in Hinc. }
  destruct (incomparable_app from to [n] [n] Hinc) as [Hpre _]. rewrite Hpre.
  by destruct m.
Qed.

(** ** CrossDeviceMover: where the copy writes *)

Lemma same_process_refl (w : world) : same_process w w.
Proof. by repeat split. Qed.

Lemma same_process_trans (w1 w2 w3 : world) :
  same_process w1 w2 -> same_process w2 w3 -> same_process w1 w3.
Proof. unfold same_process. intros (?&?&?&?) (?&?&?&?). repeat split; congruence. Qed.

Lemma same_process_with_root (w : world) (r : node) : same_process w (with_root w r).
Proof. by repeat split. Qed.

Lemma assoc_Forall (P : node -> Prop) (es : list (string * node)) (k : string) (v : node) :
  Forall (fun e => P (snd e)) es -> assoc k es = Some v -> P v.
Proof.
  induction 1 as [|[k' v'] es Hv _ IH]; simpl; [discriminate|].
  destruct (String.eqb k' k); [by intros [= <-] | exact IH].
Qed.

Lemma Forall_set_assoc (P : node -> Prop) (es : list (string * node)) (k : string) (v : node) :
  Forall (fun e => P (snd e)) es -> P v -> Forall (fun e => P (snd e)) (set_assoc k v es).
Proof.
  intros Hes Hv. induction Hes as [|[k' v'] es Hv' Hes IH]; simpl.
  - by repeat constructor.
  - destruct (String.eqb k' k); constructor; simpl; auto.
Qed.

Lemma put_put_Some (pd : path) (name : string) (v1 v2 : node) (r : node) (perm : Z)
    (es : list (string * node)) :
  get pd r = Some (Dir perm es) ->
  put (pd ++ [name]) (Some v2) (put (pd ++ [name]) (Some v1) r) =
  put (pd ++ [name]) (Some v2) r.
Proof.
  revert r. induction pd as [|a pd IH]; intros r Hget; simpl in Hget.
  - injection Hget as ->. simpl. by rewrite set_assoc_twice.
  - destruct r as [| p0 es0 | |]; try discriminate.
    destruct (assoc a es0) as [ch|] eqn:Ha; [|discriminate].
    change ((a :: pd) ++ [name]) with (a :: (pd ++ [name])).
    rewrite (put_cons a (pd ++ [name]) (Some v1)) by (by destruct pd). rewrite Ha.
    rewrite put_cons by (by destruct pd). rewrite assoc_set_eq, set_assoc_twice.
    rewrite (put_cons a (pd ++ [name])) by (by destruct pd). rewrite Ha.
    by rewrite (IH ch Hget).
Qed.

(** [copyFile] into a directory of regular files and directories writes the
    one entry it names, a regular file. *)
Lemma copyFile_writes (w w' : world) (src pd : path) (name : string) (perm : Z)
    (es : list (string * node)) (r : option error) :
  get pd (root w) = Some (Dir perm es) ->
  opt_plain (assoc name es) ->
  copyFile src (pd ++ [name]) w = (w', r) ->
  same_process w w' /\
  (root w' = root w
   \/ exists fp data, root w' = put (pd ++ [name]) (Some (File fp data)) (root w)).
Proof.
  intros Hpd Hplain. unfold copyFile.
  assert (forall mode w1 o, open_trunc (pd ++ [name]) mode w = (w1, o) ->
            same_process w w1 /\
            match o with
            | Ok d => d = pd ++ [name] /\
                      exists fp, root w1 = put (pd ++ [name]) (Some (File fp "")) (root w)
            | Fail _ => w1 = w
            end) as Hopen.
  { intros mode w1 o. unfold open_trunc.
    rewrite (namei_under true _ _ _ _ name Hpd)
      by (right; destruct (assoc name es) as [[| | |]|]; simpl in Hplain;
          first [done | inversion Hplain]).
    destruct (assoc name es) as [[fp fd | dp des | t | k sp]|];
      intros [= <- <-]; (split; [apply same_process_with_root || apply same_process_refl|]);
      try reflexivity; split; try reflexivity; by eexists. }
  destruct (namei true (root w) src) as [c n | |];
    try (intros [= <- <-]; split; [apply same_process_refl | by left]).
  destruct n as [fp fd | dp des | t | k sp];
    try (intros [= <- <-]; split; [apply same_process_refl | by left]).
  - destruct (open_trunc (pd ++ [name]) (node_mode (File fp fd)) w) as [w1 [d|err]] eqn:Ho;
      apply Hopen in Ho as [Hsame Ho].
    + destruct Ho as [-> [fp1 Hroot]].
      destruct (get c (root w1)) as [[fp2 data | | |]|];
        try (intros [= <- <-]; split; [exact Hsame | right; by do 2 eexists]).
      intros [= <- <-]. unfold write_all. rewrite Hroot.
      rewrite (get_put_eq pd name _ _ perm es Hpd). cbn [root with_root].
      split; [eapply same_process_trans; [exact Hsame | apply same_process_with_root]|].
      right. exists fp1, data. by apply (put_put_Some pd name _ _ _ perm es).
    + subst w1. intros [= <- <-]. split; [apply same_process_refl | by left].
  - destruct (open_trunc (pd ++ [name]) (node_mode (Dir dp des)) w) as [w1 [d|err]] eqn:Ho;
      apply Hopen in Ho as [Hsame Ho].
    + destruct Ho as [-> [fp1 Hroot]].
      destruct (get c (root w1)) as [[fp2 data | | |]|];
        try (intros [= <- <-]; split; [exact Hsame | right; by do 2 eexists]).
      intros [= <- <-]. unfold write_all. rewrite Hroot.
      rewrite (get_put_eq pd name _ _ perm es Hpd). cbn [root with_root].
      split; [eapply same_process_trans; [exact Hsame | apply same_process_with_root]|].
      right. exists fp1, data. by apply (put_put_Some pd name _ _ _ perm es).
    + subst w1. intros [= <- <-]. split; [apply same_process_refl | by left].
Qed.

(** A write to an entry of the destination directory is a write to the
    destination directory. *)
Lemma writes_under_child (pd : path) (name e : string) (r0 : node) (perm p1 : Z)
    (es es_k : list (string * node)) (w w1 : world) :
  get pd r0 = Some (Dir perm es) ->
  root w = put (pd ++ [name]) (Some (Dir p1 es_k)) r0 ->
  Forall (fun x => plain (snd x)) es_k ->
  writes_under ((pd ++ [name]) ++ [e]) w w1 ->
  same_process w w1 /\
  exists es', Forall (fun x => plain (snd x)) es'
              /\ root w1 = put (pd ++ [name]) (Some (Dir p1 es')) r0.
Proof.
  intros Hpd Hroot Hplain [Hsame [Hw|(d & Hd & Hw)]]; (split; [exact Hsame|]).
  - exists es_k. split; [exact Hplain | congruence].
  - exists (set_assoc e d es_k). split; [by apply Forall_set_assoc|].
    rewrite Hw, Hroot, <- app_assoc.
    by apply (put_put_child pd name e (Some d) perm p1 es es_k r0).
Qed.

Section CopyLoop.
Variable rec : path -> path -> world -> option (world * option error).
Hypothesis Hrec :
  forall src pd name w w' r perm es,
    get pd (root w) = Some (Dir perm es) ->
    opt_plain (assoc name es) ->
    rec src (pd ++ [name]) w = Some (w', r) ->
    writes_under (pd ++ [name]) w w'.

Lemma copyDir_loop_writes (src pd : path) (name : string) (r0 : node) (perm p1 : Z)
    (es : list (string * node)) (entries : list DirEntry) :
  get pd r0 = Some (Dir perm es) ->
  forall (w : world) (es_k : list (string * node)) (w' : world) (r : option error),
    root w = put (pd ++ [name]) (Some (Dir p1 es_k)) r0 ->
    Forall (fun x => plain (snd x)) es_k ->
    copyDir_loop rec src (pd ++ [name]) entries w = Some (w', r) ->
    same_process w w' /\
    exists es', Forall (fun x => plain (snd x)) es'
                /\ root w' = put (pd ++ [name]) (Some (Dir p1 es')) r0.
Proof.
  intros Hpd. induction entries as [|entry rest IH]; intros w es_k w' r Hroot Hplain Hloop.
  - injection Hloop as <- <-. split; [apply same_process_refl | by exists es_k].
  - cbn [copyDir_loop] in Hloop.
    assert (get (pd ++ [name]) (root w) = Some (Dir p1 es_k)) as Hdst
      by (rewrite Hroot; by apply (get_put_eq pd name _ _ perm es)).
    assert (opt_plain (assoc (de_name entry) es_k)) as Hfree.
    { destruct (assoc (de_name entry) es_k) as [m|] eqn:Ha; [|exact I].
      exact (assoc_Forall plain es_k _ m Hplain Ha). }
    assert (forall w1 r1,
              (if DirEntry_IsDir entry
               then rec (src ++ [de_name entry]) ((pd ++ [name]) ++ [de_name entry]) w
               else Some (copyFile (src ++ [de_name entry])
                            ((pd ++ [name]) ++ [de_name entry]) w)) = Some (w1, r1) ->
              writes_under ((pd ++ [name]) ++ [de_name entry]) w w1) as Hstep.
    { intros w1 r1. destruct (DirEntry_IsDir entry).
      - by apply (Hrec _ _ _ _ _ _ p1 es_k).
      - intros [= Hc]. destruct (copyFile_writes _ _ _ _ _ p1 es_k _ Hdst Hfree Hc)
          as [Hsame [Hw|(fp & data & Hw)]]; (split; [exact Hsame|]); [by left|].
        right. exists (File fp data). split; [constructor | exact Hw]. }
    destruct (if DirEntry_IsDir entry then _ else _) as [[w1 r1]|]; [|discriminate].
    destruct (writes_under_child pd name (de_name entry) r0 perm p1 es es_k w w1
                Hpd Hroot Hplain (Hstep w1 r1 eq_refl)) as (Hsame & es1 & Hplain1 & Hroot1).
    destruct r1 as [err|].
    + injection Hloop as <- <-. split; [exact Hsame | by exists es1].
    + destruct (IH w1 es1 w' r Hroot1 Hplain1 Hloop) as (Hsame' & es' & Hp' & Hr').
      split; [by eapply same_process_trans | by exists es'].
Qed.

End CopyLoop.

(** [copyDir] into a directory named by its link-free path, to an entry that
    is absent or a tree of regular files and directories, changes nothing
    but that entry; when it succeeds the entry is a directory. *)
Lemma copyDir_writes (fuel : nat) (src pd : path) (name : string) (w w' : world)
    (r : option error) (perm : Z) (es : list (string * node)) :
  get pd (root w) = Some (Dir perm es) ->
  opt_plain (assoc name es) ->
  copyDir fuel src (pd ++ [name]) w = Some (w', r) ->
  writes_under (pd ++ [name]) w w'
  /\ (r = None -> exists dp des, get (pd ++ [name]) (root w') = Some (Dir dp des)).
Proof.
  revert src pd name w w' r perm es.
  induction fuel as [|fuel IH]; intros src pd name w w' r perm es Hpd Hplain; [discriminate|].
  cbn [copyDir]. destruct (os_Stat src w) as [srcInfo|err].
  2:{ intros [= <- <-]. split; [|discriminate].
      split; [apply same_process_refl | by left]. }
  rewrite (MkdirAll_child w pd perm es name _ Hpd).
  assert (forall w1 p1 es1,
            same_process w w1 ->
            root w1 = put (pd ++ [name]) (Some (Dir p1 es1)) (root w) ->
            Forall (fun x => plain (snd x)) es1 ->
            match os_ReadDir src w1 with
            | Ok entries => copyDir_loop (copyDir fuel) src (pd ++ [name]) entries w1
            | Fail err => Some (w1, Some err)
            end = Some (w', r) ->
            writes_under (pd ++ [name]) w w'
            /\ (r = None -> exists dp des, get (pd ++ [name]) (root w') = Some (Dir dp des)))
    as Hrest.
  { intros w1 p1 es1 Hsame Hroot1 Hplain1. destruct (os_ReadDir src w1) as [entries|err].
    - intros Hloop.
      destruct (copyDir_loop_writes (copyDir fuel)
                  (fun s p n w0 w0' r0 p0 e0 H1 H2 H3 => proj1 (IH s p n w0 w0' r0 p0 e0 H1 H2 H3))
                  src pd name (root w) perm p1 es entries Hpd w1 es1 w' r Hroot1 Hplain1 Hloop)
        as (Hsame' & es' & Hp' & Hr').
      split.
      + split; [by eapply same_process_trans|]. right. exists (Dir p1 es').
        split; [by constructor | exact Hr'].
      + intros _. exists p1, es'. rewrite Hr'. by apply (get_put_eq pd name _ _ perm es).
    - intros [= <- <-]. split; [|discriminate]. split; [exact Hsame|].
      right. exists (Dir p1 es1). split; [by constructor | exact Hroot1]. }
  destruct (assoc name es) as [[fp fd | dp des | t | k sp]|] eqn:Ha; simpl in Hplain.
  - intros [= <- <-]. split; [|discriminate]. split; [apply same_process_refl | by left].
  - apply (Hrest w dp des); [apply same_process_refl | | by inversion Hplain].
    symmetry. by apply (put_Some_same pd name _ _ perm es).
  - inversion Hplain.
  - inversion Hplain.
  - apply (Hrest _ (create_perm w (fi_mode srcInfo)) []);
      [apply same_process_with_root | reflexivity | constructor].
Qed.

(** ** The recursive copy of a tree of files and directories *)

Lemma FileMode_Perm_idem (m : Z) : FileMode_Perm (FileMode_Perm m) = FileMode_Perm m.
Proof. unfold FileMode_Perm. by rewrite <- Z.land_assoc. Qed.

Lemma entry_of_IsDir (e : string * node) : DirEntry_IsDir (entry_of e) = is_dir_node (snd e).
Proof.
  unfold DirEntry_IsDir, entry_of. cbn [de_type].
  rewrite <- node_mode_IsDir. unfold FileMode_IsDir, FileMode_Type.
  by rewrite <- Z.land_assoc.
Qed.

Lemma with_root_twice (w : world) (r1 r2 : node) :
  with_root (with_root w r1) r2 = with_root w r2.
Proof. reflexivity. Qed.

(** [copyFile] of a regular file to a name that a directory does not have:
    the new entry is a file with the bytes of the source and its permission
    bits, without those of the umask. *)
Lemma copyFile_copies (w : world) (src pd : path) (name : string) (fp perm : Z)
    (data : string) (es : list (string * node)) :
  get src (root w) = Some (File fp data) ->
  get pd (root w) = Some (Dir perm es) ->
  assoc name es = None ->
  incomparable src (pd ++ [name]) ->
  copyFile src (pd ++ [name]) w =
    (with_root w (put (pd ++ [name]) (Some (File (create_perm w fp) data)) (root w)), None).
Proof.
  intros Hsrc Hpd Ha Hinc. unfold copyFile.
  rewrite (namei_get true src _ _ Hsrc) by (by right).
  unfold open_trunc. rewrite (namei_under true _ _ _ _ name Hpd) by (right; by rewrite Ha).
  rewrite Ha. cbn [root with_root].
  rewrite (get_put_frame _ _ _ _ (incomparable_sym _ _ Hinc)), Hsrc.
  unfold write_all. cbn [root with_root].
  rewrite (get_put_eq pd name _ _ perm es Hpd).
  rewrite (put_put_Some pd name _ _ _ perm es Hpd), with_root_twice.
  unfold create_perm. cbn [node_mode]. by rewrite FileMode_Perm_idem.
Qed.

Lemma depth_child (k : string) (c : node) (perm : Z) (es : list (string * node)) :
  (k, c) ∈ es -> (depth c < depth (Dir perm es))%nat.
Proof.
  intros Hin. cbn [depth]. apply Nat.lt_succ_r.
  induction es as [|[k' c'] es IH]; [by apply elem_of_nil in Hin|].
  apply elem_of_cons in Hin as [[= <- <-]|Hin]; [lia|].
  specialize (IH Hin). lia.
Qed.

Section CopyImage.
Variable rec : path -> path -> world -> option (world * option error).
Variable bound : nat.
Hypothesis Hrec :
  forall src pd name w sp ses perm es,
    get src (root w) = Some (Dir sp ses) ->
    pure (Dir sp ses) ->
    (depth (Dir sp ses) <= bound)%nat ->
    get pd (root w) = Some (Dir perm es) ->
    assoc name es = None ->
    incomparable src (pd ++ [name]) ->
    rec src (pd ++ [name]) w =
      Some (with_root w (put (pd ++ [name]) (Some (copy_image (umask w) (Dir sp ses))) (root w)),
            None).

(** The loop of [copyDir] adds the image of each entry of the source to the
    destination, in the order of the entries. *)
Lemma copyDir_loop_copies (src pd : path) (name : string) (r0 : node) (sp perm p1 : Z)
    (ses es : list (string * node)) (xs : list (string * node)) :
  get src r0 = Some (Dir sp ses) ->
  get pd r0 = Some (Dir perm es) ->
  incomparable src (pd ++ [name]) ->
  forall (w : world) (done : list (string * node)),
    root w = put (pd ++ [name]) (Some (Dir p1 done)) r0 ->
    (forall k c, (k, c) ∈ xs -> assoc k ses = Some c /\ pure c /\ (depth c <= bound)%nat) ->
    NoDup (map fst xs) ->
    (forall k, k ∈ map fst xs -> assoc k done = None) ->
    copyDir_loop rec src (pd ++ [name]) (map entry_of xs) w =
      Some (with_root w
              (put (pd ++ [name])
                 (Some (Dir p1 (done ++ map (fun e : string * node =>
                                               let '(k, c) := e in (k, copy_image (umask w) c))
                                          xs))) r0),
            None).
Proof.
  intros Hsrc Hpd Hinc.
  induction xs as [|[k c] xs IH]; intros w done Hroot Hxs Hnd Hfresh.
  { cbn [map copyDir_loop]. rewrite app_nil_r, <- Hroot. by destruct w. }
  cbn [map copyDir_loop]. rewrite entry_of_IsDir. cbn [snd de_name entry_of fst].
  destruct (Hxs k c (list_elem_of_here _ _)) as (Hk & Hpure & Hdepth).
  cbn [map fst] in Hnd. apply NoDup_cons in Hnd as [Hkxs Hnd].
  assert (get src (root w) = Some (Dir sp ses)) as Hsrc_w
    by (rewrite Hroot, (get_put_frame _ _ _ _ (incomparable_sym _ _ Hinc)); exact Hsrc).
  assert (get (src ++ [k]) (root w) = Some c) as Hc
    by (by rewrite (get_child src k _ sp ses Hsrc_w)).
  assert (get (pd ++ [name]) (root w) = Some (Dir p1 done)) as Hdst
    by (rewrite Hroot; by apply (get_put_eq pd name _ _ perm es)).
  assert (assoc k done = None) as Hkd by (apply Hfresh; cbn [map fst]; apply list_elem_of_here).
  assert (incomparable (src ++ [k]) ((pd ++ [name]) ++ [k])) as Hinck
    by (by apply incomparable_app).
  assert (forall img,
            root (with_root w (put ((pd ++ [name]) ++ [k]) (Some img) (root w))) =
            put (pd ++ [name]) (Some (Dir p1 (set_assoc k img done))) r0) as Hnext.
  { intros img. cbn [root with_root]. rewrite Hroot, <- app_assoc.
    by rewrite (put_put_child pd name k (Some img) perm p1 es done r0 Hpd). }
  assert (forall img w1,
            w1 = with_root w (put ((pd ++ [name]) ++ [k]) (Some img) (root w)) ->
            img = copy_image (umask w) c ->
            copyDir_loop rec src (pd ++ [name]) (map entry_of xs) w1 =
            Some (with_root w
                    (put (pd ++ [name])
                       (Some (Dir p1 (done ++ (k, copy_image (umask w) c) ::
                                        map (fun e : string * node =>
                                               let '(k, c) := e in (k, copy_image (umask w) c))
                                          xs))) r0),
                  None)) as Hrest.
  { intros img w1 -> ->.
    rewrite (IH _ (set_assoc k (copy_image (umask w) c) done) (Hnext _)).
    - rewrite with_root_twice, set_assoc_fresh by exact Hkd.
      cbn [umask with_root]. by rewrite <- app_assoc.
    - intros k' c' Hin. apply Hxs. by apply list_elem_of_further.
    - exact Hnd.
    - intros k' Hk'. rewrite assoc_set_ne; [apply Hfresh; by apply list_elem_of_further|].
      intros ->. contradiction. }
  destruct c as [fp data | cp ces | t | sk spm]; cbn [is_dir_node].
  - rewrite (copyFile_copies w _ _ _ fp p1 data done Hc Hdst Hkd Hinck).
    by apply (Hrest (File (create_perm w fp) data)).
  - rewrite (Hrec _ _ _ w cp ces p1 done Hc Hpure Hdepth Hdst Hkd Hinck).
    by apply (Hrest (copy_image (umask w) (Dir cp ces))).
  - inversion Hpure.
  - inversion Hpure.
Qed.

End CopyImage.

(** [copyDir] of a directory of regular files and directories to a name that
    a directory does not have: with fuel for the depth of the source, the
    new entry is the image of the source. *)
Lemma copyDir_copies (fuel : nat) (src pd : path) (name : string) (w : world)
    (sp perm : Z) (ses es : list (string * node)) :
  get src (root w) = Some (Dir sp ses) ->
  pure (Dir sp ses) ->
  (depth (Dir sp ses) <= fuel)%nat ->
  get pd (root w) = Some (Dir perm es) ->
  assoc name es = None ->
  incomparable src (pd ++ [name]) ->
  copyDir fuel src (pd ++ [name]) w =
    Some (with_root w (put (pd ++ [name]) (Some (copy_image (umask w) (Dir sp ses))) (root w)),
          None).
Proof.
  revert src pd name w sp perm ses es.
  induction fuel as [|fuel IH]; intros src pd name w sp perm ses es Hsrc Hpure Hdepth Hpd Ha Hinc.
  { cbn [depth] in Hdepth. lia. }
  cbn [copyDir].
  destruct (Stat_dir w src sp ses Hsrc) as (fi & -> & _ & Hperm).
  rewrite (MkdirAll_child w pd perm es name _ Hpd), Ha.
  inversion Hpure as [|? ? Hnd Hall]; subst.
  set (w1 := with_root w _).
  assert (get src (root w1) = Some (Dir sp ses)) as Hsrc1.
  { unfold w1. cbn [root with_root].
    by rewrite (get_put_frame _ _ _ _ (incomparable_sym _ _ Hinc)). }
  assert (sort_Slice fst_less ses ≡ₚ ses) as Hperm_s by apply (sort_Slice_perm fst).
  destruct (ReadDir_sorted w1 src src sp ses) as [-> _];
    [by apply namei_get; [|right] | exact Hnd |].
  rewrite (copyDir_loop_copies (copyDir fuel) fuel
             (fun s p n w0 sp0 ses0 perm0 es0 H1 H2 H3 H4 H5 H6 =>
                IH s p n w0 sp0 perm0 ses0 es0 H1 H2 H3 H4 H5 H6)
             src pd name (root w) sp perm (create_perm w (fi_mode fi)) ses es
             (sort_Slice fst_less ses) Hsrc Hpd Hinc w1 []).
  - unfold w1. rewrite with_root_twice. cbn [umask with_root app copy_image].
    unfold create_perm. rewrite Hperm.
    by rewrite (sort_Slice_map _ fst_less fst_less) by (by intros [] []).
  - reflexivity.
  - intros k c Hin. rewrite Hperm_s in Hin. split; [by apply assoc_elem_of|].
    split.
    + rewrite Forall_forall in Hall. exact (Hall _ Hin).
    + pose proof (depth_child k c sp ses Hin). lia.
  - by rewrite Hperm_s.
  - reflexivity.
Qed.

(** [os.Rename] reports every failure as a [*os.LinkError], and leaves the
    world as it was. *)
Lemma os_Rename_fails_with_LinkError (old new : path) (w w' : world) (err : error) :
  os_Rename old new w = (w', Some err) ->
  w' = w /\ exists e, err = LinkError "rename" old new e.
Proof.
  unfold os_Rename. intros H.
  repeat match type of H with
         | (match ?x with _ => _ end) = _ => destruct x eqn:?
         | (if ?x then _ else _) = _ => destruct x eqn:?
         | (_, Some _) = (_, Some _) => injection H as <- <-
         | (_, None) = (_, Some _) => discriminate H
         end; eauto.
Qed.

(** The fallback of [moveFileOrDir] on a directory of regular files and
    directories: when the rename fails, the destination (a name its
    directory does not have) becomes the image of the source, and the
    source is removed. *)
Lemma moveFileOrDir_copies_directory (fuel : nat) (ps pd : path) (sn dn : string)
    (w w1 : world) (err : error) (pp sp perm : Z) (pes ses es : list (string * node)) :
  get ps (root w) = Some (Dir pp pes) ->
  assoc sn pes = Some (Dir sp ses) ->
  pure (Dir sp ses) ->
  (depth (Dir sp ses) <= fuel)%nat ->
  get pd (root w) = Some (Dir perm es) ->
  assoc dn es = None ->
  incomparable ps pd ->
  is_mount_point (mounts w) (ps ++ [sn]) = false ->
  os_Rename (ps ++ [sn]) (pd ++ [dn]) w = (w1, Some err) ->
  moveFileOrDir fuel (ps ++ [sn]) (pd ++ [dn]) w =
    Some (with_root w
            (put (ps ++ [sn]) None
               (put (pd ++ [dn]) (Some (copy_image (umask w) (Dir sp ses))) (root w))),
          None).
Proof.
  intros Hps Hsn Hpure Hdepth Hpd Hdn Hinc Hmount Hren.
  unfold moveFileOrDir. rewrite Hren.
  destruct (os_Rename_fails_with_LinkError _ _ _ _ _ Hren) as [-> [e ->]]. cbn [errors_As_LinkError].
  assert (get (ps ++ [sn]) (root w) = Some (Dir sp ses)) as Hsrc
    by (by rewrite (get_child ps sn _ pp pes Hps)).
  rewrite (copyDir_copies fuel (ps ++ [sn]) pd dn w sp perm ses es Hsrc Hpure Hdepth Hpd Hdn)
    by (by apply incomparable_app).
  set (w2 := with_root w _).
  assert (get ps (root w2) = Some (Dir pp pes)) as Hps2.
  { unfold w2. cbn [root with_root]. rewrite get_put_frame; [exact Hps|].
    apply incomparable_sym. rewrite <- (app_nil_r ps). by apply incomparable_app. }
  destruct (os_RemoveAll (ps ++ [sn]) w2) as [w3 removed] eqn:Hrm.
  destruct (RemoveAll_child w2 ps pp pes sn w3 removed Hps2 Hrm) as [[-> ->]|[_ Hbusy]].
  - reflexivity.
  - unfold w2 in Hbusy. cbn [mounts with_root] in Hbusy. congruence.
Qed.

(** ** MetadataReconciler *)

Lemma incomparable_child_l (p q : path) (n : string) :
  incomparable p q -> incomparable (p ++ [n]) q.
Proof.
  intros H. rewrite <- (app_nil_r q). by apply incomparable_app.
Qed.

(** One turn of the loop of [moveGitMetadata] that moves the entry [n]: the
    entry leaves the clone; the target gets, under the same name and in place
    of what it had there, the entry itself (after a rename) or a tree of
    regular files and directories (after a copy); nothing else changes. *)
Lemma move_entry (fuel : nat) (from to : path) (pf pt : Z) (ef et : list (string * node))
    (n : string) (m : node) (w w1 w2 : world) (removed : option error) :
  get from (root w) = Some (Dir pf ef) ->
  get to (root w) = Some (Dir pt et) ->
  incomparable from to ->
  assoc n ef = Some m ->
  os_RemoveAll (to ++ [n]) w = (w1, removed) ->
  match removed with
  | Some err => if negb (errors_Is_ErrNotExist err) then Some err else None
  | None => None
  end = None ->
  moveFileOrDir fuel (from ++ [n]) (to ++ [n]) w1 = Some (w2, None) ->
  same_process w w2 /\
  exists d, (d = m \/ plain d)
            /\ get from (root w2) = Some (Dir pf (remove_assoc n ef))
            /\ get to (root w2) = Some (Dir pt (set_assoc n d (remove_assoc n et))).
Proof.
  intros Hfrom Hto Hinc Hm Hremove Hgo Hmove.
  destruct (RemoveAll_child w to pt et n w1 removed Hto Hremove) as [[-> ->]|[-> _]];
    [clear Hgo | discriminate Hgo].
  set (r1 := put (to ++ [n]) None (root w)) in *.
  assert (get from r1 = Some (Dir pf ef)) as Hfrom1.
  { unfold r1. rewrite get_put_frame; [exact Hfrom|].
    by apply incomparable_child_l, incomparable_sym. }
  assert (get to r1 = Some (Dir pt (remove_assoc n et))) as Hto1
    by (by apply (get_put_parent to n None)).
  assert (forall x, get from (put (to ++ [n]) x r1) = Some (Dir pf ef)) as Hfrom2.
  { intros x. rewrite get_put_frame; [exact Hfrom1|].
    by apply incomparable_child_l, incomparable_sym. }
  assert (forall x r, get to (put (from ++ [n]) x r) = get to r) as Hto2.
  { intros x r. apply get_put_frame. by apply incomparable_child_l. }
  unfold moveFileOrDir in Hmove.
  rewrite (Rename_child (with_root w r1) from to pf pt ef (remove_assoc n et) n m
             Hfrom1 Hto1 Hinc Hm (assoc_remove_eq n et)) in Hmove.
  cbn [root with_root mounts] in Hmove.
  assert (forall e : Errno,
            match copyDir fuel (from ++ [n]) (to ++ [n]) (with_root w r1) with
            | Some (w2', Some err2) => Some (w2', Some (fmt_Errorf_w "copy: %w" [] err2))
            | Some (w2', None) =>
                match os_RemoveAll (from ++ [n]) w2' with
                | (w3, Some err3) =>
                    Some (w3, Some (fmt_Errorf_w "remove source after copy: %w" [] err3))
                | (w3, None) => Some (w3, None)
                end
            | None => None
            end = Some (w2, None) ->
            same_process w w2 /\
            exists d, (d = m \/ plain d)
                      /\ get from (root w2) = Some (Dir pf (remove_assoc n ef))
                      /\ get to (root w2) = Some (Dir pt (set_assoc n d (remove_assoc n et))))
    as Hcopy.
  { intros _ Hc.
    destruct (copyDir fuel (from ++ [n]) (to ++ [n]) (with_root w r1))
      as [[w2' [err2|]]|] eqn:Hcd; try discriminate.
    destruct (copyDir_writes fuel (from ++ [n]) to n (with_root w r1) w2' None pt
                (remove_assoc n et) Hto1 ltac:(by rewrite assoc_remove_eq) Hcd)
      as [[Hsame Hw] Hdir].
    destruct (Hdir eq_refl) as (dp & des & Hdst). cbn [root with_root] in Hw.
    destruct Hw as [Hw|(d & Hd & Hw)].
    { rewrite Hw, (get_child to n r1 _ _ Hto1), assoc_remove_eq in Hdst. discriminate. }
    destruct (os_RemoveAll (from ++ [n]) w2') as [w3 [err3|]] eqn:Hrm; try discriminate.
    injection Hc as <-.
    assert (get from (root w2') = Some (Dir pf ef)) as Hfrom' by (rewrite Hw; apply Hfrom2).
    destruct (RemoveAll_child w2' from pf ef n w3 None Hfrom' Hrm) as [[_ ->]|[? _]];
      [|discriminate].
    cbn [root with_root]. split.
    - eapply same_process_trans; [apply same_process_with_root|].
      eapply same_process_trans; [exact Hsame | apply same_process_with_root].
    - exists d. split; [by right|]. split.
      + by apply (get_put_parent from n None).
      + rewrite Hto2, Hw. by apply (get_put_parent to n (Some d)). }
  revert Hmove.
  destruct (negb (path_eqb (device_of (mounts w) from) (device_of (mounts w) to)));
    [exact (Hcopy EXDEV)|].
  destruct (is_mount_point (mounts w) (from ++ [n]) || is_mount_point (mounts w) (to ++ [n]));
    [exact (Hcopy EBUSY)|].
  intros [= <-]. cbn [root with_root]. split.
  - eapply same_process_trans; apply same_process_with_root.
  - exists m. split; [by left|]. split.
    + rewrite get_put_frame by (by apply incomparable_child_l, incomparable_sym).
      by apply (get_put_parent from n None).
    + apply (get_put_parent to n (Some m)). by rewrite Hto2.
Qed.

Lemma is_metadata_split (n : string) :
  is_metadata n = strings_HasPrefix n ".git" && negb (String.eqb n ".gitignore").
Proof. reflexivity. Qed.


(** The flag of the loop is set by the entry named [.git] only. *)
Lemma moveGitMetadata_loop_flag (fuel : nat) (from to : path) (entries : list DirEntry) :
  ".git" ∉ map de_name entries ->
  forall (moved : bool) (w w' : world) (moved' : bool),
    moveGitMetadata_loop fuel from to entries moved w = Some (w', moved', None) ->
    moved' = moved.
Proof.
  induction entries as [|e rest IH]; intros Hno moved w w' moved' Hloop.
  - by injection Hloop as _ ->.
  - cbn [map] in Hno. apply not_elem_of_cons in Hno as [Hne Hno].
    cbn [moveGitMetadata_loop] in Hloop.
    destruct (negb (strings_HasPrefix (de_name e) ".git")); [by apply (IH Hno _ w w')|].
    destruct (String.eqb (de_name e) ".gitignore"); [by apply (IH Hno _ w w')|].
    destruct (os_RemoveAll (to ++ [de_name e]) w) as [w1 removed].
    destruct (match removed with
              | Some err => if negb (errors_Is_ErrNotExist err) then Some err else None
              | None => None
              end); [discriminate|].
    destruct (moveFileOrDir fuel (from ++ [de_name e]) (to ++ [de_name e]) w1)
      as [[w2 [err2|]]|]; try discriminate.
    destruct (String.eqb_spec (de_name e) ".git") as [Heq|_]; [congruence|].
    by apply (IH Hno _ w2 w').
Qed.


Lemma ReadDir_names (w : world) (dir : path) (perm : Z) (es : list (string * node)) :
  get dir (root w) = Some (Dir perm es) ->
  NoDup (map fst es) ->
  exists entries,
    os_ReadDir dir w = Ok entries
    /\ NoDup (map de_name entries)
    /\ (forall k, k ∈ map de_name entries <-> assoc k es <> None).
Proof.
  intros Hdir Hnd.
  assert (namei true (root w) dir = Found dir (Dir perm es)) as Hn
    by (apply namei_get; [exact Hdir | by right]).
  destruct (ReadDir_sorted w dir dir perm es Hn Hnd) as [Hrd _].
  exists (map entry_of (sort_Slice fst_less es)). split; [exact Hrd|].
  assert (map de_name (map entry_of (sort_Slice fst_less es)) =
          map fst (sort_Slice fst_less es)) as -> by (rewrite map_map; reflexivity).
  assert (Permutation (map fst (sort_Slice fst_less es)) (map fst es)) as Hp
    by apply Permutation_map, (sort_Slice_perm fst).
  split; [by rewrite Hp|].
  intros k. rewrite Hp. split.
  - intros Hk Ha. by apply assoc_None in Ha.
  - intros Ha. destruct (decide (k ∈ map fst es)) as [Hk|Hk]; [exact Hk|].
    by apply assoc_None in Hk.
Qed.



Lemma is_mount_point_nil (p : path) : is_mount_point [] p = false.
Proof. reflexivity. Qed.

(** On one device every entry is moved by the rename, and the loop of
    [moveGitMetadata] runs to its end, whatever the fuel. *)
Lemma moveGitMetadata_loop_one_device (fuel : nat) (from to : path) (pf pt : Z) :
  incomparable from to ->
  forall (entries : list DirEntry) (moved : bool) (w : world) (ef et : list (string * node)),
    get from (root w) = Some (Dir pf ef) ->
    get to (root w) = Some (Dir pt et) ->
    NoDup (map de_name entries) ->
    (forall e, e ∈ entries -> assoc (de_name e) ef <> None) ->
    mounts w = [] ->
    exists w' moved', moveGitMetadata_loop fuel from to entries moved w = Some (w', moved', None).
Proof.
  intros Hinc. induction entries as [|e rest IH]; intros moved w ef et Hfrom Hto Hnd Hin Hm.
  - by exists w, moved.
  - cbn [map] in Hnd. apply NoDup_cons in Hnd as [Hfresh Hnd].
    cbn [moveGitMetadata_loop].
    destruct (negb (strings_HasPrefix (de_name e) ".git"));
      [apply (IH _ w ef et); try done; intros e' He'; apply Hin; by right|].
    destruct (String.eqb (de_name e) ".gitignore");
      [apply (IH _ w ef et); try done; intros e' He'; apply Hin; by right|].
    destruct (assoc (de_name e) ef) as [m|] eqn:Ha; [|by destruct (Hin e ltac:(by left))].
    destruct (os_RemoveAll (to ++ [de_name e]) w) as [w1 removed] eqn:Hrm.
    destruct (RemoveAll_child w to pt et _ w1 removed Hto Hrm) as [[-> ->]|[_ Hmp]];
      [|by rewrite Hm in Hmp].
    set (r1 := put (to ++ [de_name e]) None (root w)) in *.
    assert (get from r1 = Some (Dir pf ef)) as Hfrom1.
    { unfold r1. rewrite get_put_frame; [exact Hfrom|].
      by apply incomparable_child_l, incomparable_sym. }
    assert (get to r1 = Some (Dir pt (remove_assoc (de_name e) et))) as Hto1
      by (by apply (get_put_parent to _ None)).
    destruct (moveFileOrDir fuel (from ++ [de_name e]) (to ++ [de_name e]) (with_root w r1))
      as [[w2 [err2|]]|] eqn:Hmv.
    1,3: exfalso; revert Hmv; unfold moveFileOrDir;
      rewrite (Rename_child (with_root w r1) from to pf pt ef _ _ m
                 Hfrom1 Hto1 Hinc Ha (assoc_remove_eq _ et));
      cbn [mounts with_root]; rewrite Hm; discriminate.
    destruct (move_entry fuel from to pf pt ef et _ m w _ w2 None Hfrom Hto Hinc Ha Hrm
                eq_refl Hmv) as ((_ & Hm2 & _) & d & _ & Hfrom2 & Hto2).
    apply (IH _ w2 _ _ Hfrom2 Hto2 Hnd); [|congruence].
    intros e' He'. rewrite assoc_remove_ne; [apply Hin; by right|].
    intros Heq. apply Hfresh. rewrite Heq.
    apply list_elem_of_In, in_map, list_elem_of_In, He'.
Qed.

(** C5.  When the clone has no entry named [.git], [moveGitMetadata] never
    returns [nil]: what it returns is an error; when the loop over the
    entries ran to its end, it is the error for the missing [.git]
    directory; and on one device, for a clone and a target that are
    directories of the tree, neither inside the other, the loop does run to
    its end and that error is returned, whatever the fuel. *)
Theorem moveGitMetadata_fails_without_git_dir (fuel : nat) (from to : path) (w : world) :
  (forall entries, os_ReadDir from w = Ok entries -> ".git" ∉ map de_name entries) ->
  (forall w' r, moveGitMetadata fuel from to w = Some (w', r) -> exists err, r = Some err)
  /\ (forall entries w1 moved,
        os_ReadDir from w = Ok entries ->
        moveGitMetadata_loop fuel from to entries false w = Some (w1, moved, None) ->
        moveGitMetadata fuel from to w = Some (w1, Some errNoGitDir))
  /\ (forall pf pt ef et,
        get from (root w) = Some (Dir pf ef) ->
        get to (root w) = Some (Dir pt et) ->
        incomparable from to ->
        NoDup (map fst ef) ->
        mounts w = [] ->
        exists w', moveGitMetadata fuel from to w = Some (w', Some errNoGitDir)).
Proof.
  intros Hno.
  assert (forall entries w1 moved,
            os_ReadDir from w = Ok entries ->
            moveGitMetadata_loop fuel from to entries false w = Some (w1, moved, None) ->
            moveGitMetadata fuel from to w = Some (w1, Some errNoGitDir)) as Hend.
  { intros entries w1 moved Hrd Hloop. unfold moveGitMetadata. rewrite Hrd, Hloop.
    by rewrite (moveGitMetadata_loop_flag fuel from to entries (Hno _ Hrd) _ _ _ _ Hloop). }
  split; [|split; [exact Hend|]].
  - intros w' r. unfold moveGitMetadata.
    destruct (os_ReadDir from w) as [entries|err] eqn:Hrd; [|intros [= _ <-]; by eexists].
    destruct (moveGitMetadata_loop fuel from to entries false w)
      as [[[w1 moved] [err|]]|] eqn:Hloop; [intros [= _ <-]; by eexists | |discriminate].
    rewrite (moveGitMetadata_loop_flag fuel from to entries (Hno _ eq_refl) _ _ _ _ Hloop).
    intros [= _ <-]. by eexists.
  - intros pf pt ef et Hfrom Hto Hinc Hnd Hm.
    destruct (ReadDir_names w from pf ef Hfrom Hnd) as (entries & Hrd & Hnames & Hmem).
    destruct (moveGitMetadata_loop_one_device fuel from to pf pt Hinc entries false w ef et
                Hfrom Hto Hnames) as (w' & moved' & Hloop); [|exact Hm|].
    + intros e He. apply Hmem, list_elem_of_In, in_map, list_elem_of_In, He.
    + exists w'. by apply (Hend entries w' moved').
Qed.

Lemma moveGitMetadata_without_git_dir_witness :
  exists w',
    moveGitMetadata 0 MoveExample.clone MoveExample.target MoveExample.bare =
      Some (w', Some errNoGitDir).
Proof.
  refine (proj2 (proj2 (moveGitMetadata_fails_without_git_dir
                          0 MoveExample.clone MoveExample.target MoveExample.bare _))
            493 493 MoveExample.bare_clone [("notes.md", File 420 "# notes")]
            eq_refl eq_refl (conj eq_refl eq_refl) _ eq_refl).
  - intros entries [= <-]. apply (bool_decide_unpack _). vm_compute. reflexivity.
  - apply (bool_decide_unpack _). vm_compute. reflexivity.
Defined.

Section CloneFacts.
Variable os_MkdirTemp : string -> string -> world -> world * res path.
Variable gh_gist_clone : string -> path -> world -> world * (option error * string).

(** The same for [cloneGistMetadata]: when the subprocess exits with status
    zero and leaves a clone without an entry named [.git], the
    reconciliation does not return [nil]. *)
Lemma cloneGistMetadata_fails_without_git_dir (fuel : nat) (gistID : string)
    (targetDir : path) (log : logger) (w w1 w2 : world) (tempParent : path)
    (output : string) :
  os_MkdirTemp "" "gh-gist-new-" w = (w1, Ok tempParent) ->
  gh_gist_clone gistID (tempParent ++ ["clone"]) w1 = (w2, (None, output)) ->
  (forall entries, os_ReadDir (tempParent ++ ["clone"]) w2 = Ok entries ->
                   ".git" ∉ map de_name entries) ->
  forall w' r,
    cloneGistMetadata os_MkdirTemp gh_gist_clone fuel gistID targetDir log w = Some (w', r) ->
    exists err, r = Some err.
Proof.
  intros Htemp Hclone Hno w' r. unfold cloneGistMetadata. rewrite Htemp, Hclone.
  set (w3 := if negb (String.eqb (strings_TrimSpace output) "") then _ else w2).
  assert (root w3 = root w2) as Hroot.
  { unfold w3. destruct (negb _); [|reflexivity].
    by destruct (same_files_Verbose log "gh gist clone output:\n%s"
                   [AStr (strings_TrimSpace output)] w2) as [-> _]. }
  destruct (moveGitMetadata fuel (tempParent ++ ["clone"]) targetDir w3)
    as [[w4 r4]|] eqn:Hmove; [|discriminate].
  assert (exists err, r4 = Some err) as [err ->].
  { revert Hmove. unfold moveGitMetadata.
    destruct (os_ReadDir (tempParent ++ ["clone"]) w3) as [entries|err] eqn:Hrd;
      [|intros [= _ <-]; by eexists].
    assert (".git" ∉ map de_name entries) as Hnone.
    { apply Hno. revert Hrd. unfold os_ReadDir. by rewrite Hroot. }
    destruct (moveGitMetadata_loop fuel (tempParent ++ ["clone"]) targetDir entries false w3)
      as [[[w5 moved] [err|]]|] eqn:Hloop; [intros [= _ <-]; by eexists | |discriminate].
    rewrite (moveGitMetadata_loop_flag fuel _ _ entries Hnone _ _ _ _ Hloop).
    intros [= _ <-]. by eexists. }
  intros [= _ <-]. by eexists.
Qed.

End CloneFacts.

(** ** The wire format *)

Lemma byte_val_range (c : ascii) : 0 <= byte_val c < 256.
Proof. unfold byte_val. pose proof (N_ascii_bounded c). lia. Qed.

Lemma byte_of_val (c : ascii) : byte_of (byte_val c) = c.
Proof. unfold byte_of, byte_val. by rewrite N2Z.id, ascii_N_embedding. Qed.

Lemma byte_val_inj (c : ascii) (n : Z) : byte_val c = n -> c = byte_of n.
Proof. intros <-. by rewrite byte_of_val. Qed.

Lemma lor_shiftl_add (x y k : Z) :
  0 <= x -> 0 <= k -> 0 <= y < 2 ^ k -> Z.lor (Z.shiftl x k) y = x * 2 ^ k + y.
Proof.
  intros Hx Hk Hy.
  assert (Z.land (Z.shiftl x k) y = 0) as Hland.
  { apply Z.bits_inj'. intros n Hn. rewrite Z.land_spec, Z.bits_0.
    destruct (Z.ltb_spec n k) as [Hlt|Hge].
    - rewrite Z.shiftl_spec by lia. by rewrite Z.testbit_neg_r by lia.
    - destruct (Z.eqb_spec y 0) as [->|Hy0]; [by rewrite Z.bits_0, andb_false_r|].
      rewrite (Z.bits_above_log2 y n), andb_false_r; [reflexivity | lia |].
      apply Z.log2_lt_pow2; [lia|]. eapply Z.lt_le_trans; [apply Hy|].
      apply Z.pow_le_mono_r; lia. }
  by rewrite <- Z.lxor_lor, <- Z.add_nocarry_lxor, Z.shiftl_mul_pow2.
Qed.

Lemma lor_mul_add (x y m : Z) (k : Z) :
  0 <= k -> m = 2 ^ k -> 0 <= x -> 0 <= y < m -> Z.lor (x * m) y = x * m + y.
Proof.
  intros Hk -> Hx Hy. rewrite <- (lor_shiftl_add x y k) by done.
  by rewrite Z.shiftl_mul_pow2.
Qed.

Lemma land_mask (b k : Z) : 0 <= k -> Z.land b (2 ^ k - 1) = b mod 2 ^ k.
Proof. intros Hk. rewrite <- Z.land_ones by lia. by rewrite Z.ones_equiv, <- Z.sub_1_r. Qed.

(** The valid encodings of several bytes, in arithmetic. *)
Lemma decode_valid_cases (c0 : ascii) (s1 : string) :
  128 <= byte_val c0 ->
  invalid_rune (utf8_DecodeRune (String c0 s1)) = false ->
  (exists c1 s2, s1 = String c1 s2
      /\ 194 <= byte_val c0 <= 223 /\ 128 <= byte_val c1 <= 191
      /\ utf8_DecodeRune (String c0 s1) =
           ((byte_val c0 - 192) * 64 + (byte_val c1 - 128), 2%nat))
  \/ (exists c1 c2 s3, s1 = String c1 (String c2 s3)
      /\ 224 <= byte_val c0 <= 239 /\ 128 <= byte_val c1 <= 191 /\ 128 <= byte_val c2 <= 191
      /\ (byte_val c0 = 224 -> 160 <= byte_val c1)
      /\ (byte_val c0 = 237 -> byte_val c1 <= 159)
      /\ utf8_DecodeRune (String c0 s1) =
           ((byte_val c0 - 224) * 4096 + (byte_val c1 - 128) * 64 + (byte_val c2 - 128),
            3%nat))
  \/ (exists c1 c2 c3 s4, s1 = String c1 (String c2 (String c3 s4))
      /\ 240 <= byte_val c0 <= 244 /\ 128 <= byte_val c1 <= 191 /\ 128 <= byte_val c2 <= 191
      /\ 128 <= byte_val c3 <= 191
      /\ (byte_val c0 = 240 -> 144 <= byte_val c1)
      /\ (byte_val c0 = 244 -> byte_val c1 <= 143)
      /\ utf8_DecodeRune (String c0 s1) =
           ((byte_val c0 - 240) * 262144 + (byte_val c1 - 128) * 4096
            + (byte_val c2 - 128) * 64 + (byte_val c3 - 128), 4%nat)).
Proof.
  intros H0. pose proof (byte_val_range c0) as R0.
  unfold utf8_DecodeRune. destruct (Z.ltb_spec (byte_val c0) 128) as [?|_]; [lia|].
  assert (forall b m k, 0 <= k -> m = 2 ^ k - 1 -> Z.land b m = b mod 2 ^ k) as Hmask
    by (intros b m k Hk ->; by apply land_mask).
  unfold utf8_first.
  repeat match goal with
         | |- context [if ?c then _ else _] =>
             match c with
             | context [byte_val c0] => destruct c eqn:?
             end
         end;
    try (intros Hinv; discriminate Hinv).
  all: destruct s1 as [|c1 s2]; try (intros Hinv; discriminate Hinv).
  all: pose proof (byte_val_range c1) as R1.
  all: match goal with
       | |- context [if ?c then _ else _] => destruct c eqn:Hc1
       end; try (intros Hinv; discriminate Hinv).
  all: cbn [Nat.leb].
  all: try (destruct s2 as [|c2 s3]; [intros Hinv; discriminate Hinv|];
            pose proof (byte_val_range c2) as R2; unfold continuation;
            match goal with
            | |- context [if negb ?c then _ else _] => destruct c eqn:Hc2
            end; cbn [negb]; [|intros Hinv; discriminate Hinv]).
  all: try (destruct s3 as [|c3 s4]; [intros Hinv; discriminate Hinv|];
            pose proof (byte_val_range c3) as R3;
            match goal with
            | |- context [if negb ?c then _ else _] => destruct c eqn:Hc3
            end; cbn [negb]; [|intros Hinv; discriminate Hinv]).
  all: intros _.
  all: rewrite ?(Hmask _ 31 5), ?(Hmask _ 63 6), ?(Hmask _ 15 4), ?(Hmask _ 7 3) by done.
  all: rewrite ?Z.shiftl_mul_pow2 by lia.
  all: change (2 ^ 3) with 8; change (2 ^ 4) with 16; change (2 ^ 5) with 32;
    change (2 ^ 6) with 64; change (2 ^ 12) with 4096; change (2 ^ 18) with 262144.
  all: apply andb_prop in Heqb || apply Z.eqb_eq in Heqb || idtac.
  all: try (apply orb_false_elim in Hc1 as [Hlo Hhi]).
  all: try (apply andb_prop in Hc2 as [Hlo2 Hhi2]).
  all: try (apply andb_prop in Hc3 as [Hlo3 Hhi3]).
  all: first
    [ left; exists c1, s2; split; [reflexivity|]
    | right; left; exists c1, c2, s3; split; [reflexivity|]
    | right; right; exists c1, c2, c3, s4; split; [reflexivity|] ].
  all: rewrite ?(lor_mul_add _ _ 64 6), ?(lor_mul_add _ _ 4096 12),
         ?(lor_mul_add _ _ 262144 18)
      by (try done; Z.div_mod_to_equations; lia).
  all: repeat split; try lia; try f_equal; Z.div_mod_to_equations; lia.
Qed.

(** A valid encoding of several bytes is the encoding [utf8.EncodeRune]
    gives its rune. *)
Lemma decode_encode (c0 : ascii) (s1 : string) :
  128 <= byte_val c0 ->
  invalid_rune (utf8_DecodeRune (String c0 s1)) = false ->
  str_take (snd (utf8_DecodeRune (String c0 s1))) (String c0 s1) =
  utf8_EncodeRune (fst (utf8_DecodeRune (String c0 s1))).
Proof.
  intros H0 Hv.
  destruct (decode_valid_cases c0 s1 H0 Hv)
    as [(c1 & s2 & -> & R0 & R1 & ->)
       |[(c1 & c2 & s3 & -> & R0 & R1 & R2 & Lo & Hi & ->)
        |(c1 & c2 & c3 & s4 & -> & R0 & R1 & R2 & R3 & Lo & Hi & ->)]];
    cbn [fst snd str_take]; unfold utf8_EncodeRune;
    repeat match goal with
           | |- context [if ?c then _ else _] =>
               let Hc := fresh "Hc" in destruct c eqn:Hc; try lia
           end;
    repeat f_equal; apply byte_val_inj;
    rewrite ?Z.shiftr_div_pow2 by lia;
    change 63 with (2 ^ 6 - 1); rewrite ?land_mask by lia;
    change (2 ^ 6) with 64; change (2 ^ 12) with 4096; change (2 ^ 18) with 262144.
  all: change 192 with (3 * 64); change 128 with (2 * 64); change 224 with (14 * 16);
    change 240 with (30 * 8).
  all: rewrite ?(lor_mul_add _ _ 64 6), ?(lor_mul_add _ _ 16 4), ?(lor_mul_add _ _ 8 3)
      by (try done; Z.div_mod_to_equations; lia).
  all: Z.div_mod_to_equations; lia.
Qed.

Lemma append_nil (b : string) : EmptyString +:+ b = b.
Proof. reflexivity. Qed.

Lemma append_cons (x : ascii) (a b : string) : String x a +:+ b = String x (a +:+ b).
Proof. reflexivity. Qed.

Lemma append_assoc (a b c : string) : (a +:+ b) +:+ c = a +:+ (b +:+ c).
Proof.
  induction a as [|x a IH]; [reflexivity|]. rewrite !append_cons. by f_equal.
Qed.

Lemma prepend_prepend (a b : string) (r : option (string * string)) :
  prepend a (prepend b r) = prepend (a +:+ b) r.
Proof.
  destruct r as [[body rest]|]; cbn [prepend]; [|reflexivity]. by rewrite append_assoc.
Qed.

Lemma str_take_drop (n : nat) (s : string) : str_take n s +:+ str_drop n s = s.
Proof.
  revert s. induction n as [|n IH]; intros [|c s]; try reflexivity.
  cbn [str_take str_drop]. by rewrite append_cons, IH.
Qed.

Lemma str_drop_length (n : nat) (c : ascii) (s : string) :
  (1 <= n)%nat -> (String.length (str_drop n (String c s)) <= String.length s)%nat.
Proof.
  intros Hn. destruct n as [|n]; [lia|]. simpl. clear Hn. revert s.
  induction n as [|n IH]; intros [|d s]; simpl; try lia. specialize (IH s). lia.
Qed.

(** The reader copies a byte that is not ASCII. *)
Lemma parse_high (c : ascii) (tail : string) :
  128 <= byte_val c ->
  parse_string_body (String c tail) = prepend (String c EmptyString) (parse_string_body tail).
Proof.
  intros Hc. cbn [parse_string_body].
  destruct (Ascii.eqb_spec c dquote) as [->|_]; [vm_compute in Hc; by destruct Hc|].
  destruct (Ascii.eqb_spec c backslash) as [->|_]; [vm_compute in Hc; by destruct Hc|].
  destruct (Z.ltb_spec (byte_val c) 32); [lia | reflexivity].
Qed.

(** The reader undoes what the writer does to an ASCII byte. *)
Lemma parse_ascii (c : ascii) (tail : string) :
  (byte_val c <? 128) = true ->
  parse_string_body
    ((if htmlSafe (byte_val c) then String c EmptyString else escape_ascii c) +:+ tail) =
  prepend (String c EmptyString) (parse_string_body tail).
Proof.
  destruct c as [[] [] [] [] [] [] [] []]; intros Hc; try discriminate Hc;
    reflexivity.
Qed.

Lemma parse_replacement (tail : string) :
  parse_string_body (String backslash "ufffd" +:+ tail) =
  prepend (utf8_EncodeRune RuneError) (parse_string_body tail).
Proof. reflexivity. Qed.

Lemma parse_line_separator (r : Z) (tail : string) :
  r = 8232 \/ r = 8233 ->
  parse_string_body
    (String backslash "u202" +:+ String (hex_digit (Z.land r 15)) EmptyString +:+ tail) =
  prepend (utf8_EncodeRune r) (parse_string_body tail).
Proof. intros [->| ->]; reflexivity. Qed.

Lemma parse_valid_multibyte (c0 : ascii) (s1 tail : string) :
  128 <= byte_val c0 ->
  invalid_rune (utf8_DecodeRune (String c0 s1)) = false ->
  (1 <= snd (utf8_DecodeRune (String c0 s1)))%nat
  /\ parse_string_body
       (str_take (snd (utf8_DecodeRune (String c0 s1))) (String c0 s1) +:+ tail) =
     prepend (str_take (snd (utf8_DecodeRune (String c0 s1))) (String c0 s1))
       (parse_string_body tail).
Proof.
  intros H0 Hv.
  destruct (decode_valid_cases c0 s1 H0 Hv)
    as [(c1 & s2 & -> & R0 & R1 & ->)
       |[(c1 & c2 & s3 & -> & R0 & R1 & R2 & Lo & Hi & ->)
        |(c1 & c2 & c3 & s4 & -> & R0 & R1 & R2 & R3 & Lo & Hi & ->)]];
    cbn [fst snd str_take]; (split; [lia|]);
    rewrite ?append_cons, ?append_nil, !parse_high by lia;
    by rewrite !prepend_prepend, ?append_cons, ?append_nil.
Qed.

(** What the reader gets from the body the writer wrote: the string, with
    U+FFFD for every byte that does not start a valid encoding. *)
Lemma parse_appendString_body (fuel : nat) (s rest : string) :
  (String.length s <= fuel)%nat ->
  parse_string_body (appendString_body fuel s +:+ String dquote rest) =
  Some (utf8_coerce_fuel fuel s, rest).
Proof.
  revert s. induction fuel as [|fuel IH]; intros [|c s] Hlen; simpl in Hlen; try lia;
    try reflexivity.
  cbn [appendString_body utf8_coerce_fuel].
  destruct (Z.ltb_spec (byte_val c) 128) as [Hlow|Hhigh].
  - rewrite append_assoc, parse_ascii by (by apply Z.ltb_lt).
    rewrite IH by lia.
    assert (utf8_DecodeRune (String c s) = (byte_val c, 1%nat)) as ->
      by (unfold utf8_DecodeRune; by destruct (Z.ltb_spec (byte_val c) 128); [|lia]).
    assert (invalid_rune (byte_val c, 1%nat) = false) as ->.
    { unfold invalid_rune. cbn [fst]. destruct (Z.eqb_spec (byte_val c) RuneError) as [E|_];
        [unfold RuneError in E; lia | reflexivity]. }
    reflexivity.
  - destruct (invalid_rune (utf8_DecodeRune (String c s))) eqn:Hinv.
    + rewrite append_assoc, parse_replacement, IH by (cbn; lia). reflexivity.
    + destruct (parse_valid_multibyte c s
                  (appendString_body fuel
                     (str_drop (snd (utf8_DecodeRune (String c s))) (String c s))
                   +:+ String dquote rest) Hhigh Hinv) as [Hn Hraw].
      pose proof (str_drop_length _ c s Hn) as Hdrop.
      destruct ((fst (utf8_DecodeRune (String c s)) =? 8232)
                || (fst (utf8_DecodeRune (String c s)) =? 8233)) eqn:Hsep.
      * assert (fst (utf8_DecodeRune (String c s)) = 8232
                \/ fst (utf8_DecodeRune (String c s)) = 8233) as Hr by lia.
        rewrite !append_assoc, (parse_line_separator _ _ Hr), IH by lia.
        cbn [prepend]. by rewrite decode_encode.
      * rewrite append_assoc, Hraw, IH by lia. reflexivity.
Qed.

Lemma utf8_coerce_valid (fuel : nat) (s : string) :
  utf8_Valid_fuel fuel s = true -> utf8_coerce_fuel fuel s = s.
Proof.
  revert s. induction fuel as [|fuel IH]; intros [|c s]; try reflexivity; try discriminate.
  cbn [utf8_Valid_fuel utf8_coerce_fuel].
  destruct (invalid_rune (utf8_DecodeRune (String c s))); [discriminate|].
  intros Hv. by rewrite (IH _ Hv), str_take_drop.
Qed.

Lemma append_length (a b : string) :
  String.length (a +:+ b) = (String.length a + String.length b)%nat.
Proof. induction a as [|x a IH]; [done|]. rewrite append_cons. cbn. by rewrite IH. Qed.

(** A string the writer printed, read back. *)
Lemma parse_appendString (fuel : nat) (s rest : string) :
  parse_value (S fuel) (appendString s +:+ rest) = Some (JString (utf8_coerce s), rest).
Proof.
  unfold appendString. rewrite append_assoc, !append_cons, append_nil.
  cbn [parse_value]. change (Ascii.eqb dquote dquote) with true. cbn match.
  by rewrite parse_appendString_body.
Qed.

Lemma parse_key (s rest : string) :
  parse_string_body (str_drop 1 (appendString s) +:+ rest) = Some (utf8_coerce s, rest).
Proof.
  unfold appendString. rewrite append_cons. cbn [str_drop].
  rewrite append_assoc, append_cons, append_nil.
  by rewrite parse_appendString_body.
Qed.

Lemma appendString_head (s : string) :
  appendString s = String dquote (str_drop 1 (appendString s)).
Proof. unfold appendString. by rewrite append_cons. Qed.

Lemma json_print_head (j : json) :
  exists c t, json_print j = String c t /\ Ascii.eqb c "}" = false.
Proof.
  destruct j as [|[]|s|ms]; cbn [json_print]; by eexists _, _.
Qed.

Lemma parse_fuel_pos (j : json) : (1 <= parse_fuel j)%nat.
Proof. destruct j; cbn; lia. Qed.

Lemma members_fuel_cons (k : string) (v : json) (ms : list (string * json)) :
  members_fuel ((k, v) :: ms) = (S (parse_fuel v) + members_fuel ms)%nat.
Proof. reflexivity. Qed.

(** A value the writer printed, read back, and the members of an object. *)
Lemma parse_json_print (fuel : nat) :
  (forall j rest, (parse_fuel j <= fuel)%nat ->
     parse_value fuel (json_print j +:+ rest) = Some (json_coerce j, rest))
  /\ (forall k v ms rest, (members_fuel ((k, v) :: ms) <= fuel)%nat ->
        parse_members fuel (print_members (print_each ((k, v) :: ms)) +:+ rest) =
        Some (coerce_each ((k, v) :: ms), rest)).
Proof.
  induction fuel as [|fuel [IHv IHm]].
  { split; [intros j rest Hj; pose proof (parse_fuel_pos j); lia|].
    intros k v ms rest. cbn. lia. }
  split.
  - intros [|[]|s|ms] rest Hj; try reflexivity.
    + apply parse_appendString.
    + cbn [json_print json_coerce parse_fuel] in *.
      fold (print_each ms). fold (coerce_each ms). fold (members_fuel ms) in Hj.
      destruct ms as [|[k v] ms]; [reflexivity|].
      rewrite !append_cons, append_nil.
      assert (exists t, print_members (print_each ((k, v) :: ms)) +:+ rest = String dquote t)
        as [t Ht].
      { cbn [print_each map print_members]. rewrite appendString_head, !append_cons.
        by eexists. }
      pose proof (IHm k v ms rest ltac:(lia)) as Hms. rewrite Ht in *.
      cbn [parse_value]. change (Ascii.eqb "{" dquote) with false.
      change (Ascii.eqb "{" "{") with true. change (Ascii.eqb dquote "}") with false.
      cbn match. by rewrite Hms.
  - intros k v ms rest Hm.
    rewrite members_fuel_cons in Hm.
    cbn [print_each map print_members]. fold (print_each ms).
    rewrite (appendString_head k), !append_cons.
    cbn [parse_members]. change (Ascii.eqb dquote dquote) with true. cbn match.
    rewrite !append_assoc, parse_key, !append_cons, append_nil.
    change (Ascii.eqb ":" ":") with true. cbn match.
    rewrite ?append_assoc, IHv by lia.
    destruct ms as [|[k' v'] ms].
    + cbn [print_each map]. rewrite append_cons, append_nil. reflexivity.
    + pose proof (IHm k' v' ms rest ltac:(rewrite members_fuel_cons in *; lia)) as Hms.
      cbn [print_each map] in *. rewrite !append_cons, !append_nil.
      change (Ascii.eqb "," ",") with true. cbn match.
      by rewrite Hms.
Qed.

Lemma append_nil_r (a : string) : a +:+ EmptyString = a.
Proof. induction a as [|x a IH]; [done|]. by rewrite append_cons, IH. Qed.

(** Induction on a value, with the hypothesis for the values of an object's
    members. *)
Lemma json_members_ind (P : json -> Prop) :
  P JNull -> (forall b, P (JBool b)) -> (forall s, P (JString s)) ->
  (forall ms, Forall (fun kv => P (snd kv)) ms -> P (JObject ms)) ->
  forall j, P j.
Proof.
  intros Hnull Hbool Hstr Hobj.
  fix F 1. intros [|b|s|ms]; [exact Hnull | apply Hbool | apply Hstr |].
  apply Hobj. induction ms as [|[k v] ms IH]; constructor; [apply F | exact IH].
Qed.

Lemma appendString_length (s : string) : (2 <= String.length (appendString s))%nat.
Proof. unfold appendString. rewrite append_cons. cbn [String.length]. rewrite append_length. cbn. lia. Qed.

(** The text of a value is longer than the fuel its reading takes. *)
Lemma parse_fuel_length (j : json) : (parse_fuel j <= String.length (json_print j))%nat.
Proof.
  induction j as [|[]|s|ms IH] using json_members_ind; cbn [parse_fuel json_print];
    try (cbn; lia).
  - pose proof (appendString_length s). lia.
  - fold (members_fuel ms). fold (print_each ms).
    rewrite append_cons, append_nil. cbn [String.length].
    apply le_n_S.
    induction IH as [|[k v] ms Hv _ IH]; [cbn; lia|].
    rewrite members_fuel_cons. cbn [print_each map print_members]. fold (print_each ms).
    rewrite !append_length. pose proof (appendString_length k).
    cbn [snd] in Hv.
    destruct ms as [|kv ms]; [cbn in *; lia|].
    cbn [print_each map] in *. rewrite append_length. cbn [String.length]. lia.
Qed.

(** Text written and read back: the value, with U+FFFD for what is not UTF-8. *)
Lemma parse_value_json_print (j : json) :
  parse_value (S (String.length (json_print j))) (json_print j) = Some (json_coerce j, EmptyString).
Proof.
  rewrite <- (append_nil_r (json_print j)) at 2.
  apply parse_json_print. pose proof (parse_fuel_length j). lia.
Qed.

(** ** GistUploader *)

Lemma files_of_json_coerced (l : list (string * gistFile)) (acc : gmap string gistFile) :
  fold_left (fun acc kv =>
               match acc, file_of_json (snd kv) with
               | Some m, Some f => Some (<[fst kv := f]> m)
               | _, _ => None
               end)
    (map (fun '(k, v) => (utf8_coerce k, json_coerce v)) (map file_json l)) (Some acc) =
  Some (fold_left (fun m kv => <[utf8_coerce (fst kv) := mkGistFile (utf8_coerce (gf_Content (snd kv)))]> m)
          l acc).
Proof.
  revert acc. induction l as [|[k f] l IH]; intros acc; [reflexivity|].
  cbn [map fold_left file_json fst snd json_coerce]. rewrite <- IH. reflexivity.
Qed.

(** The remote reads what [json.Marshal] wrote as the request, with U+FFFD
    for every byte of a description, a name or a content that is not UTF-8. *)
Lemma json_Unmarshal_Marshal (req : gistCreateRequest) :
  json_Unmarshal (json_Marshal req) = Some (request_coerce req).
Proof.
  unfold json_Unmarshal, json_Marshal. rewrite parse_value_json_print.
  unfold request_json, request_coerce.
  fold file_json.
  set (l := sort_Slice key_less (map_to_list (Files req))).
  destruct (String.eqb_spec (Description req) "") as [->|Hne];
    cbn [app json_coerce map request_of_json fold_left fst snd].
  - change (utf8_coerce "public") with "public"%string.
    change (utf8_coerce "files") with "files"%string.
    cbn [String.eqb Ascii.eqb Bool.eqb fst snd Public Description Files].
    unfold files_of_json. rewrite files_of_json_coerced. reflexivity.
  - change (utf8_coerce "public") with "public"%string.
    change (utf8_coerce "files") with "files"%string.
    change (utf8_coerce "description") with "description"%string.
    cbn [String.eqb Ascii.eqb Bool.eqb fst snd Public Description Files].
    unfold files_of_json. rewrite files_of_json_coerced. reflexivity.
Qed.

Lemma utf8_coerce_Valid (s : string) : utf8_Valid s = true -> utf8_coerce s = s.
Proof. apply utf8_coerce_valid. Qed.

(** Insertions in the order of a list without duplicate keys make the map of the list. *)
Lemma fold_insert_list_to_map {V : Type} (l : list (string * V)) (acc : gmap string V) :
  NoDup (map fst l) ->
  fold_left (fun m kv => <[fst kv := snd kv]> m) l acc = list_to_map l ∪ acc.
Proof.
  revert acc. induction l as [|[k v] l IH]; intros acc Hnd.
  { cbn. by rewrite (left_id_L ∅ (∪)). }
  cbn [map fst] in Hnd. apply NoDup_cons in Hnd as [Hk Hnd].
  cbn [fold_left list_to_map foldr fst snd uncurry]. rewrite IH by done.
  rewrite <- insert_union_r, insert_union_l; [done|].
  apply not_elem_of_list_to_map_1. exact Hk.
Qed.

Lemma fold_insert_coerced (l : list (string * gistFile)) (acc : gmap string gistFile) :
  Forall (fun kv => utf8_Valid (fst kv) = true /\ utf8_Valid (gf_Content (snd kv)) = true) l ->
  fold_left (fun m kv => <[utf8_coerce (fst kv) := mkGistFile (utf8_coerce (gf_Content (snd kv)))]> m)
    l acc =
  fold_left (fun m kv => <[fst kv := snd kv]> m) l acc.
Proof.
  intros Hl. revert acc. induction Hl as [|[k [c]] l [Hk Hc] _ IH]; intros acc; [done|].
  cbn [fold_left fst snd gf_Content] in *.
  by rewrite (utf8_coerce_Valid _ Hk), (utf8_coerce_Valid _ Hc), IH.
Qed.

(** A request whose names and contents are UTF-8 keeps its files. *)
Lemma request_coerce_Files (req : gistCreateRequest) :
  map_Forall (fun k f => utf8_Valid k = true /\ utf8_Valid (gf_Content f) = true) (Files req) ->
  Files (request_coerce req) = Files req.
Proof.
  intros Hv. unfold request_coerce. cbn [Files].
  assert (sort_Slice key_less (map_to_list (Files req)) ≡ₚ map_to_list (Files req)) as Hperm
    by apply (sort_Slice_perm fst).
  assert (NoDup (map fst (sort_Slice key_less (map_to_list (Files req))))) as Hnd
    by (rewrite Hperm; apply NoDup_fst_map_to_list).
  rewrite fold_insert_coerced.
  - rewrite fold_insert_list_to_map by exact Hnd.
    rewrite (right_id_L ∅ (∪)), (list_to_map_proper _ _ Hnd Hperm).
    apply list_to_map_to_list.
  - apply Forall_forall. intros [k f] Hin. rewrite Hperm in Hin.
    apply elem_of_map_to_list in Hin. exact (Hv k f Hin).
Qed.

(** The files of the request [createGist] builds, for distinct names. *)
Lemma createGist_request_Files (files : list filePayload) (opts : options) :
  NoDup (map Name files) ->
  Files (createGist_request files opts) = list_to_map (map payload_entry files).
Proof.
  intros Hnd. unfold createGist_request. cbn [Files].
  rewrite <- (right_id_L ∅ (∪) (list_to_map _)).
  rewrite <- fold_insert_list_to_map by (by rewrite map_map).
  generalize (∅ : gmap string gistFile).
  clear Hnd. induction files as [|f files IH]; intros acc; [done|].
  cbn [fold_left map]. apply IH.
Qed.

(** What [createGist] sends once the client is there: one request to
    [gists], the text [json.Marshal] makes of the request built from the
    payloads. *)
Lemma createGist_posts_request
    (client : world -> option error)
    (remote : list (string * string) -> string -> string -> res gistCreateResponse)
    (files : list filePayload) (opts : options) (log : logger) (w : world) :
  client w = None ->
  posted (fst (createGist client remote files opts log w)) =
  posted w ++ [("gists", json_Marshal (createGist_request files opts))].
Proof.
  intros Hclient. unfold createGist. rewrite Hclient.
  destruct (remote _ _ _) as [resp|err]; [|reflexivity].
  by destruct (String.eqb (ID resp) "" || String.eqb (HTMLURL resp) "").
Qed.

Lemma payload_entry_lookup (files : list filePayload) (k : string) (g : gistFile) :
  (list_to_map (map payload_entry files) : gmap string gistFile) !! k = Some g ->
  exists f, f ∈ files /\ Name f = k /\ g = mkGistFile (Content f).
Proof.
  intros Hl. apply elem_of_list_to_map_2, list_elem_of_In, in_map_iff in Hl.
  destruct Hl as (f & E & Hf). injection E as <- <-.
  exists f. by rewrite list_elem_of_In.
Qed.

(** C3, amended: for payloads with pairwise distinct names whose names and
    contents are UTF-8, the request [createGist] builds, written by
    [json.Marshal] and read back by the remote, has exactly as many files as
    there are payloads, one under each payload's name, each with the bytes
    of its payload's content. *)
Theorem createGist_request_round_trips (files : list filePayload) (opts : options) :
  NoDup (map Name files) -> Forall utf8_payload files -> round_trips files opts.
Proof.
  intros Hnd Hv. exists (request_coerce (createGist_request files opts)).
  split; [apply json_Unmarshal_Marshal|].
  pose proof (createGist_request_Files files opts Hnd) as HF.
  assert (NoDup (map fst (map payload_entry files))) as Hnd' by (by rewrite map_map).
  rewrite request_coerce_Files, HF.
  - split; [|split].
    + rewrite (map_size_list_to_map _ Hnd'). apply length_map.
    + intros f Hf. apply elem_of_list_to_map_1; [exact Hnd'|].
      apply list_elem_of_In, in_map_iff. exists f. by rewrite <- list_elem_of_In.
    + intros k g Hl. destruct (payload_entry_lookup _ _ _ Hl) as (f & Hf & Hk & ->).
      by exists f.
  - rewrite HF. intros k g Hl.
    destruct (payload_entry_lookup _ _ _ Hl) as (f & Hf & <- & ->).
    rewrite Forall_forall in Hv. exact (Hv f Hf).
Qed.

Lemma createGist_request_round_trips_witness :
  round_trips RequestExample.texts RequestExample.secret.
Proof.
  apply createGist_request_round_trips.
  - apply (bool_decide_unpack _). vm_compute. reflexivity.
  - repeat constructor.
Defined.

(** ** [strings.TrimSpace] on ASCII *)

Lemma all_ascii_trim_left (s : string) : all_ascii s = true -> all_ascii (trim_left s) = true.
Proof.
  induction s as [|c s IH]; [done|]. cbn [all_ascii trim_left]. intros H.
  destruct (is_space c); [|exact H]. apply andb_prop in H as [_ H]. by apply IH.
Qed.

Lemma all_ascii_trim_right (s : string) : all_ascii s = true -> all_ascii (trim_right s) = true.
Proof.
  induction s as [|c s IH]; [done|]. cbn [all_ascii trim_right]. intros H.
  apply andb_prop in H as [Hc H]. specialize (IH H).
  destruct (trim_right s) as [|d t].
  - destruct (is_space c); [done|]. cbn [all_ascii]. by rewrite Hc.
  - cbn [all_ascii] in *. by rewrite Hc, IH.
Qed.

Lemma all_ascii_byte_at (s : string) (i : nat) : all_ascii s = true -> byte_at i s < 128.
Proof.
  revert i. induction s as [|c s IH]; intros i H; [by destruct i|].
  cbn [all_ascii] in H. apply andb_prop in H as [Hc H]. unfold byte_at in *.
  destruct i as [|i]; cbn [String.get]; [by apply Z.ltb_lt | by apply IH].
Qed.

(** On a string of ASCII bytes the function is the trimming of the bytes
    at both ends. *)
Lemma strings_TrimSpace_full_ascii (s : string) :
  all_ascii s = true -> strings_TrimSpace_full s = strings_TrimSpace s.
Proof.
  intros H. unfold strings_TrimSpace_full, strings_TrimSpace.
  pose proof (all_ascii_trim_left s H) as H1.
  destruct (trim_left s) as [|c s1] eqn:Hs; [reflexivity|].
  pose proof H1 as H1'. cbn [all_ascii] in H1'. apply andb_prop in H1' as [Hc _].
  apply Z.ltb_lt in Hc. destruct (Z.leb_spec 128 (byte_val c)); [lia|].
  pose proof (all_ascii_trim_right _ H1) as H2.
  assert (last_byte (trim_right (String c s1)) < 128) as Hlast.
  { unfold last_byte. destruct (String.length _); [lia|]. by apply all_ascii_byte_at. }
  by destruct (Z.leb_spec 128 (last_byte (trim_right (String c s1)))); [lia|].
Qed.

(** ** The command line *)

(** [FlagSet.Parse] leaves a suffix of the arguments. *)
Lemma flag_Parse_suffix (n : nat) :
  forall (args : list string) (vars vars' : flagVars) (remaining : list string),
    (length args <= n)%nat ->
    flag_Parse vars args = Parsed vars' remaining ->
    exists flags, args = flags ++ remaining.
Proof.
  induction n as [|n IH]; intros args vars vars' remaining Hlen Hparse.
  { destruct args; [|simpl in Hlen; lia]. injection Hparse as <- <-. by exists []. }
  destruct args as [|s rest]; [injection Hparse as <- <-; by exists []|].
  simpl in Hlen. cbn [flag_Parse] in Hparse. unfold failf in Hparse.
  assert (forall vars0 : flagVars, flag_Parse vars0 rest = Parsed vars' remaining ->
            exists flags, s :: rest = flags ++ remaining) as Hrest.
  { intros vars0 H. destruct (IH rest vars0 vars' remaining ltac:(lia) H) as [flags ->].
    by exists (s :: flags). }
  assert (forall (vars0 : flagVars) v rest', rest = v :: rest' ->
            flag_Parse vars0 rest' = Parsed vars' remaining ->
            exists flags, s :: rest = flags ++ remaining) as Hrest2.
  { intros vars0 v rest' -> H.
    destruct (IH rest' vars0 vars' remaining ltac:(simpl in Hlen; lia) H) as [flags ->].
    by exists (s :: v :: flags). }
  repeat match type of Hparse with
         | Parsed _ _ = Parsed _ _ => injection Hparse as <- <-
         | ParseError _ = _ => discriminate Hparse
         | (let (_, _) := ?x in _) = _ => destruct x eqn:?
         | (match ?x with _ => _ end) = _ => destruct x eqn:?
         | (if ?x then _ else _) = _ => destruct x eqn:?
         end;
    try (by exists []); try (eexists [_]; reflexivity); eauto.
Qed.

Lemma parseArgs_Ok (args : list string) (out : list string) (opts : options) :
  parseArgs args = (out, Ok opts) ->
  out = []
  /\ opt_name opts = strings_TrimSpace_full (List.last args "")
  /\ validateName (opt_name opts) = None.
Proof.
  unfold parseArgs. destruct (flag_Parse _ args) as [vars remaining|err] eqn:Hparse.
  2:{ destruct (errors_Is_New err _); discriminate. }
  destruct remaining as [|r [|r2 remaining]]; try discriminate.
  destruct (flag_Parse_suffix _ _ _ _ _ (le_n _) Hparse) as [flags ->].
  rewrite last_last.
  destruct (validateName (strings_TrimSpace_full r)) eqn:Hname; [discriminate|].
  destruct (sf_set (fv_desc vars)).
  - destruct (String.eqb _ ""); [discriminate|]. by intros [= <- <-].
  - by intros [= <- <-].
Qed.

(** X1.  What [parseArgs] accepts: nothing is written to standard error, the
    name is the last argument without the white space around it, and
    [validateName] accepts it. *)
Theorem parseArgs_accepts_validated_last_argument
    (args : list string) (out : list string) (opts : options) :
  parseArgs args = (out, Ok opts) ->
  out = []
  /\ opt_name opts = strings_TrimSpace_full (List.last args "")
  /\ validateName (opt_name opts) = None.
Proof. apply parseArgs_Ok. Qed.

Lemma parseArgs_accepts_witness :
  parseArgs ["--public"; "-d"; " notes"; " proj "] =
    ([], Ok (mkOptions "proj" true "notes" false))
  /\ opt_name (mkOptions "proj" true "notes" false) =
     strings_TrimSpace_full (List.last ["--public"; "-d"; " notes"; " proj "] "")
  /\ validateName (opt_name (mkOptions "proj" true "notes" false)) = None.
Proof.
  split; [reflexivity|].
  apply (parseArgs_accepts_validated_last_argument
           ["--public"; "-d"; " notes"; " proj "] [] (mkOptions "proj" true "notes" false)).
  reflexivity.
Defined.



Lemma flag_name_value_prefix (x nm : string) (v : option string) :
  flag_name_value x = (nm, v) -> strings_HasPrefix x nm = true.
Proof.
  destruct x as [|c x]; [by intros [= <- <-]|]. cbn [flag_name_value].
  destruct (split_equals x) as [n v'] eqn:Hs. intros [= <- <-].
  cbn [strings_HasPrefix]. rewrite Ascii.eqb_refl. cbn [andb].
  revert n v' Hs. induction x as [|d x IH]; intros n v' Hs; cbn [split_equals] in Hs.
  - by injection Hs as <- <-.
  - destruct (Ascii.eqb d "="); [by injection Hs as <- <-|].
    destruct (split_equals x) as [n1 v1]. injection Hs as <- <-.
    cbn [strings_HasPrefix]. rewrite Ascii.eqb_refl. cbn [andb]. by apply (IH n1 v1).
Qed.

Lemma flag_Parse_public (n : nat) :
  forall (args : list string) (vars vars' : flagVars) (remaining : list string),
    (length args <= n)%nat ->
    flag_Parse vars args = Parsed vars' remaining ->
    fv_public vars' = true ->
    fv_public vars = true \/ exists a, a ∈ args /\ public_flag a.
Proof.
  induction n as [|n IH]; intros args vars vars' remaining Hlen Hparse Hpub.
  { destruct args; [|simpl in Hlen; lia]. injection Hparse as <- <-. by left. }
  destruct args as [|s rest]; [injection Hparse as <- <-; by left|].
  simpl in Hlen. cbn [flag_Parse] in Hparse. unfold failf in Hparse.
  assert (forall vars0 : flagVars, flag_Parse vars0 rest = Parsed vars' remaining ->
            fv_public vars0 = true \/ exists a, a ∈ s :: rest /\ public_flag a) as Hrest.
  { intros vars0 H. destruct (IH rest vars0 vars' remaining ltac:(lia) H Hpub)
      as [?|(a & Ha & Hf)]; [by left|]. right. exists a. split; [by right | exact Hf]. }
  assert (forall (vars0 : flagVars) v rest', rest = v :: rest' ->
            flag_Parse vars0 rest' = Parsed vars' remaining ->
            fv_public vars0 = true \/ exists a, a ∈ s :: rest /\ public_flag a) as Hrest2.
  { intros vars0 v rest' -> H.
    destruct (IH rest' vars0 vars' remaining ltac:(simpl in Hlen; lia) H Hpub)
      as [?|(a & Ha & Hf)]; [by left|]. right. exists a. split; [|exact Hf].
    by do 2 right. }
  destruct s as [|c0 [|c1 after]]; try (injection Hparse as <- <-; by left).
  destruct (Ascii.eqb_spec c0 "-") as [->|]; cbn [negb] in Hparse;
    [|injection Hparse as <- <-; by left].
  destruct (Ascii.eqb c1 "-" && String.eqb after "") eqn:Hend;
    [injection Hparse as <- <-; by left|].
  set (body := if Ascii.eqb c1 "-" then after else String c1 after) in *.
  assert (String "-" (String c1 after) = "-" +:+ body \/
          String "-" (String c1 after) = "--" +:+ body) as Hbody.
  { unfold body. destruct (Ascii.eqb_spec c1 "-") as [->|]; [by right | by left]. }
  destruct body as [|n0 nrest] eqn:Hb; [discriminate|].
  destruct (Ascii.eqb n0 "-" || Ascii.eqb n0 "="); [discriminate|].
  destruct (flag_name_value (String n0 nrest)) as [name value] eqn:Hnv.
  pose proof (flag_name_value_prefix _ _ _ Hnv) as Hprefix.
  destruct (String.eqb_spec name "public") as [->|Hnp]; cbn [orb] in Hparse.
  - right. exists (String "-" (String c1 after)). split; [by left|].
    destruct Hbody as [->| ->]; [left | right]; exact Hprefix.
  - destruct (String.eqb name "verbose").
    + destruct value as [v|].
      * destruct (strconv_ParseBool v); [|discriminate].
        destruct (Hrest _ Hparse) as [H|H]; [left; exact H | right; exact H].
      * destruct (Hrest _ Hparse) as [H|H]; [left; exact H | right; exact H].
    + destruct (String.eqb name "description" || String.eqb name "d").
      * destruct value as [v|]; [destruct (Hrest _ Hparse) as [H|H]; [left; exact H | right; exact H]|].
        destruct rest as [|v rest']; [discriminate|].
        destruct (Hrest2 _ v rest' eq_refl Hparse) as [H|H]; [left; exact H | right; exact H].
      * destruct (String.eqb name "help" || String.eqb name "h"); discriminate.
Qed.

(** X3.  A gist is made public only on request: when [parseArgs] returns options
    with [public] set, one of the arguments is the flag [-public] or
    [--public]. *)
Theorem parseArgs_public_only_on_request (args out : list string) (opts : options) :
  parseArgs args = (out, Ok opts) ->
  opt_public opts = true ->
  exists a, a ∈ args /\ public_flag a.
Proof.
  unfold parseArgs. destruct (flag_Parse _ args) as [vars remaining|err] eqn:Hparse.
  2:{ destruct (errors_Is_New err _); discriminate. }
  intros Hok Hpub.
  assert (fv_public vars = true) as Hvars.
  { destruct remaining as [|r [|r2 remaining]]; try discriminate.
    destruct (validateName _); [discriminate|].
    destruct (sf_set (fv_desc vars)); [destruct (String.eqb _ ""); [discriminate|]|];
      injection Hok as _ <-; exact Hpub. }
  destruct (flag_Parse_public _ _ _ _ _ (le_n _) Hparse Hvars) as [H|H]; [discriminate H | exact H].
Qed.

Lemma parseArgs_public_only_on_request_witness :
  parseArgs ["--public"; "proj"] = ([], Ok (mkOptions "proj" true "" false))
  /\ opt_public (mkOptions "proj" true "" false) = true
  /\ exists a, a ∈ ["--public"; "proj"] /\ public_flag a.
Proof.
  split; [reflexivity|]. split; [reflexivity|].
  apply (parseArgs_public_only_on_request ["--public"; "proj"] []
           (mkOptions "proj" true "" false)); reflexivity.
Defined.

(** ** The target directory *)

Lemma split_slash_one (name : string) :
  strings_ContainsAny name "/\" = false -> split_slash name = [name].
Proof.
  induction name as [|c name IH]; [reflexivity|].
  cbn [strings_ContainsAny byte_in split_slash].
  destruct (Ascii.eqb c "/"); [discriminate|].
  destruct (Ascii.eqb c "\"); [discriminate|].
  intros H. by rewrite (IH H).
Qed.

Lemma filepath_Join_validated (cwd : path) (name : string) :
  validateName name = None -> name <> "." ->
  filepath_Join cwd name = cwd ++ [name].
Proof.
  unfold validateName, filepath_Join.
  destruct (String.eqb_spec name "") as [E|Hne]; [discriminate|].
  destruct (String.eqb_spec name ".") as [E|Hd]; [contradiction|].
  destruct (String.eqb_spec name "..") as [E|Hdd]; [discriminate|].
  destruct (strings_ContainsAny name "/\") eqn:Hsep; [discriminate|].
  intros _ _. rewrite (split_slash_one _ Hsep). cbn [fold_left]. unfold clean_step.
  destruct (String.eqb_spec name ""); [contradiction|].
  destruct (String.eqb_spec name "."); [contradiction|].
  destruct (String.eqb_spec name ".."); [contradiction|]. reflexivity.
Qed.

(** X4.  A name that [validateName] accepts, other than [.], is one element of a
    path: joined to the working directory it names an entry of that
    directory, never a place above or below. *)
Theorem validated_name_is_child_of_working_directory (cwd : path) (name : string) :
  validateName name = None -> name <> "." ->
  filepath_Join cwd name = cwd ++ [name].
Proof. apply filepath_Join_validated. Qed.

Lemma validated_name_is_child_witness :
  validateName "proj" = None /\ "proj" <> "."
  /\ filepath_Join ["home"; "u"] "proj" = ["home"; "u"] ++ ["proj"].
Proof.
  split; [reflexivity|]. split; [discriminate|].
  apply validated_name_is_child_of_working_directory; [reflexivity | discriminate].
Defined.

Lemma put_put_None (pd : path) (name : string) (v : node) (r : node) (perm : Z)
    (es : list (string * node)) :
  get pd r = Some (Dir perm es) ->
  put (pd ++ [name]) None (put (pd ++ [name]) (Some v) r) = put (pd ++ [name]) None r.
Proof.
  revert r. induction pd as [|a pd IH]; intros r Hget; simpl in Hget.
  - injection Hget as ->. simpl. by rewrite remove_set_assoc.
  - destruct r as [| p0 es0 | |]; try discriminate.
    destruct (assoc a es0) as [ch|] eqn:Ha; [|discriminate].
    change ((a :: pd) ++ [name]) with (a :: (pd ++ [name])).
    rewrite (put_cons a (pd ++ [name]) (Some v)) by (by destruct pd). rewrite Ha.
    rewrite put_cons by (by destruct pd). rewrite assoc_set_eq, set_assoc_twice.
    rewrite (put_cons a (pd ++ [name])) by (by destruct pd). rewrite Ha.
    by rewrite (IH ch Hget).
Qed.

(** A new entry that is removed again leaves the tree as it was. *)
Lemma put_fresh_then_remove (pd : path) (name : string) (v : node) (r : node) (perm : Z)
    (es : list (string * node)) :
  get pd r = Some (Dir perm es) -> assoc name es = None ->
  put (pd ++ [name]) None (put (pd ++ [name]) (Some v) r) = r.
Proof.
  intros Hget Ha. rewrite (put_put_None pd name v r perm es Hget).
  by apply (put_None_absent pd name r perm es).
Qed.

Lemma open_excl_child (w : world) (dir : path) (perm : Z) (es : list (string * node))
    (n : string) (mode : Z) :
  get dir (root w) = Some (Dir perm es) ->
  open_excl (dir ++ [n]) mode w =
    match assoc n es with
    | Some _ => (w, Fail (PathError "open" (dir ++ [n]) EEXIST))
    | None =>
        (with_root w (put (dir ++ [n]) (Some (File (create_perm w mode) "")) (root w)),
         Ok (dir ++ [n]))
    end.
Proof.
  intros Hdir. unfold open_excl.
  rewrite (namei_under false _ _ _ _ n Hdir) by (by left).
  by destruct (assoc n es).
Qed.

(** [os.CreateTemp] in a directory: the file it makes has the first of the
    names drawn that the directory does not have; when it fails the
    directory has all of them, and nothing is made. *)
Lemma CreateTemp_loop_child (random : nat -> string) (w : world) (dir : path) (perm : Z)
    (es : list (string * node)) (prefix suffix : string) (tries try : nat) :
  get dir (root w) = Some (Dir perm es) ->
  match CreateTemp_loop tries try random dir prefix suffix w with
  | (w1, Ok (name, c)) =>
      exists k, (try <= k <= try + tries)%nat
        /\ assoc (prefix +:+ random k +:+ suffix) es = None
        /\ name = dir ++ [prefix +:+ random k +:+ suffix] /\ c = name
        /\ w1 = with_root w (put name (Some (File (create_perm w 384) "")) (root w))
  | (w1, Fail err) =>
      w1 = w
      /\ forall k, (try <= k <= try + tries)%nat ->
           assoc (prefix +:+ random k +:+ suffix) es <> None
  end.
Proof.
  intros Hdir. revert try. induction tries as [|tries IH]; intros try;
    cbn [CreateTemp_loop]; rewrite (open_excl_child w dir perm es _ _ Hdir);
    destruct (assoc (prefix +:+ random try +:+ suffix) es) as [m|] eqn:Ha;
    cbn [errno_of].
  - split; [reflexivity|]. intros k Hk. assert (k = try) as -> by lia. by rewrite Ha.
  - exists try. repeat split; try lia; done.
  - specialize (IH (S try)).
    destruct (CreateTemp_loop tries (S try) random dir prefix suffix w) as [w1 [[name c]|err]].
    + destruct IH as (k & Hk & Hrest). exists k. split; [lia | exact Hrest].
    + destruct IH as [-> Hall]. split; [reflexivity|]. intros k Hk.
      destruct (decide (k = try)) as [->|Hne]; [by rewrite Ha | apply Hall; lia].
  - exists try. repeat split; try lia; done.
Qed.

Lemma mount_point_exists (w : world) (p : path) :
  mounts_exist w -> is_mount_point (mounts w) p = true -> get p (root w) <> None.
Proof.
  unfold mounts_exist, is_mount_point. intros Hall Hm.
  apply existsb_exists in Hm as (m & Hin & Heq).
  destruct (path_eqb_spec p m) as [->|]; [|discriminate].
  rewrite Forall_forall in Hall. apply Hall. by apply list_elem_of_In.
Qed.

(** [ensureWritable] in a directory leaves the world as it was: the probe is
    made and removed; it succeeds when one of the names it tries is free. *)
Lemma ensureWritable_child (random : nat -> string) (w : world) (dir : path) (perm : Z)
    (es : list (string * node)) :
  get dir (root w) = Some (Dir perm es) ->
  (forall n, assoc n es = None -> is_mount_point (mounts w) (dir ++ [n]) = false) ->
  fst (ensureWritable random dir w) = w
  /\ (probe_free random es -> snd (ensureWritable random dir w) = None).
Proof.
  intros Hdir Hmounts. unfold ensureWritable, os_CreateTemp.
  change (prefixAndSuffix ".gh-gist-new-*") with (@Ok (string * string) (".gh-gist-new-", "")).
  pose proof (CreateTemp_loop_child random w dir perm es ".gh-gist-new-" "" CreateTemp_retries 0 Hdir) as H.
  destruct (CreateTemp_loop CreateTemp_retries 0 random dir ".gh-gist-new-" "" w) as [w1 [[name c]|err]].
  - destruct H as (k & Hk & Ha & -> & -> & ->). split; [|reflexivity].
    cbn [fst]. unfold os_Remove. cbn [root with_root mounts].
    set (n := ".gh-gist-new-" +:+ random k +:+ "") in *.
    assert (get dir (put (dir ++ [n]) (Some (File (create_perm w 384) "")) (root w)) =
            Some (Dir perm (set_assoc n (File (create_perm w 384) "") es))) as Hdir1
      by exact (get_put_parent dir n (Some (File (create_perm w 384) "")) (root w) perm es Hdir).
    rewrite (namei_under false _ _ _ _ n Hdir1) by (by left).
    rewrite assoc_set_eq.
    rewrite (Hmounts n Ha).
    rewrite path_eqb_snoc_nil. cbn [orb fst].
    rewrite (put_fresh_then_remove dir n _ _ perm es Hdir Ha).
    rewrite with_root_twice. apply with_root_root.
  - destruct H as [-> Hall]. split; [reflexivity|].
    intros (k & Hk & Ha). exfalso. apply (Hall k); [lia | exact Ha].
Qed.

Lemma no_mount_point_below (w : world) (dir : path) (perm : Z) (es : list (string * node))
    (n : string) :
  mounts_exist w -> get dir (root w) = Some (Dir perm es) -> assoc n es = None ->
  is_mount_point (mounts w) (dir ++ [n]) = false.
Proof.
  intros Hmounts Hdir Ha.
  destruct (is_mount_point (mounts w) (dir ++ [n])) eqn:Hm; [|reflexivity].
  exfalso. apply (mount_point_exists w (dir ++ [n]) Hmounts Hm).
  by rewrite (get_child dir n _ perm es Hdir).
Qed.

Lemma probe_free_first (random : nat -> string) (es : list (string * node)) :
  assoc (probe_name random 0) es = None -> probe_free random es.
Proof. intros H. exists 0%nat. split; [apply Nat.le_0_l | exact H]. Qed.



(** [ensureNotGitRepo] looks at the entry [.git] of the directory: without
    it the directory is accepted, with it (a directory, a file or anything
    else that is not a link) it is refused. *)
Lemma ensureNotGitRepo_child (w : world) (dir : path) (perm : Z) (es : list (string * node)) :
  get dir (root w) = Some (Dir perm es) ->
  match assoc ".git" es with
  | None => ensureNotGitRepo dir w = None
  | Some (Symlink _) => True
  | Some _ =>
      ensureNotGitRepo dir w =
        Some (fmt_Errorf "%s already contains git metadata; pick a clean folder" [APath dir])
  end.
Proof.
  intros Hdir. unfold ensureNotGitRepo, os_Stat.
  destruct (assoc ".git" es) as [m|] eqn:Ha.
  - destruct m; try exact I;
      by rewrite (namei_under true _ _ _ _ ".git" Hdir), Ha by (right; by rewrite Ha).
  - by rewrite (namei_under true _ _ _ _ ".git" Hdir), Ha by (right; by rewrite Ha).
Qed.

(** X6.  [ensureNotGitRepo] accepts a directory exactly when it has no entry
    [.git]: a directory of that name, a file (as in a linked worktree) or a
    special file all make it refuse. *)
Theorem ensureNotGitRepo_accepts_iff_no_git_entry (w : world) (dir : path) (perm : Z)
    (es : list (string * node)) :
  get dir (root w) = Some (Dir perm es) ->
  (forall t, assoc ".git" es <> Some (Symlink t)) ->
  ensureNotGitRepo dir w = None <-> assoc ".git" es = None.
Proof.
  intros Hdir Hlink. pose proof (ensureNotGitRepo_child w dir perm es Hdir) as H.
  destruct (assoc ".git" es) as [m|]; [|done].
  destruct m as [| | t |]; try (rewrite H; split; discriminate).
  by destruct (Hlink t).
Qed.

Lemma ensureNotGitRepo_witness :
  ensureNotGitRepo ["tmp"; "clone"] Examples.one_device = None <->
  assoc ".git" (match Examples.clone_tree with Dir _ es => es | _ => [] end) = None.
Proof.
  apply (ensureNotGitRepo_accepts_iff_no_git_entry Examples.one_device ["tmp"; "clone"] 493).
  - reflexivity.
  - intros t H. discriminate H.
Defined.

(** [ensureDirectoryExists] for an entry of a directory: a missing one is
    made, empty and with mode 0755 less the umask; a directory is left as it
    is; a file or a special file is refused. *)
Lemma ensureDirectoryExists_child (w : world) (pd : path) (perm : Z)
    (es : list (string * node)) (name : string) :
  get pd (root w) = Some (Dir perm es) ->
  match assoc name es with
  | None =>
      ensureDirectoryExists (pd ++ [name]) w =
        (with_root w (put (pd ++ [name]) (Some (Dir (create_perm w 493) [])) (root w)), None)
  | Some (Dir _ _) => ensureDirectoryExists (pd ++ [name]) w = (w, None)
  | Some (Symlink _) => True
  | Some _ =>
      ensureDirectoryExists (pd ++ [name]) w =
        (w, Some (fmt_Errorf "%s exists but is not a directory" [APath (pd ++ [name])]))
  end.
Proof.
  intros Hpd. unfold ensureDirectoryExists.
  pose proof (MkdirAll_child w pd perm es name 493 Hpd) as Hmk.
  unfold os_Stat.
  destruct (assoc name es) as [m|] eqn:Ha.
  - destruct m as [fp fd | dp des | t | k sp]; try exact I;
      rewrite (namei_under true _ _ _ _ name Hpd), Ha by (right; by rewrite Ha);
      unfold FileInfo_IsDir; cbn [fi_mode]; by rewrite node_mode_IsDir.
  - rewrite (namei_under true _ _ _ _ name Hpd), Ha by (right; by rewrite Ha).
    cbn [errors_Is_ErrNotExist errno_of]. by rewrite Hmk.
Qed.

(** X7.  [ensureDirectoryExists] for an entry of a directory succeeds exactly
    when the name is free or names a directory; then the path is a
    directory, and what was there before is not changed. *)
Theorem ensureDirectoryExists_makes_or_keeps (w : world) (pd : path) (perm : Z)
    (es : list (string * node)) (name : string) :
  get pd (root w) = Some (Dir perm es) ->
  (forall t, assoc name es <> Some (Symlink t)) ->
  let w' := fst (ensureDirectoryExists (pd ++ [name]) w) in
  let r := snd (ensureDirectoryExists (pd ++ [name]) w) in
  (r = None <-> assoc name es = None \/ exists p d, assoc name es = Some (Dir p d))
  /\ (r = None -> exists p d, get (pd ++ [name]) (root w') = Some (Dir p d))
  /\ (assoc name es <> None -> w' = w).
Proof.
  intros Hpd Hlink. cbn zeta.
  pose proof (ensureDirectoryExists_child w pd perm es name Hpd) as H.
  destruct (assoc name es) as [m|] eqn:Ha.
  - destruct m as [fp fd | dp des | t | k sp]; try (by destruct (Hlink t)); rewrite H;
      cbn [fst snd].
    + split; [|split; [discriminate | done]].
      split; [discriminate | intros [?|(p & d & ?)]; discriminate].
    + split; [|split; [|done]].
      * split; [intros _; right; by eexists _, _ | done].
      * intros _. exists dp, des. by rewrite (get_child pd name _ perm es Hpd).
    + split; [|split; [discriminate | done]].
      split; [discriminate | intros [?|(p & d & ?)]; discriminate].
  - rewrite H. cbn [fst snd root with_root]. split; [|split; [|done]].
    + split; [by left | done].
    + intros _. eexists _, _. by apply (get_put_eq pd name _ _ perm es).
Qed.

Lemma ensureDirectoryExists_witness :
  (snd (ensureDirectoryExists (["home"] ++ ["new"]) Examples.one_device) = None <->
   assoc "new" [("proj", Dir 493 [("notes.md", File 420 "# notes")])] = None
   \/ exists p d, assoc "new" [("proj", Dir 493 [("notes.md", File 420 "# notes")])] =
                  Some (Dir p d))
  /\ (snd (ensureDirectoryExists (["home"] ++ ["new"]) Examples.one_device) = None ->
      exists p d,
        get (["home"] ++ ["new"])
          (root (fst (ensureDirectoryExists (["home"] ++ ["new"]) Examples.one_device))) =
        Some (Dir p d))
  /\ (assoc "new" [("proj", Dir 493 [("notes.md", File 420 "# notes")])] <> None ->
      fst (ensureDirectoryExists (["home"] ++ ["new"]) Examples.one_device) =
      Examples.one_device).
Proof.
  apply (ensureDirectoryExists_makes_or_keeps Examples.one_device ["home"] 493
           [("proj", Dir 493 [("notes.md", File 420 "# notes")])] "new").
  - reflexivity.
  - intros t H. discriminate H.
Defined.

Lemma checks_child (random : nat -> string) (w : world) (dir : path) (display : string)
    (perm : Z) (es : list (string * node)) :
  get dir (root w) = Some (Dir perm es) ->
  (forall n, assoc n es = None -> is_mount_point (mounts w) (dir ++ [n]) = false) ->
  probe_free random es ->
  (forall t, assoc ".git" es <> Some (Symlink t)) ->
  match ensureWritable random dir w with
  | (w1, Some err) => (w1, Fail err)
  | (w1, None) =>
      match ensureNotGitRepo dir w1 with
      | Some err => (w1, Fail err)
      | None => (w1, Ok (dir, display))
      end
  end =
  (w, match assoc ".git" es with
      | None => Ok (dir, display)
      | Some _ =>
          Fail (fmt_Errorf "%s already contains git metadata; pick a clean folder"
                  [APath dir])
      end).
Proof.
  intros Hdir Hmounts Hfree Hlink.
  destruct (ensureWritable_child random w dir perm es Hdir Hmounts) as [Hw Hok].
  specialize (Hok Hfree). destruct (ensureWritable random dir w) as [w1 r].
  cbn [fst snd] in *. subst w1 r.
  pose proof (ensureNotGitRepo_child w dir perm es Hdir) as Hgit.
  destruct (assoc ".git" es) as [m|]; [|by rewrite Hgit].
  destruct m as [| | t |]; try (by rewrite Hgit). by destruct (Hlink t).
Qed.

Lemma resolveTargetDirectory_existing
    (random : nat -> string) (w : world) (cwd : path) (name : string) (perm dp : Z)
    (es des : list (string * node)) :
  get cwd (root w) = Some (Dir perm es) ->
  mounts_exist w ->
  validateName name = None -> name <> "." ->
  assoc name es = Some (Dir dp des) ->
  probe_free random des ->
  (forall t, assoc ".git" des <> Some (Symlink t)) ->
  resolveTargetDirectory (Ok cwd) random name w =
    (w, match assoc ".git" des with
        | None => Ok (cwd ++ [name], name)
        | Some _ =>
            Fail (fmt_Errorf "%s already contains git metadata; pick a clean folder"
                    [APath (cwd ++ [name])])
        end).
Proof.
  intros Hcwd Hmounts Hvalid Hdot Hname Hfree Hlink. unfold resolveTargetDirectory.
  destruct (String.eqb_spec name ".") as [|_]; [contradiction|].
  rewrite (filepath_Join_validated cwd name Hvalid Hdot).
  pose proof (ensureDirectoryExists_child w cwd perm es name Hcwd) as Hex.
  rewrite Hname in Hex. rewrite Hex. cbn [filepath_Abs].
  assert (get (cwd ++ [name]) (root w) = Some (Dir dp des)) as Hdir
    by (by rewrite (get_child cwd name _ perm es Hcwd)).
  apply (checks_child random w (cwd ++ [name]) name dp des Hdir); [|exact Hfree | exact Hlink].
  intros n Hn. by apply (no_mount_point_below w _ dp des).
Qed.



Lemma resolveTargetDirectory_creates_missing
    (random : nat -> string) (w : world) (cwd : path) (name : string) (perm : Z)
    (es : list (string * node)) :
  get cwd (root w) = Some (Dir perm es) ->
  mounts_exist w ->
  validateName name = None -> name <> "." ->
  assoc name es = None ->
  resolveTargetDirectory (Ok cwd) random name w =
    (with_root w (put (cwd ++ [name]) (Some (Dir (Z.ldiff 493 (umask w)) [])) (root w)),
     Ok (cwd ++ [name], name)).
Proof.
  intros Hcwd Hmounts Hvalid Hdot Hname. unfold resolveTargetDirectory.
  destruct (String.eqb_spec name ".") as [|_]; [contradiction|].
  rewrite (filepath_Join_validated cwd name Hvalid Hdot).
  pose proof (ensureDirectoryExists_child w cwd perm es name Hcwd) as Hex.
  rewrite Hname in Hex. rewrite Hex. cbn [filepath_Abs].
  change (create_perm w 493) with (Z.ldiff 493 (umask w)).
  set (w1 := with_root w _).
  assert (get (cwd ++ [name]) (root w1) = Some (Dir (Z.ldiff 493 (umask w)) [])) as Hdir
    by (unfold w1; cbn [root with_root]; by apply (get_put_eq cwd name _ _ perm es)).
  rewrite (checks_child random w1 (cwd ++ [name]) name _ [] Hdir); [reflexivity| | |done].
  - intros n _. unfold w1. cbn [mounts with_root].
    destruct (is_mount_point (mounts w) ((cwd ++ [name]) ++ [n])) eqn:Hm; [|reflexivity].
    exfalso. apply (mount_point_exists w _ Hmounts Hm).
    by rewrite get_app, (get_child cwd name _ perm es Hcwd), Hname.
  - exists 0%nat. split; [apply Nat.le_0_l | reflexivity].
Qed.






(** ** FileCollector: what is collected *)





(** X12.  The payloads collected from a directory have names of their own, so the
    request [createGist] builds from them has one file for each payload,
    under its name and with its bytes: no file is lost in the map. *)
Theorem gathered_files_all_reach_the_request
    (w : world) (dir c : path) (displayName : string) (log : logger) (perm : Z)
    (es : list (string * node)) (opts : options) :
  namei true (root w) dir = Found c (Dir perm es) ->
  NoDup (map fst es) ->
  Forall (fun e => is_dir_node (snd e) = false) es ->
  Exists (fun e => collectible e = true) es ->
  exists files,
    snd (gatherFiles dir displayName log w) = Ok files
    /\ size (Files (createGist_request files opts)) = length files
    /\ forall f, f ∈ files ->
         Files (createGist_request files opts) !! Name f = Some (mkGistFile (Content f)).
Proof.
  intros Hdir Hnd Hflat Hex.
  destruct (gatherFiles_flat w dir c displayName log perm es Hdir Hnd Hflat)
    as (w1 & Hsame & ->).
  rewrite (collected_nonempty dir es Hex).
  exists (collected dir es). split; [reflexivity|].
  assert (NoDup (map Name (collected dir es))) as Hnames
    by (apply (sorted_NoDup Name), collected_sorted, Hnd).
  assert (NoDup (map fst (map payload_entry (collected dir es)))) as Hnd'
    by (by rewrite map_map).
  rewrite (createGist_request_Files _ opts Hnames). split.
  - rewrite (map_size_list_to_map _ Hnd'). apply length_map.
  - intros f Hf. apply elem_of_list_to_map_1; [exact Hnd'|].
    apply list_elem_of_In, in_map_iff. exists f. by rewrite <- list_elem_of_In.
Qed.

Lemma gathered_files_all_reach_the_request_witness :
  exists files,
    snd (gatherFiles ["home"; "proj"] "proj" Examples.quiet Examples.one_device) = Ok files
    /\ size (Files (createGist_request files RequestExample.secret)) = length files
    /\ forall f, f ∈ files ->
         Files (createGist_request files RequestExample.secret) !! Name f =
         Some (mkGistFile (Content f)).
Proof.
  apply (gathered_files_all_reach_the_request Examples.one_device ["home"; "proj"]
           ["home"; "proj"] "proj" Examples.quiet 493 [("notes.md", File 420 "# notes")]).
  - reflexivity.
  - apply (bool_decide_unpack _). vm_compute. reflexivity.
  - repeat constructor.
  - apply Exists_cons_hd. reflexivity.
Defined.

(** ** CrossDeviceMover: what arrives *)




(** X14.  [copyFile] onto a regular file that exists replaces its bytes and
    leaves its permission bits as they are: the mode of the source is used
    only for a file that is made. *)
Theorem copyFile_keeps_mode_of_existing_destination
    (w : world) (src pd : path) (name : string) (fp dp perm : Z) (data old : string)
    (es : list (string * node)) :
  get src (root w) = Some (File fp data) ->
  get pd (root w) = Some (Dir perm es) ->
  assoc name es = Some (File dp old) ->
  incomparable src (pd ++ [name]) ->
  copyFile src (pd ++ [name]) w =
    (with_root w (put (pd ++ [name]) (Some (File dp data)) (root w)), None).
Proof.
  intros Hsrc Hpd Ha Hinc. unfold copyFile.
  rewrite (namei_get true src _ _ Hsrc) by (by right).
  unfold open_trunc. rewrite (namei_under true _ _ _ _ name Hpd) by (right; by rewrite Ha).
  rewrite Ha. cbn [root with_root].
  rewrite (get_put_frame _ _ _ _ (incomparable_sym _ _ Hinc)), Hsrc.
  unfold write_all. cbn [root with_root].
  rewrite (get_put_eq pd name _ _ perm es Hpd).
  by rewrite (put_put_Some pd name _ _ _ perm es Hpd), with_root_twice.
Qed.

Lemma copyFile_keeps_mode_witness :
  copyFile ["tmp"; "clone"; "notes.md"] (["home"; "proj"] ++ ["notes.md"])
    TargetExample.stale =
    (with_root TargetExample.stale
       (put (["home"; "proj"] ++ ["notes.md"]) (Some (File 384 "# notes"))
          (root TargetExample.stale)), None).
Proof.
  apply (copyFile_keeps_mode_of_existing_destination TargetExample.stale
           ["tmp"; "clone"; "notes.md"] ["home"; "proj"] "notes.md" 420 384 493
           "# notes" "draft" [("notes.md", File 384 "draft")]).
  - reflexivity.
  - reflexivity.
  - reflexivity.
  - by split.
Defined.

(** X15.  On one device [moveFileOrDir] is the rename: the entry, whatever it is,
    is taken out of its directory and put under its name in the other, as
    it is, and no fuel is needed. *)
Theorem moveFileOrDir_renames_on_one_device
    (fuel : nat) (w : world) (from to : path) (pf pt : Z) (ef et : list (string * node))
    (n : string) (m : node) :
  get from (root w) = Some (Dir pf ef) ->
  get to (root w) = Some (Dir pt et) ->
  incomparable from to ->
  assoc n ef = Some m ->
  assoc n et = None ->
  path_eqb (device_of (mounts w) from) (device_of (mounts w) to) = true ->
  is_mount_point (mounts w) (from ++ [n]) = false ->
  is_mount_point (mounts w) (to ++ [n]) = false ->
  moveFileOrDir fuel (from ++ [n]) (to ++ [n]) w =
    Some (with_root w (put (to ++ [n]) (Some m) (put (from ++ [n]) None (root w))), None).
Proof.
  intros Hfrom Hto Hinc Hm Hfree Hdev Hm1 Hm2. unfold moveFileOrDir.
  by rewrite (Rename_child w from to pf pt ef et n m Hfrom Hto Hinc Hm Hfree), Hdev, Hm1, Hm2.
Qed.

Lemma moveFileOrDir_renames_on_one_device_witness :
  moveFileOrDir 0 (["tmp"; "clone"] ++ [".gitattributes"])
    (["home"; "proj"] ++ [".gitattributes"]) Examples.one_device =
    Some (with_root Examples.one_device
            (put (["home"; "proj"] ++ [".gitattributes"]) (Some (File 420 "* text=auto"))
               (put (["tmp"; "clone"] ++ [".gitattributes"]) None
                  (root Examples.one_device))), None).
Proof.
  apply (moveFileOrDir_renames_on_one_device 0 Examples.one_device ["tmp"; "clone"]
           ["home"; "proj"] 493 493
           (match Examples.clone_tree with Dir _ es => es | _ => [] end)
           [("notes.md", File 420 "# notes")] ".gitattributes" (File 420 "* text=auto"));
    try reflexivity.
  by split.
Defined.



(** ** GistUploader: the request and its outcome *)

Section UploadFacts.
Variable DefaultRESTClient : world -> option error.
Variable remote : list (string * string) -> string -> string -> res gistCreateResponse.

(** X17.  [createGist] sends nothing when the client cannot be made, and one
    request otherwise; it succeeds exactly when the remote answers with an
    identifier and a URL that are not empty, and returns these. *)
Theorem createGist_outcome (files : list filePayload) (opts : options) (log : logger)
    (w : world) :
  let payload := json_Marshal (createGist_request files opts) in
  let w' := fst (createGist DefaultRESTClient remote files opts log w) in
  let r := snd (createGist DefaultRESTClient remote files opts log w) in
  root w' = root w
  /\ match DefaultRESTClient w with
     | Some err =>
         posted w' = posted w /\ r = Fail (fmt_Errorf_w "init GitHub client: %w" [] err)
     | None =>
         posted w' = posted w ++ [("gists", payload)]
         /\ forall url id,
              r = Ok (url, id) <->
              exists resp, remote (posted w) "gists" payload = Ok resp
                           /\ ID resp = id /\ HTMLURL resp = url /\ id <> "" /\ url <> ""
     end.
Proof.
  cbn zeta. unfold createGist.
  destruct (DefaultRESTClient w) as [err|]; [by repeat split|].
  destruct (remote (posted w) "gists" _) as [resp|err] eqn:Hremote.
  - destruct (String.eqb_spec (ID resp) "") as [Hid|Hid]; cbn [orb].
    + repeat split; try reflexivity; [discriminate|].
      intros (resp' & [= <-] & <- & _ & Hne & _). contradiction.
    + destruct (String.eqb_spec (HTMLURL resp) "") as [Hurl|Hurl].
      * repeat split; try reflexivity; [discriminate|].
        intros (resp' & [= <-] & _ & <- & _ & Hne). contradiction.
      * repeat split; try reflexivity.
        -- intros [= <- <-]. by exists resp.
        -- intros (resp' & [= <-] & <- & <- & _). reflexivity.
  - repeat split; try reflexivity; [discriminate|].
    intros (resp' & Hr & _). discriminate Hr.
Qed.

End UploadFacts.

(** X18.  What the remote reads has the visibility of the options, and their
    description (with U+FFFD for bytes that are not UTF-8); without a
    description the request has none. *)
Theorem request_keeps_visibility_and_description (files : list filePayload) (opts : options) :
  exists req,
    json_Unmarshal (json_Marshal (createGist_request files opts)) = Some req
    /\ Public req = opt_public opts
    /\ Description req = utf8_coerce (opt_description opts).
Proof.
  rewrite json_Unmarshal_Marshal. eexists. split; [reflexivity|].
  unfold request_coerce, createGist_request. cbn [Public Description]. split; [reflexivity|].
  by destruct (String.eqb_spec (opt_description opts) "") as [->|_].
Qed.

(** ** MetadataReconciler: a clone that fails *)

Section CloneCleanup.
Variable os_MkdirTemp : string -> string -> world -> world * res path.
Variable gh_gist_clone : string -> path -> world -> world * (option error * string).

(** X19.  When [gh gist clone] fails, [cloneGistMetadata] returns its error with
    the output of the subprocess (ASCII here), does not touch the target directory, and
    removes the temporary directory with whatever the subprocess left in
    it: the world is as it was before the call. *)
Theorem cloneGistMetadata_failed_clone_leaves_no_trace
    (fuel : nat) (gistID : string) (targetDir : path) (log : logger) (w : world)
    (tp : path) (n : string) (perm p : Z) (es : list (string * node))
    (partial : option node) (err : error) (output : string) :
  get tp (root w) = Some (Dir perm es) ->
  assoc n es = None ->
  mounts_exist w ->
  all_ascii output = true ->
  os_MkdirTemp "" "gh-gist-new-" w =
    (with_root w (put (tp ++ [n]) (Some (Dir p [])) (root w)), Ok (tp ++ [n])) ->
  (forall w1,
     gh_gist_clone gistID ((tp ++ [n]) ++ ["clone"]) w1 =
       (with_root w1 (put ((tp ++ [n]) ++ ["clone"]) partial (root w1)),
        (Some err, output))) ->
  cloneGistMetadata os_MkdirTemp gh_gist_clone fuel gistID targetDir log w =
    Some (w,
          Some (fmt_Errorf_v
            "failed to clone gist metadata (retry manually: 'gh gist clone %s <tempdir>' then move .git into %s): %v\n%s"
            [AStr gistID; APath targetDir; AStr (strings_TrimSpace_full output)] err)).
Proof.
  intros Htp Hn Hmounts Hascii Htemp Hclone.
  rewrite (strings_TrimSpace_full_ascii output Hascii). unfold cloneGistMetadata.
  rewrite Htemp, Hclone. cbn [root with_root].
  rewrite <- (app_assoc tp [n] ["clone"]).
  rewrite (put_put_child tp n "clone" partial perm p es [] (root w) Htp).
  set (left_over := match partial with Some c => _ | None => _ end).
  rewrite with_root_twice.
  set (w2 := with_root w _).
  assert (get tp (root w2) = Some (Dir perm (set_assoc n (Dir p left_over) es))) as Htp2
    by exact (get_put_parent tp n (Some (Dir p left_over)) (root w) perm es Htp).
  destruct (os_RemoveAll (tp ++ [n]) w2) as [w3 removed] eqn:Hrm.
  destruct (RemoveAll_child w2 tp perm _ n w3 removed Htp2 Hrm) as [[-> ->]|[_ Hbusy]].
  - cbn [fst]. unfold w2. cbn [root with_root]. rewrite with_root_twice.
    by rewrite (put_fresh_then_remove tp n _ _ perm es Htp Hn), with_root_root.
  - unfold w2 in Hbusy. cbn [mounts with_root] in Hbusy.
    by rewrite (no_mount_point_below w tp perm es n Hmounts Htp Hn) in Hbusy.
Qed.

End CloneCleanup.

Lemma cloneGistMetadata_failed_clone_witness :
  cloneGistMetadata TargetExample.temp_in_tmp TargetExample.leaves_partial_clone 3 "4f2a" ["home"; "proj"]
    Examples.quiet Examples.one_device =
  Some (Examples.one_device,
        Some (fmt_Errorf_v
          "failed to clone gist metadata (retry manually: 'gh gist clone %s <tempdir>' then move .git into %s): %v\n%s"
          [AStr "4f2a"; APath ["home"; "proj"];
           AStr (strings_TrimSpace_full "fatal: early EOF")]
          (errors_New "exit status 1"))).
Proof.
  apply (cloneGistMetadata_failed_clone_leaves_no_trace TargetExample.temp_in_tmp TargetExample.leaves_partial_clone
           3 "4f2a" ["home"; "proj"] Examples.quiet Examples.one_device ["tmp"]
           "gh-gist-new-77" 511 448 [("clone", Examples.clone_tree)]
           (Some (Dir 493 [("README.md", File 420 "half")]))).
  - reflexivity.
  - reflexivity.
  - constructor.
  - reflexivity.
  - reflexivity.
  - reflexivity.
Defined.

(** ** MetadataReconciler: a clone that succeeds *)

Ltac eqb_cases :=
  repeat match goal with
         | |- context [String.eqb ?x ?y] =>
             destruct (String.eqb_spec x y); subst; simpl; try congruence
         end.

Lemma remove_set_ne (a b : string) (y : node) (es : list (string * node)) :
  a <> b -> remove_assoc a (set_assoc b y es) = set_assoc b y (remove_assoc a es).
Proof.
  intros Hne. induction es as [|[k v] es IH]; simpl; eqb_cases.
Qed.

Lemma remove_remove_comm (a b : string) (es : list (string * node)) :
  remove_assoc a (remove_assoc b es) = remove_assoc b (remove_assoc a es).
Proof. induction es as [|[k v] es IH]; simpl; [reflexivity|]. eqb_cases. Qed.

Lemma set_set_ne (a b : string) (x y c : node) (es : list (string * node)) :
  a <> b -> assoc a es = Some c ->
  set_assoc a x (set_assoc b y es) = set_assoc b y (set_assoc a x es).
Proof.
  intros Hne. induction es as [|[k v] es IH]; simpl; [discriminate|].
  eqb_cases. intros Ha. by rewrite IH.
Qed.

(** Removing an entry and changing another one, at paths of which neither
    is above the other, can be done in either order. *)
Lemma put_None_comm (p q : path) (u : option node) (r : node) :
  incomparable p q -> put p None (put q u r) = put q u (put p None r).
Proof.
  revert q r. induction p as [|a p IH]; intros q r [H1 H2]; [discriminate H1|].
  destruct q as [|b q]; [discriminate H2|].
  destruct r as [| perm es | |]; try reflexivity.
  simpl in H1, H2. destruct (String.eqb_spec a b) as [->|Hne].
  - rewrite String.eqb_refl in H2. simpl in H1, H2.
    assert (p <> []) as Hp by (intros ->; discriminate H1).
    assert (q <> []) as Hq by (intros ->; discriminate H2).
    rewrite (put_cons b q u) by exact Hq. rewrite (put_cons b p None perm es) by exact Hp.
    destruct (assoc b es) as [c|] eqn:Hb.
    + rewrite (put_cons b p None) by exact Hp. rewrite (put_cons b q u) by exact Hq.
      rewrite !assoc_set_eq, !set_assoc_twice. f_equal. f_equal. apply IH. by split.
    + rewrite (put_cons b p None) by exact Hp. rewrite (put_cons b q u) by exact Hq.
      by rewrite Hb.
  - clear H1 H2 IH.
    destruct p as [|a' p], q as [|b' q]; cbn [put].
    + destruct u as [c|]; f_equal.
      * by apply remove_set_ne.
      * apply remove_remove_comm.
    + rewrite (assoc_remove_ne a b es Hne).
      destruct (assoc b es) as [c|] eqn:Hb; [|reflexivity].
      f_equal. by apply remove_set_ne.
    + destruct u as [c|].
      * rewrite (assoc_set_ne b a c es) by congruence.
        destruct (assoc a es) as [ca|] eqn:Ha; [|reflexivity].
        f_equal. by apply (set_set_ne a b _ _ ca).
      * rewrite (assoc_remove_ne b a es) by congruence.
        destruct (assoc a es) as [ca|] eqn:Ha; [|reflexivity].
        f_equal. symmetry. apply remove_set_ne. congruence.
    + destruct (assoc b es) as [cb|] eqn:Hb; destruct (assoc a es) as [ca|] eqn:Ha;
        cbn [put]; rewrite ?assoc_set_ne by congruence; rewrite ?Ha, ?Hb; try reflexivity.
      f_equal. by apply (set_set_ne a b _ _ ca).
Qed.

Lemma is_prefix_below (m p k : path) :
  is_prefix m (p ++ k) = true ->
  is_prefix m p = true \/ exists k', m = p ++ k' /\ is_prefix k' k = true.
Proof.
  revert p. induction m as [|a m IH]; intros p H; [by left|].
  destruct p as [|b p]; [right; by exists (a :: m)|].
  simpl in H. apply andb_true_iff in H as [Hab H].
  destruct (String.eqb_spec a b) as [->|]; [|discriminate].
  destruct (IH p H) as [Hp|(k' & -> & Hk')].
  - left. simpl. by rewrite String.eqb_refl.
  - right. by exists k'.
Qed.

Lemma is_prefix_trans_app (m p k : path) : is_prefix m p = true -> is_prefix m (p ++ k) = true.
Proof.
  intros H. apply is_prefix_spec in H as [r ->]. rewrite <- app_assoc. apply is_prefix_app.
Qed.

(** A path that exists is above a path under a missing entry exactly when
    it is above the directory of that entry. *)
Lemma is_prefix_missing (r : node) (m pd : path) (n : string) (k : path) :
  get (pd ++ [n]) r = None -> get m r <> None ->
  is_prefix m ((pd ++ [n]) ++ k) = is_prefix m pd.
Proof.
  intros Hnone Hm. destruct (is_prefix m pd) eqn:Hpd.
  - rewrite <- app_assoc. by apply is_prefix_trans_app.
  - destruct (is_prefix m ((pd ++ [n]) ++ k)) eqn:Hk; [|reflexivity]. exfalso.
    apply is_prefix_below in Hk as [Hk|(k' & -> & _)].
    + apply is_prefix_below in Hk as [Hk|(k' & -> & Hk')]; [congruence|].
      destruct k' as [|a k']; [by rewrite app_nil_r, is_prefix_refl in Hpd|].
      simpl in Hk'. apply andb_true_iff in Hk' as [Ha Hk'].
      destruct (String.eqb_spec a n) as [->|]; [|discriminate].
      destruct k'; [|discriminate]. by apply Hm.
    + apply Hm. by rewrite get_app, Hnone.
Qed.

Lemma device_of_ext (ms : list path) (p q : path) :
  Forall (fun m => is_prefix m p = is_prefix m q) ms -> device_of ms p = device_of ms q.
Proof.
  induction ms as [|m ms IH]; intros H; [reflexivity|].
  apply Forall_cons in H as [Hm H]. simpl. by rewrite (IH H), Hm.
Qed.

(** A path under a missing entry of a directory is on the device of the
    directory, and is no mount point. *)
Lemma device_of_missing (w : world) (pd : path) (perm : Z) (es : list (string * node))
    (n : string) (k : path) :
  mounts_exist w -> get pd (root w) = Some (Dir perm es) -> assoc n es = None ->
  device_of (mounts w) ((pd ++ [n]) ++ k) = device_of (mounts w) pd
  /\ is_mount_point (mounts w) ((pd ++ [n]) ++ k) = false.
Proof.
  intros Hmounts Hpd Hn.
  assert (get (pd ++ [n]) (root w) = None) as Hnone
    by (by rewrite (get_child pd n _ perm es Hpd)).
  split.
  - apply device_of_ext. unfold mounts_exist in Hmounts.
    eapply Forall_impl; [exact Hmounts|]. intros m Hm. by apply (is_prefix_missing (root w)).
  - destruct (is_mount_point (mounts w) ((pd ++ [n]) ++ k)) eqn:Hm; [|reflexivity].
    exfalso. apply (mount_point_exists w _ Hmounts Hm). by rewrite get_app, Hnone.
Qed.

(** The loop of [moveGitMetadata] leaves the world as it is when no entry is
    metadata. *)
Lemma moveGitMetadata_loop_skips (fuel : nat) (from to : path) (entries : list DirEntry)
    (moved : bool) (w : world) :
  Forall (fun e => is_metadata (de_name e) = false) entries ->
  moveGitMetadata_loop fuel from to entries moved w = Some (w, moved, None).
Proof.
  induction entries as [|e rest IH]; intros H; [reflexivity|].
  apply Forall_cons in H as [He H]. cbn [moveGitMetadata_loop].
  rewrite is_metadata_split in He.
  destruct (strings_HasPrefix (de_name e) ".git"); cbn [negb]; [|by apply IH].
  destruct (String.eqb (de_name e) ".gitignore"); [by apply IH | discriminate He].
Qed.

(** The loop of [moveGitMetadata] on one device, over the entries of a clone
    whose only metadata is [.git], into a directory that has no [.git]: the
    entry is renamed, and nothing else changes. *)
Lemma moveGitMetadata_loop_git_only (fuel : nat) (from to : path) (pf pt : Z)
    (ef et : list (string * node)) (g : node) (w : world) :
  incomparable from to ->
  device_of (mounts w) from = device_of (mounts w) to ->
  is_mount_point (mounts w) (from ++ [".git"]) = false ->
  is_mount_point (mounts w) (to ++ [".git"]) = false ->
  get from (root w) = Some (Dir pf ef) ->
  get to (root w) = Some (Dir pt et) ->
  assoc ".git" ef = Some g ->
  assoc ".git" et = None ->
  forall (entries : list DirEntry) (moved : bool),
    NoDup (map de_name entries) ->
    (forall e, e ∈ entries -> is_metadata (de_name e) = true -> de_name e = ".git") ->
    ".git" ∈ map de_name entries ->
    moveGitMetadata_loop fuel from to entries moved w =
      Some (with_root w (put (to ++ [".git"]) (Some g) (put (from ++ [".git"]) None (root w))),
            true, None).
Proof.
  intros Hinc Hdev Hmf Hmt Hfrom Hto Hg Hfree.
  induction entries as [|e rest IH]; intros moved Hnd Honly Hin.
  - by apply elem_of_nil in Hin.
  - cbn [map] in Hnd, Hin. apply NoDup_cons in Hnd as [Hfresh Hnd].
    destruct (String.eqb_spec (de_name e) ".git") as [Heq|Hne].
    + cbn [moveGitMetadata_loop]. rewrite Heq. cbn [strings_HasPrefix negb String.eqb].
      change (if negb (strings_HasPrefix ".git" ".git") then _ else ?x) with x.
      change (if String.eqb ".git" ".gitignore" then _ else ?x) with x.
      cbv zeta. unfold os_RemoveAll at 1.
      rewrite (namei_under false _ _ _ _ ".git" Hto) by (by left). rewrite Hfree.
      unfold moveFileOrDir.
      rewrite (Rename_child w from to pf pt ef et ".git" g Hfrom Hto Hinc Hg Hfree).
      rewrite Hdev, Hmf, Hmt.
      replace (path_eqb (device_of (mounts w) to) (device_of (mounts w) to)) with true
        by (symmetry; by destruct (path_eqb_spec (device_of (mounts w) to) (device_of (mounts w) to))).
      cbn [negb orb]. change (String.eqb ".git" ".git") with true. cbv iota.
      apply moveGitMetadata_loop_skips. apply Forall_forall. intros e' He'.
      destruct (is_metadata (de_name e')) eqn:Hmeta; [|reflexivity]. exfalso.
      apply Hfresh. rewrite Heq, <- (Honly e' ltac:(by right) Hmeta).
      apply list_elem_of_In, in_map, list_elem_of_In, He'.
    + assert (is_metadata (de_name e) = false) as Hskip.
      { destruct (is_metadata (de_name e)) eqn:Hmeta; [|reflexivity].
        by destruct (Hne (Honly e ltac:(by left) Hmeta)). }
      apply elem_of_cons in Hin as [Hin|Hin]; [congruence|].
      cbn [moveGitMetadata_loop]. rewrite is_metadata_split in Hskip.
      assert (forall e', e' ∈ rest -> is_metadata (de_name e') = true -> de_name e' = ".git")
        as Honly' by (intros e' He'; apply Honly; by right).
      destruct (strings_HasPrefix (de_name e) ".git"); cbn [negb];
        [|by apply IH].
      destruct (String.eqb (de_name e) ".gitignore"); [by apply IH | discriminate Hskip].
Qed.

(** [moveGitMetadata] on one device, from a clone whose only metadata is
    [.git] into a directory that has no [.git]. *)
Lemma moveGitMetadata_git_only (fuel : nat) (from to : path) (pf pt : Z)
    (ef et : list (string * node)) (g : node) (w : world) :
  incomparable from to ->
  device_of (mounts w) from = device_of (mounts w) to ->
  is_mount_point (mounts w) (from ++ [".git"]) = false ->
  is_mount_point (mounts w) (to ++ [".git"]) = false ->
  get from (root w) = Some (Dir pf ef) ->
  get to (root w) = Some (Dir pt et) ->
  NoDup (map fst ef) ->
  assoc ".git" ef = Some g ->
  (forall k, is_metadata k = true -> assoc k ef <> None -> k = ".git") ->
  assoc ".git" et = None ->
  moveGitMetadata fuel from to w =
    Some (with_root w (put (to ++ [".git"]) (Some g) (put (from ++ [".git"]) None (root w))),
          None).
Proof.
  intros Hinc Hdev Hmf Hmt Hfrom Hto Hnd Hg Honly Hfree. unfold moveGitMetadata.
  destruct (ReadDir_names w from pf ef Hfrom Hnd) as (entries & -> & Hnames & Hin).
  rewrite (moveGitMetadata_loop_git_only fuel from to pf pt ef et g w Hinc Hdev Hmf Hmt
             Hfrom Hto Hg Hfree entries false Hnames); [reflexivity| |].
  - intros e He Hmeta. apply (Honly _ Hmeta). apply Hin.
    apply list_elem_of_In, in_map, list_elem_of_In, He.
  - apply Hin. by rewrite Hg.
Qed.

Section CloneSuccess.
Variable os_MkdirTemp : string -> string -> world -> world * res path.
Variable gh_gist_clone : string -> path -> world -> world * (option error * string).

(** [cloneGistMetadata] when the clone succeeds, on one device. *)
Lemma cloneGistMetadata_moves_git
    (fuel : nat) (gistID : string) (targetDir : path) (log : logger) (w : world)
    (tp : path) (n : string) (perm p pt cp : Z) (es et ces : list (string * node))
    (g : node) (output : string) :
  get tp (root w) = Some (Dir perm es) ->
  assoc n es = None ->
  mounts_exist w ->
  device_of (mounts w) tp = device_of (mounts w) targetDir ->
  get targetDir (root w) = Some (Dir pt et) ->
  assoc ".git" et = None ->
  incomparable (tp ++ [n]) targetDir ->
  os_MkdirTemp "" "gh-gist-new-" w =
    (with_root w (put (tp ++ [n]) (Some (Dir p [])) (root w)), Ok (tp ++ [n])) ->
  (forall w1,
     gh_gist_clone gistID ((tp ++ [n]) ++ ["clone"]) w1 =
       (with_root w1 (put ((tp ++ [n]) ++ ["clone"]) (Some (Dir cp ces)) (root w1)),
        (None, output))) ->
  NoDup (map fst ces) ->
  assoc ".git" ces = Some g ->
  (forall k, is_metadata k = true -> assoc k ces <> None -> k = ".git") ->
  exists w',
    cloneGistMetadata os_MkdirTemp gh_gist_clone fuel gistID targetDir log w = Some (w', None)
    /\ root w' = put (targetDir ++ [".git"]) (Some g) (root w)
    /\ umask w' = umask w /\ mounts w' = mounts w /\ posted w' = posted w
    /\ (lg_verbose log = false -> stdout w' = stdout w).
Proof.
  intros Htp Hn Hmounts Hdev Hto Hfree Hinc Htemp Hclone Hnd Hg Honly.
  unfold cloneGistMetadata. rewrite Htemp, Hclone. cbn [root with_root].
  set (r1 := put (tp ++ [n]) (Some (Dir p [])) (root w)).
  set (from := (tp ++ [n]) ++ ["clone"]).
  set (r2 := put from (Some (Dir cp ces)) r1).
  rewrite with_root_twice.
  set (w3 := if negb _ then _ else _).
  assert (root w3 = r2 /\ umask w3 = umask w /\ mounts w3 = mounts w /\ posted w3 = posted w
          /\ (lg_verbose log = false -> stdout w3 = stdout w))
    as (Hr3 & Hu3 & Hm3 & Hp3 & Hs3).
  { unfold w3, logger_Verbose. by destruct (negb _), (lg_verbose log). }
  assert (get (tp ++ [n]) r1 = Some (Dir p [])) as Hn1.
  { unfold r1. rewrite (get_child tp n _ perm (set_assoc n (Dir p []) es)).
    - apply assoc_set_eq.
    - exact (get_put_parent tp n (Some (Dir p [])) (root w) perm es Htp). }
  assert (get (tp ++ [n]) r2 = Some (Dir p [("clone", Dir cp ces)])) as Hn2
    by exact (get_put_parent (tp ++ [n]) "clone" (Some (Dir cp ces)) r1 p [] Hn1).
  assert (get from r2 = Some (Dir cp ces)) as Hfrom
    by (unfold from; by rewrite (get_child (tp ++ [n]) "clone" _ p _ Hn2)).
  assert (incomparable from targetDir) as Hinc2 by (by apply incomparable_child_l).
  assert (incomparable (tp ++ [n]) (targetDir ++ [".git"])) as Hinc3.
  { rewrite <- (app_nil_r (tp ++ [n])). by apply incomparable_app. }
  assert (get targetDir r2 = Some (Dir pt et)) as Hto2.
  { unfold r2, r1. by rewrite !get_put_frame. }
  destruct (device_of_missing w tp perm es n ["clone"] Hmounts Htp Hn) as [Hd1 _].
  destruct (device_of_missing w tp perm es n ["clone"; ".git"] Hmounts Htp Hn) as [_ Hm1].
  destruct (device_of_missing w tp perm es n [] Hmounts Htp Hn) as [_ Hm0].
  rewrite app_nil_r in Hm0.
  rewrite (moveGitMetadata_git_only fuel from targetDir cp pt ces et g w3).
  - set (w4 := with_root w3 _).
    assert (get (tp ++ [n]) (root w4) <> None) as Hn4.
    { unfold w4. cbn [root with_root]. rewrite Hr3.
      rewrite get_put_frame by (apply incomparable_sym, Hinc3).
      unfold from. rewrite <- app_assoc. rewrite get_put_above by discriminate.
      by rewrite Hn2. }
    destruct (get (tp ++ [n]) (root w4)) as [m|] eqn:Hm4; [|done].
    unfold os_RemoveAll. rewrite (namei_get false _ _ m Hm4) by (by left).
    rewrite path_eqb_snoc_nil.
    replace (mounts w4) with (mounts w) by (unfold w4; cbn [mounts with_root]; by rewrite Hm3).
    rewrite Hm0. cbn [orb fst]. eexists. split; [reflexivity|].
    unfold w4. cbn [root umask mounts posted stdout with_root]. rewrite Hr3, Hu3, Hm3, Hp3.
    split; [|done].
    rewrite put_None_comm by exact Hinc3.
    f_equal. unfold r2, from. rewrite <- !app_assoc.
    rewrite (app_assoc tp [n] (["clone"] ++ [".git"])).
    rewrite (app_assoc tp [n] ["clone"]).
    rewrite (put_put_child (tp ++ [n]) "clone" ".git" None p cp [] ces r1 Hn1).
    unfold r1. rewrite <- (app_assoc tp [n] ["clone"]).
    rewrite (put_put_child tp n "clone" _ perm p es [] (root w) Htp).
    by rewrite (put_fresh_then_remove tp n _ _ perm es Htp Hn).
  - exact Hinc2.
  - rewrite Hm3. unfold from. by rewrite Hd1.
  - rewrite Hm3. unfold from. by rewrite <- app_assoc.
  - rewrite Hm3. apply (no_mount_point_below w targetDir pt et ".git" Hmounts Hto Hfree).
  - by rewrite Hr3.
  - by rewrite Hr3.
  - exact Hnd.
  - exact Hg.
  - exact Honly.
  - exact Hfree.
Qed.

(** X20.  A clone that succeeds, on one device.  The temporary directory is
    new, on the device of the target directory, and not under it; the
    target directory has no entry [.git]; the clone has a [.git] entry and
    no other entry the program counts as metadata (as the clone of a gist
    made from collected files has: no collected name starts with a dot).
    Then [cloneGistMetadata] returns [nil], and the file system it leaves
    is the one it found with the [.git] entry of the clone added to the
    target directory: the rest of the clone and the temporary directory are
    gone.  Without [--verbose] nothing is written to standard output. *)
Theorem cloneGistMetadata_moves_git_directory
    (fuel : nat) (gistID : string) (targetDir : path) (log : logger) (w : world)
    (tp : path) (n : string) (perm p pt cp : Z) (es et ces : list (string * node))
    (g : node) (output : string) :
  get tp (root w) = Some (Dir perm es) ->
  assoc n es = None ->
  mounts_exist w ->
  device_of (mounts w) tp = device_of (mounts w) targetDir ->
  get targetDir (root w) = Some (Dir pt et) ->
  assoc ".git" et = None ->
  incomparable (tp ++ [n]) targetDir ->
  os_MkdirTemp "" "gh-gist-new-" w =
    (with_root w (put (tp ++ [n]) (Some (Dir p [])) (root w)), Ok (tp ++ [n])) ->
  (forall w1,
     gh_gist_clone gistID ((tp ++ [n]) ++ ["clone"]) w1 =
       (with_root w1 (put ((tp ++ [n]) ++ ["clone"]) (Some (Dir cp ces)) (root w1)),
        (None, output))) ->
  NoDup (map fst ces) ->
  assoc ".git" ces = Some g ->
  (forall k, is_metadata k = true -> assoc k ces <> None -> k = ".git") ->
  exists w',
    cloneGistMetadata os_MkdirTemp gh_gist_clone fuel gistID targetDir log w = Some (w', None)
    /\ root w' = put (targetDir ++ [".git"]) (Some g) (root w)
    /\ umask w' = umask w /\ mounts w' = mounts w /\ posted w' = posted w
    /\ (lg_verbose log = false -> stdout w' = stdout w).
Proof. apply cloneGistMetadata_moves_git. Qed.

End CloneSuccess.

Lemma only_git_is_metadata (k : string) :
  is_metadata k = true -> assoc k CloneExample.cloned <> None -> k = ".git".
Proof.
  intros Hmeta Hk. unfold CloneExample.cloned in Hk. cbn [assoc] in Hk.
  destruct (String.eqb_spec ".git" k) as [<-|_]; [reflexivity|].
  destruct (String.eqb_spec "notes.md" k) as [<-|_]; [discriminate Hmeta | done].
Qed.

Lemma cloneGistMetadata_moves_git_directory_witness :
  exists w',
    cloneGistMetadata TargetExample.temp_in_tmp CloneExample.clones_gist 3 "4f2a"
      ["home"; "proj"] Examples.quiet Examples.one_device = Some (w', None)
    /\ root w' =
       put (["home"; "proj"] ++ [".git"])
         (Some (Dir 493 [("HEAD", File 420 "ref: refs/heads/main")]))
         (root Examples.one_device)
    /\ umask w' = umask Examples.one_device /\ mounts w' = mounts Examples.one_device
    /\ posted w' = posted Examples.one_device
    /\ (lg_verbose Examples.quiet = false -> stdout w' = stdout Examples.one_device).
Proof.
  apply (cloneGistMetadata_moves_git_directory TargetExample.temp_in_tmp
           CloneExample.clones_gist 3 "4f2a" ["home"; "proj"] Examples.quiet
           Examples.one_device ["tmp"] "gh-gist-new-77" 511 448 493 493
           [("clone", Examples.clone_tree)] [("notes.md", File 420 "# notes")]
           CloneExample.cloned
           (Dir 493 [("HEAD", File 420 "ref: refs/heads/main")])
           "Cloning into 'clone'...").
  - reflexivity.
  - reflexivity.
  - constructor.
  - reflexivity.
  - reflexivity.
  - reflexivity.
  - by split.
  - reflexivity.
  - reflexivity.
  - apply (bool_decide_unpack _). vm_compute. reflexivity.
  - reflexivity.
  - exact only_git_is_metadata.
Defined.

(** ** [run] and [main] *)

Lemma WriteFile_fresh (w : world) (dir : path) (perm : Z) (es : list (string * node))
    (name data : string) (mode : Z) :
  get dir (root w) = Some (Dir perm es) ->
  assoc name es = None ->
  os_WriteFile (dir ++ [name]) data mode w =
    (with_root w (put (dir ++ [name]) (Some (File (create_perm w mode) data)) (root w)), None).
Proof.
  intros Hdir Ha. unfold os_WriteFile, open_trunc.
  rewrite (namei_under true _ _ _ _ name Hdir) by (right; by rewrite Ha).
  rewrite Ha. unfold write_all. cbn [root with_root].
  rewrite (get_put_eq dir name _ _ perm es Hdir).
  by rewrite (put_put_Some dir name _ _ _ perm es Hdir), with_root_twice.
Qed.



Section ProgramFacts.
Variable random : nat -> string.
Variable DefaultRESTClient : world -> option error.
Variable remote : list (string * string) -> string -> string -> res gistCreateResponse.
Variable os_MkdirTemp : string -> string -> world -> world * res path.
Variable gh_gist_clone : string -> path -> world -> world * (option error * string).

(** X21.  A directory that has an entry [.git] is refused before anything is
    collected or sent: [run] ends with the error of [ensureNotGitRepo], the
    file system is as it was and no request has been made. *)
Theorem run_refuses_directory_with_git_metadata
    (fuel : nat) (args : list string) (w : world) (opts : options) (cwd : path)
    (perm dp : Z) (es des : list (string * node)) (g : node) :
  snd (parseArgs args) = Ok opts ->
  opt_name opts <> "." ->
  get cwd (root w) = Some (Dir perm es) ->
  mounts_exist w ->
  assoc (opt_name opts) es = Some (Dir dp des) ->
  probe_free random des ->
  assoc ".git" des = Some g -> is_symlink_node g = false ->
  exists w',
    run_program (Ok cwd) random DefaultRESTClient remote os_MkdirTemp gh_gist_clone
      fuel args w =
      Some (w', Some (fmt_Errorf "%s already contains git metadata; pick a clean folder"
                        [APath (cwd ++ [opt_name opts])]))
    /\ root w' = root w /\ posted w' = posted w.
Proof.
  intros Hparse Hdot Hcwd Hmounts Hname Hfree Hgit Hlink.
  destruct (parseArgs args) as [out r] eqn:Hargs. cbn [snd] in Hparse. subst r.
  destruct (parseArgs_Ok args out opts Hargs) as (_ & _ & Hvalid).
  unfold run_program, run. rewrite Hargs. cbn [snd].
  set (w2 := logger_Info _ _ _ w).
  rewrite (resolveTargetDirectory_existing random w2 cwd (opt_name opts) perm dp es des
             Hcwd Hmounts Hvalid Hdot Hname Hfree).
  - rewrite Hgit. by exists w2.
  - intros t. rewrite Hgit. intros [= ->]. discriminate Hlink.
Qed.

(** X22.  The program on a directory that has a subdirectory: it ends with the
    error of the collection, the file system is as it was and no request has
    been made. *)
Theorem run_program_stops_at_subdirectory
    (fuel : nat) (args : list string) (w : world) (opts : options) (cwd : path)
    (perm dp sp : Z) (es des ses : list (string * node)) (sub : string) :
  snd (parseArgs args) = Ok opts ->
  opt_name opts <> "." ->
  get cwd (root w) = Some (Dir perm es) ->
  mounts_exist w ->
  assoc (opt_name opts) es = Some (Dir dp des) ->
  probe_free random des ->
  assoc ".git" des = None ->
  NoDup (map fst des) ->
  (sub, Dir sp ses) ∈ des ->
  exists w' err,
    run_program (Ok cwd) random DefaultRESTClient remote os_MkdirTemp gh_gist_clone
      fuel args w = Some (w', Some err)
    /\ root w' = root w /\ posted w' = posted w.
Proof.
  intros Hparse Hdot Hcwd Hmounts Hname Hfree Hgit Hnd Hsub.
  destruct (parseArgs args) as [out r] eqn:Hargs. cbn [snd] in Hparse. subst r.
  destruct (parseArgs_Ok args out opts Hargs) as (_ & _ & Hvalid).
  set (w2 := logger_Info (mkLogger (opt_verbose opts)) "Resolving target directory..." [] w).
  destruct (run_subdirectory_sends_nothing DefaultRESTClient remote os_MkdirTemp gh_gist_clone
              (fun args w => (w, snd (parseArgs args)))
              (resolveTargetDirectory (Ok cwd) random)
              fuel args w w w2 opts (cwd ++ [opt_name opts]) (cwd ++ [opt_name opts])
              (opt_name opts) dp des sub sp ses) as (w' & err & Hrun & Hposted & Hroot).
  - by rewrite Hargs.
  - fold w2. rewrite (resolveTargetDirectory_existing random w2 cwd (opt_name opts) perm dp es des
               Hcwd Hmounts Hvalid Hdot Hname Hfree); [by rewrite Hgit|].
    intros t. by rewrite Hgit.
  - apply namei_get; [|by right]. unfold w2. cbn [root logger_Info emit].
    by rewrite (get_child cwd _ _ perm es Hcwd).
  - exact Hnd.
  - exact Hsub.
  - exists w', err. by split.
Qed.

(** X23.  The program on a directory of files, when the call to the API fails:
    the request that was sent has the files collected from the directory
    (the regular files whose names do not start with a dot), the error of
    the call is returned, and the file system is as it was. *)
Theorem run_program_reports_api_failure
    (fuel : nat) (args : list string) (w : world) (opts : options) (cwd : path)
    (perm dp : Z) (es des : list (string * node)) (err : error) :
  snd (parseArgs args) = Ok opts ->
  opt_name opts <> "." ->
  get cwd (root w) = Some (Dir perm es) ->
  mounts_exist w ->
  assoc (opt_name opts) es = Some (Dir dp des) ->
  probe_free random des ->
  assoc ".git" des = None ->
  NoDup (map fst des) ->
  Forall (fun e => is_dir_node (snd e) = false) des ->
  Exists (fun e => collectible e = true) des ->
  (forall w0, DefaultRESTClient w0 = None) ->
  remote (posted w) "gists"
    (json_Marshal (createGist_request (collected (cwd ++ [opt_name opts]) des) opts)) =
    Fail err ->
  exists w',
    run_program (Ok cwd) random DefaultRESTClient remote os_MkdirTemp gh_gist_clone
      fuel args w =
      Some (w', Some (fmt_Errorf_w "create gist via GitHub API: %w" [] err))
    /\ root w' = root w
    /\ posted w' =
       posted w ++
       [("gists",
         json_Marshal (createGist_request (collected (cwd ++ [opt_name opts]) des) opts))].
Proof.
  intros Hparse Hdot Hcwd Hmounts Hname Hfree Hgit Hnd Hflat Hex Hclient Hremote.
  destruct (parseArgs args) as [out r] eqn:Hargs. cbn [snd] in Hparse. subst r.
  destruct (parseArgs_Ok args out opts Hargs) as (_ & _ & Hvalid).
  unfold run_program, run. rewrite Hargs. cbn [snd].
  set (log := mkLogger (opt_verbose opts)).
  set (w2 := logger_Info log "Resolving target directory..." [] w).
  rewrite (resolveTargetDirectory_existing random w2 cwd (opt_name opts) perm dp es des
             Hcwd Hmounts Hvalid Hdot Hname Hfree) by (intros t; by rewrite Hgit).
  rewrite Hgit.
  set (dir := cwd ++ [opt_name opts]) in *.
  set (w5 := logger_Info log "Collecting files for gist..." []
               (logger_Verbose log "Target directory: %s" [APath dir] w2)).
  assert (same_files w w5) as H05.
  { eapply same_files_trans; [apply same_files_Info|].
    eapply same_files_trans; [apply same_files_Verbose | apply same_files_Info]. }
  assert (namei true (root w5) dir = Found dir (Dir dp des)) as Hdir.
  { apply namei_get; [|by right]. destruct H05 as [-> _].
    unfold dir. by rewrite (get_child cwd _ _ perm es Hcwd). }
  destruct (gatherFiles_flat w5 dir dir (opt_name opts) log dp des Hdir Hnd Hflat)
    as (w6 & H56 & ->).
  rewrite (collected_nonempty dir des Hex).
  set (files := collected dir des) in *.
  set (w9 := logger_Info log "Creating gist via GitHub API..." [] _).
  assert (same_files w w9) as H09.
  { eapply same_files_trans; [exact H05|]. eapply same_files_trans; [exact H56|].
    eapply same_files_trans; [apply same_files_Info|].
    eapply same_files_trans; [apply same_files_Verbose | apply same_files_Info]. }
  destruct H09 as (Hroot & _ & _ & Hposted).
  unfold createGist. rewrite Hclient, Hposted, Hremote.
  eexists. split; [reflexivity|]. cbn [root posted post]. by rewrite Hroot, Hposted.
Qed.

(** X24.  The program is not undone when it fails late.  For a name the working
    directory does not have, the directory is made and the placeholder is
    written into it before the client is made; when the client cannot be
    made, the error is returned, nothing has been sent, and the directory
    with its placeholder stays. *)
Theorem run_program_keeps_placeholder_when_client_fails
    (fuel : nat) (args : list string) (w : world) (opts : options) (cwd : path)
    (perm : Z) (es : list (string * node)) (err : error) :
  snd (parseArgs args) = Ok opts ->
  opt_name opts <> "." ->
  get cwd (root w) = Some (Dir perm es) ->
  mounts_exist w ->
  assoc (opt_name opts) es = None ->
  (forall w0, DefaultRESTClient w0 = Some err) ->
  exists w',
    run_program (Ok cwd) random DefaultRESTClient remote os_MkdirTemp gh_gist_clone
      fuel args w = Some (w', Some (fmt_Errorf_w "init GitHub client: %w" [] err))
    /\ posted w' = posted w
    /\ root w' =
       put (cwd ++ [opt_name opts])
         (Some (Dir (Z.ldiff 493 (umask w))
                  [(opt_name opts +:+ ".md",
                    File (Z.ldiff 420 (umask w)) ("# " +:+ opt_name opts +:+ newline))]))
         (root w).
Proof.
  intros Hparse Hdot Hcwd Hmounts Hname Hclient.
  destruct (parseArgs args) as [out r] eqn:Hargs. cbn [snd] in Hparse. subst r.
  destruct (parseArgs_Ok args out opts Hargs) as (_ & _ & Hvalid).
  unfold run_program, run. rewrite Hargs. cbn [snd].
  set (log := mkLogger (opt_verbose opts)).
  set (w2 := logger_Info log "Resolving target directory..." [] w).
  rewrite (resolveTargetDirectory_creates_missing random w2 cwd (opt_name opts) perm es
             Hcwd Hmounts Hvalid Hdot Hname).
  set (dir := cwd ++ [opt_name opts]) in *.
  set (p0 := Z.ldiff 493 (umask w2)).
  set (w3 := with_root w2 _).
  set (w5 := logger_Info log "Collecting files for gist..." []
               (logger_Verbose log "Target directory: %s" [APath dir] w3)).
  assert (same_files w3 w5) as H35.
  { eapply same_files_trans; [apply same_files_Verbose | apply same_files_Info]. }
  assert (get dir (root w3) = Some (Dir p0 [])) as Hdir3
    by (unfold w3, dir; cbn [root with_root]; by apply (get_put_eq cwd _ _ _ perm es)).
  assert (namei true (root w5) dir = Found dir (Dir p0 [])) as Hdir.
  { apply namei_get; [|by right]. by destruct H35 as [-> _]. }
  destruct (gatherFiles_flat w5 dir dir (opt_name opts) log p0 [] Hdir) as (w6 & H56 & ->);
    [constructor | constructor |].
  change (collected dir []) with (@nil filePayload). cbn [length Nat.eqb app].
  destruct (same_files_trans _ _ _ H35 H56) as (Hroot6 & Humask6 & _ & Hposted6).
  rewrite (WriteFile_fresh w6 dir p0 [] (defaultFileName (opt_name opts)) _ 420)
    by (by rewrite ?Hroot6).
  set (w9 := logger_Info log "Creating gist via GitHub API..." [] _).
  unfold createGist. rewrite Hclient.
  eexists. split; [reflexivity|].
  unfold w9, logger_Info, logger_Verbose.
  destruct (lg_verbose log); cbn [root posted emit with_root];
    (split; [exact Hposted6|]);
    rewrite Hroot6; unfold w3, dir; cbn [root with_root logger_Info emit];
    rewrite <- app_assoc;
    rewrite (put_put_child cwd (opt_name opts) _ _ perm p0 es [] (root w) Hcwd);
    unfold create_perm; by rewrite Humask6.
Qed.


(** X26.  With a flag that asks for help before the name, whatever follows, the
    program writes the usage text to standard error (twice: [FlagSet.Parse]
    and [parseArgs] both call [fs.Usage]), leaves the world as it is and
    ends with status 0. *)
Theorem main_help_exits_with_status_zero
    (getwd : res path) (fuel : nat) (h : string) (rest : list string) (w : world) :
  h ∈ ["-h"; "--h"; "-help"; "--help"] ->
  main getwd random DefaultRESTClient remote os_MkdirTemp gh_gist_clone fuel (h :: rest) w =
    Some (w, [Text usageText; Text usageText], 0).
Proof.
  intros Hh. repeat (apply elem_of_cons in Hh as [->|Hh]; [reflexivity|]).
  by apply elem_of_nil in Hh.
Qed.

End ProgramFacts.

Lemma run_refuses_directory_with_git_metadata_witness :
  exists w',
    run_program (Ok ["tmp"]) TargetExample.rand Stubs.client_ready Stubs.remote_accepts
      Stubs.no_temp Stubs.clone_nothing 3 ["clone"] Examples.one_device =
      Some (w', Some (fmt_Errorf "%s already contains git metadata; pick a clean folder"
                        [APath (["tmp"] ++ ["clone"])]))
    /\ root w' = root Examples.one_device /\ posted w' = posted Examples.one_device.
Proof.
  apply (run_refuses_directory_with_git_metadata TargetExample.rand Stubs.client_ready
           Stubs.remote_accepts Stubs.no_temp Stubs.clone_nothing 3 ["clone"]
           Examples.one_device (mkOptions "clone" false "" false) ["tmp"] 511 493
           [("clone", Examples.clone_tree)]
           (match Examples.clone_tree with Dir _ es => es | _ => [] end)
           (Dir 493 [("HEAD", File 420 "ref: refs/heads/main");
                     ("objects", Dir 493 [("ab", File 292 "blob")])])).
  - reflexivity.
  - discriminate.
  - reflexivity.
  - constructor.
  - reflexivity.
  - by apply probe_free_first.
  - reflexivity.
  - reflexivity.
Defined.

Lemma run_program_stops_at_subdirectory_witness :
  exists w' err,
    run_program (Ok []) TargetExample.rand Stubs.client_ready Stubs.remote_accepts
      Stubs.no_temp Stubs.clone_nothing 3 ["home"] Examples.one_device = Some (w', Some err)
    /\ root w' = root Examples.one_device /\ posted w' = posted Examples.one_device.
Proof.
  apply (run_program_stops_at_subdirectory TargetExample.rand Stubs.client_ready
           Stubs.remote_accepts Stubs.no_temp Stubs.clone_nothing 3 ["home"]
           Examples.one_device (mkOptions "home" false "" false) [] 493 493 493
           (match Examples.fs_one with Dir _ es => es | _ => [] end)
           [("proj", Dir 493 [("notes.md", File 420 "# notes")])]
           [("notes.md", File 420 "# notes")] "proj").
  - reflexivity.
  - discriminate.
  - reflexivity.
  - constructor.
  - reflexivity.
  - by apply probe_free_first.
  - reflexivity.
  - apply (bool_decide_unpack _). vm_compute. reflexivity.
  - apply list_elem_of_here.
Defined.

Lemma run_program_reports_api_failure_witness :
  exists w',
    run_program (Ok ["home"]) TargetExample.rand Stubs.client_ready TargetExample.api_down
      Stubs.no_temp Stubs.clone_nothing 3 ["proj"] Examples.one_device =
      Some (w', Some (fmt_Errorf_w "create gist via GitHub API: %w" []
                        (errors_New "HTTP 401: Bad credentials")))
    /\ root w' = root Examples.one_device
    /\ posted w' =
       posted Examples.one_device ++
       [("gists",
         json_Marshal
           (createGist_request
              (collected (["home"] ++ [opt_name (mkOptions "proj" false "" false)])
                 [("notes.md", File 420 "# notes")])
              (mkOptions "proj" false "" false)))].
Proof.
  apply (run_program_reports_api_failure TargetExample.rand Stubs.client_ready
           TargetExample.api_down Stubs.no_temp Stubs.clone_nothing 3 ["proj"]
           Examples.one_device (mkOptions "proj" false "" false) ["home"] 493 493
           [("proj", Dir 493 [("notes.md", File 420 "# notes")])]
           [("notes.md", File 420 "# notes")] (errors_New "HTTP 401: Bad credentials")).
  - reflexivity.
  - discriminate.
  - reflexivity.
  - constructor.
  - reflexivity.
  - by apply probe_free_first.
  - reflexivity.
  - apply (bool_decide_unpack _). vm_compute. reflexivity.
  - repeat constructor.
  - apply Exists_cons_hd. reflexivity.
  - reflexivity.
  - reflexivity.
Defined.

Lemma run_program_keeps_placeholder_witness :
  exists w',
    run_program (Ok ["home"]) TargetExample.rand TargetExample.client_missing
      Stubs.remote_accepts Stubs.no_temp Stubs.clone_nothing 3 ["new"] Examples.one_device =
      Some (w', Some (fmt_Errorf_w "init GitHub client: %w" []
                        (errors_New "gh auth token not found")))
    /\ posted w' = posted Examples.one_device
    /\ root w' =
       put (["home"] ++ [opt_name (mkOptions "new" false "" false)])
         (Some (Dir (Z.ldiff 493 (umask Examples.one_device))
                  [(opt_name (mkOptions "new" false "" false) +:+ ".md",
                    File (Z.ldiff 420 (umask Examples.one_device))
                      ("# " +:+ opt_name (mkOptions "new" false "" false) +:+ newline))]))
         (root Examples.one_device).
Proof.
  apply (run_program_keeps_placeholder_when_client_fails TargetExample.rand
           TargetExample.client_missing Stubs.remote_accepts Stubs.no_temp
           Stubs.clone_nothing 3 ["new"] Examples.one_device
           (mkOptions "new" false "" false) ["home"] 493
           [("proj", Dir 493 [("notes.md", File 420 "# notes")])]
           (errors_New "gh auth token not found")).
  - reflexivity.
  - discriminate.
  - reflexivity.
  - constructor.
  - reflexivity.
  - reflexivity.
Defined.


Lemma main_help_witness :
  main (Ok ["home"]) TargetExample.rand Stubs.client_ready Stubs.remote_accepts
    Stubs.no_temp Stubs.clone_nothing 3 ["--help"; "proj"] Examples.one_device =
    Some (Examples.one_device, [Text usageText; Text usageText], 0).
Proof.
  apply (main_help_exits_with_status_zero TargetExample.rand Stubs.client_ready
           Stubs.remote_accepts Stubs.no_temp Stubs.clone_nothing (Ok ["home"]) 3 "--help").
  do 3 apply list_elem_of_further. apply list_elem_of_here.
Defined.

(** ** Failing inputs *)

Import Examples.

(** So the test [errors.As(err, &linkErr)] of [moveFileOrDir] holds after
    every failed rename: the copy-then-delete fallback is what follows a
    failure of any kind. *)
Lemma moveFileOrDir_falls_back_on_every_failure (fuel : nat) (src dst : path) (w w' : world)
    (err : error) :
  os_Rename src dst w = (w', Some err) ->
  moveFileOrDir fuel src dst w =
    match copyDir fuel src dst w with
    | None => None
    | Some (w2, Some err2) => Some (w2, Some (fmt_Errorf_w "copy: %w" [] err2))
    | Some (w2, None) =>
        match os_RemoveAll src w2 with
        | (w3, Some err3) => Some (w3, Some (fmt_Errorf_w "remove source after copy: %w" [] err3))
        | (w3, None) => Some (w3, None)
        end
    end.
Proof.
  intros H. unfold moveFileOrDir. rewrite H.
  apply os_Rename_fails_with_LinkError in H as [-> [e ->]]. reflexivity.
Qed.

(** C1, at a failing input.  On one device, with the destination's parent
    directory missing, the rename fails with ENOENT, which is not the
    cross-device condition; [moveFileOrDir] does not return that error: it
    takes the fallback, which makes the missing directories, copies the tree
    and removes the source, and returns [nil]. *)
Theorem moveFileOrDir_fallback_without_cross_device :
  let src := ["tmp"; "clone"; ".git"] in
  let dst := ["home"; "gone"; ".git"] in
  os_Rename src dst one_device = (one_device, Some (LinkError "rename" src dst ENOENT))
  /\ exists w',
      moveFileOrDir 3 src dst one_device = Some (w', None)
      /\ get src (root w') = None
      /\ get dst (root w') = get src (root one_device).
Proof.
  split; [reflexivity|]. eexists. split; [vm_compute; reflexivity|].
  split; reflexivity.
Qed.

(** Across the two devices the [.git] directory of the clone is moved by
    the fallback: the project directory gets the directory with its files,
    bytes and permission bits, and the clone has it no more. *)
Lemma moveFileOrDir_cross_device_directory :
  let src := ["tmp"; "clone"; ".git"] in
  let dst := ["home"; "proj"; ".git"] in
  os_Rename src dst two_devices = (two_devices, Some (LinkError "rename" src dst EXDEV))
  /\ exists w',
      moveFileOrDir 3 src dst two_devices = Some (w', None)
      /\ get src (root w') = None
      /\ get dst (root w') = get src (root two_devices).
Proof.
  split; [reflexivity|]. eexists. split.
  - apply (moveFileOrDir_copies_directory 3 ["tmp"; "clone"] ["home"; "proj"] ".git" ".git"
             two_devices two_devices (LinkError "rename" ["tmp"; "clone"; ".git"]
                                        ["home"; "proj"; ".git"] EXDEV)
             493 493 493
             [(".git", Dir 493 [("HEAD", File 420 "ref: refs/heads/main");
                                ("objects", Dir 493 [("ab", File 292 "blob")])]);
              (".gitattributes", File 420 "* text=auto");
              (".gitignore", File 420 "*.log");
              ("notes.md", File 420 "# notes")]
             [("HEAD", File 420 "ref: refs/heads/main");
              ("objects", Dir 493 [("ab", File 292 "blob")])]
             [("notes.md", File 420 "# notes")]); try reflexivity.
    + repeat (constructor; try (apply (bool_decide_unpack _); vm_compute; reflexivity)).
    + vm_compute. lia.
    + by split.
  - split; reflexivity.
Qed.

(** C2, at a failing input.  The source is a regular file on another device
    than the destination, which does not exist.  The rename fails with
    EXDEV; the fallback calls [copyDir] on the file: it makes a directory at
    the destination and fails to read the file as a directory.  The source
    is still there, the destination is an empty directory. *)
Theorem moveFileOrDir_cross_device_regular_file :
  let src := ["tmp"; "clone"; ".gitattributes"] in
  let dst := ["home"; "proj"; ".gitattributes"] in
  get src (root two_devices) = Some (File 420 "* text=auto")
  /\ get dst (root two_devices) = None
  /\ os_Rename src dst two_devices = (two_devices, Some (LinkError "rename" src dst EXDEV))
  /\ exists w',
      moveFileOrDir 3 src dst two_devices =
        Some (w', Some (fmt_Errorf_w "copy: %w" [] (PathError "readdirent" src ENOTDIR)))
      /\ get src (root w') = Some (File 420 "* text=auto")
      /\ get dst (root w') = Some (Dir 420 []).
Proof.
  repeat split; try reflexivity.
  eexists. split; [vm_compute; reflexivity|]. split; reflexivity.
Qed.

(** C8, at a failing input.  [docs] is a symbolic link that targets a
    directory.  [gatherFiles] looks at the link itself ([DirEntry.Info] does
    not follow it), finds no directory, and skips the link as a non-regular
    file; [run] goes on and sends the request. *)
Theorem gatherFiles_skips_directory_symlink :
  let dir := ["home"; "proj"] in
  (exists fi, os_Stat (dir ++ ["docs"]) linked = Ok fi /\ FileInfo_IsDir fi = true)
  /\ (exists fi, os_Lstat (dir ++ ["docs"]) linked = Ok fi
                 /\ Z.land (fi_mode fi) ModeSymlink <> 0)
  /\ snd (gatherFiles dir "proj" quiet linked) = Ok [mkPayload "a.txt" (dir ++ ["a.txt"]) "alpha"]
  /\ exists w' err,
      run Stubs.client_ready Stubs.remote_accepts Stubs.no_temp Stubs.clone_nothing
          (Stubs.parsed (mkOptions "proj" false "" false)) (Stubs.resolved_to dir "proj")
          3 ["proj"] linked = Some (w', Some err)
      /\ length (posted w') = 1%nat.
Proof.
  split; [eexists; split; reflexivity|].
  split; [eexists; split; [reflexivity | discriminate]|].
  split; [reflexivity|].
  do 2 eexists. split; [vm_compute; reflexivity | reflexivity].
Qed.

(** C10, at a failing input.  [.cache] is a dot-named symbolic link that
    targets a directory.  The directory checks of [gatherFiles] see the link
    itself and do not fire; the link is skipped as a dotfile and the
    placeholder is made. *)
Theorem gatherFiles_skips_dot_directory_symlink :
  let dir := ["home"; "proj"] in
  (exists fi, os_Stat (dir ++ [".cache"]) dotlinked = Ok fi /\ FileInfo_IsDir fi = true)
  /\ (exists fi, os_Lstat (dir ++ [".cache"]) dotlinked = Ok fi
                 /\ Z.land (fi_mode fi) ModeSymlink <> 0)
  /\ snd (gatherFiles dir "proj" chatty dotlinked) =
       Ok [mkPayload "proj.md" (dir ++ ["proj.md"]) ("# proj" +:+ newline)]
  /\ stdout (fst (gatherFiles dir "proj" chatty dotlinked)) =
       [("Skipping dotfile %s", [AStr ".cache"]);
        ("Directory was empty; created %s", [AStr "proj.md"])].
Proof.
  split; [eexists; split; reflexivity|].
  split; [eexists; split; [reflexivity | discriminate]|].
  split; reflexivity.
Qed.

(** What the remote reads for a text file in Latin-1: the byte 0xE9 of the
    content has become the three bytes of U+FFFD. *)
Lemma latin1_content_arrives_changed :
  exists req,
    json_Unmarshal (json_Marshal (createGist_request RequestExample.latin1 RequestExample.secret))
    = Some req
    /\ Files req !! "menu.txt" =
       Some (mkGistFile ("caf" +:+ String "239" (String "191" (String "189" "")))).
Proof.
  rewrite json_Unmarshal_Marshal. eexists. split; [reflexivity|].
  vm_compute. reflexivity.
Qed.

(** C3 as stated, for arbitrary bytes, fails on a file whose content is not
    UTF-8: the one payload has a name of its own, and the content read back
    is not the payload's. *)
Lemma round_trip_fails_on_invalid_utf8 :
  NoDup (map Name RequestExample.latin1)
  /\ ~ round_trips RequestExample.latin1 RequestExample.secret.
Proof.
  split; [apply (bool_decide_unpack _); vm_compute; reflexivity|].
  intros (req & Hreq & _ & Hget & _).
  destruct latin1_content_arrives_changed as (req' & Hreq' & Hget').
  rewrite Hreq in Hreq'. injection Hreq' as <-.
  specialize (Hget _ (list_elem_of_here _ _)). cbn [Name Content] in Hget.
  rewrite Hget in Hget'. discriminate Hget'.
Qed.
